(** * stextools: the document index (stexdoc.py) and the hub registry (mathhub.py)

    A shallow embedding of the extraction engine of [stextools.stexdoc] and of
    the archive bookkeeping of [stextools.mathhub], with the properties of the
    specification stated and settled against it.

    Conventions of the embedding.
    - Python [int] is [Z]; file modification times ([st_mtime], a finite
      float) are compared only with [>], so they are represented by [Z] with
      its order.
    - Python [str] is [string], holding the UTF-8 encoding of the text: a
      character is one byte below 128, or a leading byte followed by bytes
      from 128 to 191.  Slices and [str.strip] work on characters, and the
      white space of [str.strip] is that of Unicode.  Of [str.upper] only the
      conversion of the letters [a] to [z] is represented; it is applied to
      the first letter of the verbalization of [Definame] and nowhere else.
    - A raised exception is the [Raise] outcome of the [result] type.
    - Everything the code asks the operating system (file existence, globbing,
      modification times, manifests, the parsed LaTeX tree) is a field of the
      [World] record, so that a run of the code is a function of the world.
    - [list] attributes mutated through a reference ([module_info.dependencies
      .append(..)]) are updated in place in the [DocInfo] tree; the reference
      is the index path of the object inside that tree.
    - Memoised calls ([functools.cache], [functools.lru_cache], the
      [_manifest] slot): in the first part a [Repository] carries the name
      its memoised [get_archive_name()] returns; in [Memo] the tables are part
      of the state, and on a store in which the names are memoised the two
      analyses agree ([create_doc_info_view]).  [get_mathhub_path()], memoised
      as well, reads the environment only; [get_mathhub_path] of the world is
      what the call returns. *)

From Stdlib Require Import ZArith Lia Ascii String.
From stdpp Require Import base option list strings.

Local Open Scope Z_scope.

(* ------------------------------------------------------------------------- *)
(** * Python strings                                                          *)
(* ------------------------------------------------------------------------- *)

Module Py.

(** [sep.join(parts)] *)
Fixpoint join (sep : string) (parts : list string) : string :=
  match parts with
  | [] => EmptyString
  | [p] => p
  | p :: rest => p +:+ sep +:+ join sep rest
  end.

(** [s.split(sep)] for a one-character separator, reading [s] from the left
    with [cur] the piece under construction. *)
Fixpoint split_from (sep : ascii) (cur : string) (s : string) : list string :=
  match s with
  | EmptyString => [cur]
  | String ch rest =>
      if Ascii.eqb ch sep
      then cur :: split_from sep EmptyString rest
      else split_from sep (cur +:+ String ch EmptyString) rest
  end.

Definition split (sep : ascii) (s : string) : list string :=
  split_from sep EmptyString s.

(** [ch in s] *)
Fixpoint contains (ch : ascii) (s : string) : bool :=
  match s with
  | EmptyString => false
  | String c rest => Ascii.eqb c ch || contains ch rest
  end.

(** [s.partition(sep)]: the part before the first [sep] and the part after
    it (the whole string and the empty string when [sep] does not occur). *)
Fixpoint partition (sep : ascii) (s : string) : string * string :=
  match s with
  | EmptyString => (EmptyString, EmptyString)
  | String c rest =>
      if Ascii.eqb c sep then (EmptyString, rest)
      else let '(before, after) := partition sep rest in (String c before, after)
  end.

(** a byte that continues a character of more than one byte *)
Definition is_continuation (c : ascii) : bool :=
  let n := nat_of_ascii c in (128 <=? n)%nat && (n <=? 191)%nat.

Fixpoint skip_continuation (s : string) : string :=
  match s with
  | EmptyString => EmptyString
  | String c rest => if is_continuation c then skip_continuation rest else s
  end.

(** [s[:-1]]: the last character goes, with all its bytes *)
Fixpoint drop_last (s : string) : string :=
  match s with
  | EmptyString => EmptyString
  | String c rest =>
      match skip_continuation rest with
      | EmptyString => EmptyString
      | _ => String c (drop_last rest)
      end
  end.

(** [s[1:]]: the first character goes, with all its bytes *)
Definition drop_first (s : string) : string :=
  match s with
  | EmptyString => EmptyString
  | String _ rest => skip_continuation rest
  end.

(** [s[1:-1]], which the code uses to take the braces off [latex_verbatim()] *)
Definition strip_delims (s : string) : string := drop_last (drop_first s).

(** The characters [str.strip()] removes are those of [str.isspace]:
    U+0009 to U+000D and U+001C to U+0020, of one byte; *)
Definition is_space (c : ascii) : bool :=
  let n := nat_of_ascii c in
  ((9 <=? n)%nat && (n <=? 13)%nat) || ((28 <=? n)%nat && (n <=? 32)%nat).

(** U+0085 and U+00A0, of two bytes; *)
Definition is_space2 (c1 c2 : ascii) : bool :=
  let '(n1, n2) := (nat_of_ascii c1, nat_of_ascii c2) in
  (n1 =? 194)%nat && ((n2 =? 133)%nat || (n2 =? 160)%nat).

(** U+1680, U+2000 to U+200A, U+2028, U+2029, U+202F, U+205F and U+3000, of
    three bytes. *)
Definition is_space3 (c1 c2 c3 : ascii) : bool :=
  let '(n1, n2, n3) := (nat_of_ascii c1, nat_of_ascii c2, nat_of_ascii c3) in
  ((n1 =? 225)%nat && (n2 =? 154)%nat && (n3 =? 128)%nat)
  || ((n1 =? 226)%nat && (n2 =? 128)%nat
      && (((128 <=? n3)%nat && (n3 <=? 138)%nat)
          || (n3 =? 168)%nat || (n3 =? 169)%nat || (n3 =? 175)%nat))
  || ((n1 =? 226)%nat && (n2 =? 129)%nat && (n3 =? 159)%nat)
  || ((n1 =? 227)%nat && (n2 =? 128)%nat && (n3 =? 128)%nat).

Fixpoint lstrip (s : string) : string :=
  match s with
  | EmptyString => EmptyString
  | String c1 rest1 =>
      if is_space c1 then lstrip rest1
      else
        match rest1 with
        | EmptyString => s
        | String c2 rest2 =>
            if is_space2 c1 c2 then lstrip rest2
            else
              match rest2 with
              | EmptyString => s
              | String c3 rest3 => if is_space3 c1 c2 c3 then lstrip rest3 else s
              end
        end
  end.

(** the same from the other end, on the bytes in reverse order *)
Fixpoint rstrip_reversed (l : list ascii) : list ascii :=
  match l with
  | [] => []
  | c3 :: rest2 =>
      if is_space c3 then rstrip_reversed rest2
      else
        match rest2 with
        | [] => l
        | c2 :: rest1 =>
            if is_space2 c2 c3 then rstrip_reversed rest1
            else
              match rest1 with
              | [] => l
              | c1 :: rest => if is_space3 c1 c2 c3 then rstrip_reversed rest else l
              end
        end
  end.

Definition rstrip (s : string) : string :=
  string_of_list_ascii (rev (rstrip_reversed (rev (list_ascii_of_string s)))).

(** [s.strip()] *)
Definition strip (s : string) : string := rstrip (lstrip s).

Definition upper_char (c : ascii) : ascii :=
  let n := nat_of_ascii c in
  if ((97 <=? n)%nat && (n <=? 122)%nat) then ascii_of_nat (n - 32) else c.

(** truth value of a string: [bool(s)] *)
Definition truthy (s : string) : bool :=
  match s with EmptyString => false | _ => true end.

(** [a or b] where [a : Optional[str]] and [b : str] *)
Definition or_else (a : option string) (b : string) : string :=
  match a with
  | Some s => if truthy s then s else b
  | None => b
  end.

(** [l[-1]] and [l[-2]]; [None] stands for [IndexError] *)
Definition last1 {A} (l : list A) : option A := last l.
Definition last2 {A} (l : list A) : option A :=
  match rev l with _ :: x :: _ => Some x | _ => None end.

(** [l[-2] = x] on a list with at least two items *)
Definition set_last2 {A} (x : A) (l : list A) : list A :=
  match rev l with
  | z :: _ :: rest => rev rest ++ [x; z]
  | _ => l
  end.

(** [l[:-1]] and [l[1:]] *)
Definition init {A} (l : list A) : list A := removelast l.
Definition tail {A} (l : list A) : list A := tl l.

End Py.

(* ------------------------------------------------------------------------- *)
(** * Exceptions                                                              *)
(* ------------------------------------------------------------------------- *)

Inductive exn : Type :=
| TypeError
| IndexError
| AttributeError
| ValueError
| RuntimeError
| FileNotFoundError
| KeyError
| AssertionError
| UnexpectedNodeType.

Inductive result (A : Type) : Type :=
| Ok (a : A)
| Raise (e : exn).
Arguments Ok {A} a.
Arguments Raise {A} e.

Definition bind {A B} (r : result A) (k : A -> result B) : result B :=
  match r with
  | Ok a => k a
  | Raise e => Raise e
  end.

#[global] Instance result_bind : MBind result := fun A B k r => bind r k.
#[global] Instance result_ret : MRet result := @Ok.

(** an [Optional] that is dereferenced: [None] raises the given exception *)
Definition expect {A} (e : exn) (o : option A) : result A :=
  match o with Some a => Ok a | None => Raise e end.

(* ------------------------------------------------------------------------- *)
(** * Data model (stexdoc.py, lines 20-82)                                    *)
(* ------------------------------------------------------------------------- *)

Definition span : Type := Z * Z.

Module Dependency.
Record t : Type := mk {
  archive : string;
  file : option string;
  module_name : option string;
  is_lib : bool;
  is_use : bool;
  target_no_tex : bool;
  valid_range : option span;
  intro_range : option span;
}.
End Dependency.

Module Symbol.
Record t : Type := mk {
  name : string;
  verbalizations : list (string * Z * Z);
  decl_def : option span;
}.
End Symbol.

Module ModuleInfo.
#[local] Set Warnings "-register-all".
Inductive t : Type := mk {
  name : string;
  dependencies : list Dependency.t;
  symbols : list Symbol.t;
  modules : list t;
}.

(** [ModuleInfo.flattened_dependencies], the generator read to its end *)
Definition flattened_dependencies (self : t) : list Dependency.t :=
  dependencies self ++ flat_map dependencies (modules self).

(** [ModuleInfo.iter_modules], the generator read to its end *)
Fixpoint iter_modules (self : t) : list t :=
  self :: flat_map iter_modules (modules self).
End ModuleInfo.

Module DocInfo.
Record t : Type := mk {
  last_modified : Z;
  dependencies : list Dependency.t;
  modules : list ModuleInfo.t;
}.

Definition flattened_dependencies (self : t) : list Dependency.t :=
  dependencies self ++ flat_map ModuleInfo.dependencies (modules self).

Definition iter_modules (self : t) : list ModuleInfo.t :=
  flat_map ModuleInfo.iter_modules (modules self).

(** [DocInfo.get_module]: the first module of the depth-first iteration
    whose name is [name] *)
Definition get_module (self : t) (name : string) : option ModuleInfo.t :=
  List.find (fun m => String.eqb (ModuleInfo.name m) name) (iter_modules self).
End DocInfo.

(* ------------------------------------------------------------------------- *)
(** * Paths, the parsed tree and the world                                    *)
(* ------------------------------------------------------------------------- *)

(** A [pathlib.Path] is the list of its components below the root. *)
Module Path.
Definition t : Type := list string.

Definition component_ok (c : string) : bool :=
  negb (String.eqb c "" || String.eqb c ".").

(** [self / s]: the components of [s] are appended, an absolute [s]
    replaces [self] *)
Definition div (self : t) (s : string) : t :=
  let parts := List.filter component_ok (Py.split "/" s) in
  match s with
  | String "/" _ => parts
  | _ => self ++ parts
  end.

(** [self.name] *)
Definition name (self : t) : string := default EmptyString (last self).

(** [self.parent] *)
Definition parent (self : t) : t := removelast self.

(** [self.with_name(n)]; [ValueError] when [self] has no name or [n] is
    not a single component *)
Definition with_name (self : t) (n : string) : result t :=
  match self with
  | [] => Raise ValueError
  | _ =>
      if String.eqb n "" || String.eqb n "." || Py.contains "/" n
      then Raise ValueError
      else Ok (removelast self ++ [n])
  end.

(** [self.as_posix()] of an absolute path *)
Definition as_posix (self : t) : string := "/" +:+ Py.join "/" self.

Fixpoint strip_prefix (base self : t) : option (list string) :=
  match base, self with
  | [], rest => Some rest
  | b :: base', c :: self' => if String.eqb b c then strip_prefix base' self' else None
  | _ :: _, [] => None
  end.

(** [self.relative_to(base).as_posix()]; [ValueError] when [base] is not
    an ancestor of [self] *)
Definition relative_to (self base : t) : result string :=
  match strip_prefix base self with
  | Some [] => Ok "."
  | Some rest => Ok (Py.join "/" rest)
  | None => Raise ValueError
  end.
End Path.

(** Modelled from the spec: the module [stextools.macro_arg_utils] is not
    among the sources; [OptArgKeyVals] is a keyword-value list whose
    [get_val] returns the value of the first entry with the given key. *)
Definition OptArgKeyVals : Type := list (string * string).

Definition get_val (self : OptArgKeyVals) (key : string) : option string :=
  snd <$> List.find (fun kv => String.eqb (fst kv) key) self.

(** One parsed argument of a macro or environment: its source text
    ([latex_verbatim()], delimiters included) and the keyword-value list
    [OptArgKeyVals(arg.nodelist)] reads from it. *)
Module Arg.
Record t : Type := mk {
  latex_verbatim : string;
  keyvals : OptArgKeyVals;
}.
End Arg.

(** Modelled from the spec: the argument descriptor [node.nodeargd] of a
    macro or environment node, with what the accessors of
    [stextools.macro_arg_utils] (not among the sources) return on it: the
    optional bracketed argument, the keyword-value list of the first
    argument, and the first main argument. *)
Module ParsedArgs.
Record t : Type := mk {
  argnlist : list (option Arg.t);
  get_first_macro_arg_opt : option string;
  from_first_macro_arg : option OptArgKeyVals;
  get_first_main_arg : option string;
}.
End ParsedArgs.

(** The node types of pylatexenc the walk distinguishes; [LatexOtherNode]
    is any node type beyond them. *)
#[local] Set Warnings "-register-all".
Inductive LatexNode : Type :=
| LatexCommentNode (pos len : Z)
| LatexCharsNode (pos len : Z)
| LatexMathNode (pos len : Z)
| LatexSpecialsNode (pos len : Z)
| LatexGroupNode (pos len : Z) (nodelist : list LatexNode)
| LatexEnvironmentNode (pos len : Z) (environmentname : string)
    (nodeargd : ParsedArgs.t) (nodelist : list LatexNode)
| LatexMacroNode (pos len : Z) (macroname : string) (nodeargd : ParsedArgs.t)
| LatexOtherNode (pos len : Z).

(** What the code reads from outside the process. *)
Record World : Type := {
  (** [p.is_file()] *)
  is_file : Path.t -> bool;
  (** [p.exists()] *)
  path_exists : Path.t -> bool;
  (** [dir.glob(pattern)], in the order of the iteration *)
  glob : Path.t -> string -> list Path.t;
  (** [dir.rglob(pattern)] *)
  rglob : Path.t -> string -> list Path.t;
  (** [p.absolute().resolve()] *)
  resolve : Path.t -> Path.t;
  (** [p.stat().st_mtime]; [None] when [stat] raises [FileNotFoundError] *)
  st_mtime : Path.t -> option Z;
  (** [LatexWalker(open(p).read(), ..).get_latex_nodes()]: the node list and
      the length of the text; [None] when the file cannot be opened *)
  get_latex_nodes : Path.t -> option (list LatexNode * Z);
  (** [Manifest(root / 'META-INF' / 'MANIFEST.MF')]; [None] when the file
      is missing *)
  read_manifest : Path.t -> option (list (string * string));
  (** [get_mathhub_path()] *)
  get_mathhub_path : Path.t;
}.

(* ------------------------------------------------------------------------- *)
(** * Dictionaries in insertion order                                         *)
(* ------------------------------------------------------------------------- *)

Module Dict.
Definition t (V : Type) : Type := list (string * V).

Definition get {V} (k : string) (d : t V) : option V :=
  snd <$> List.find (fun kv => String.eqb (fst kv) k) d.

Definition mem {V} (k : string) (d : t V) : bool :=
  existsb (fun kv => String.eqb (fst kv) k) d.

(** [d[k] = v]: a present key keeps its place, a new key goes last *)
Fixpoint set {V} (k : string) (v : V) (d : t V) : t V :=
  match d with
  | [] => [(k, v)]
  | (k', v') :: rest =>
      if String.eqb k' k then (k, v) :: rest else (k', v') :: set k v rest
  end.

(** [del d[k]] for a present key *)
Definition del {V} (k : string) (d : t V) : t V :=
  List.filter (fun kv => negb (String.eqb (fst kv) k)) d.

Definition keys {V} (d : t V) : list string := List.map fst d.
Definition values {V} (d : t V) : list V := List.map snd d.
End Dict.

(* ------------------------------------------------------------------------- *)
(** * Documents and repositories: the objects                                 *)
(* ------------------------------------------------------------------------- *)

(** What a document reads through [self.archive]: the root of the owning
    [Repository] and the value its cached [get_archive_name()] returns. *)
Module ArchiveRef.
Record t : Type := mk {
  path : Path.t;
  get_archive_name : string;
}.
End ArchiveRef.

Module STeXDocument.
Record t : Type := mk {
  archive : ArchiveRef.t;
  path : Path.t;
  _doc_info : option DocInfo.t;
}.

Definition set_doc_info (o : option DocInfo.t) (self : t) : t :=
  mk (archive self) (path self) o.

(** [STeXDocument.__init__] *)
Definition init (w : World) (archive : ArchiveRef.t) (path : Path.t) : t :=
  mk archive (resolve w path) None.

(** [STeXDocument.get_rel_path] *)
Definition get_rel_path (self : t) : result string :=
  Path.relative_to (path self) (ArchiveRef.path (archive self)).

(** [STeXDocument.delete_doc_info_if_outdated] (stexdoc.py, lines 214-218) *)
Definition delete_doc_info_if_outdated (w : World) (self : t) : result t :=
  match _doc_info self with
  | None => Ok self
  | Some doc_info =>
      mtime ← expect FileNotFoundError (st_mtime w (path self));
      if DocInfo.last_modified doc_info <? mtime
      then Ok (set_doc_info None self)
      else Ok self
  end.
End STeXDocument.

Module Repository.
Record t : Type := mk {
  path : Path.t;
  (** the value memoised by [functools.cache] for [get_archive_name()] *)
  get_archive_name : string;
  _manifest : option (list (string * string));
  _stex_documents : option (Dict.t STeXDocument.t);
}.

Definition ref (self : t) : ArchiveRef.t :=
  ArchiveRef.mk (path self) (get_archive_name self).

(** [Repository(path)] followed by the first call of [get_archive_name()]
    (mathhub.py, lines 108-111 and 201-210): the name is the manifest's
    [id], else the root relative to the hub; reading the manifest leaves it
    in [_manifest]. *)
Definition discover (w : World) (path : Path.t) : result t :=
  name_guess ← Path.relative_to path (get_mathhub_path w);
  match read_manifest w path with
  | None => Ok (mk path name_guess None None)
  | Some mf => Ok (mk path (default name_guess (Dict.get "id" mf)) (Some mf) None)
  end.

(** [Repository._relevant_file_iterate] *)
Definition _relevant_file_iterate (w : World) (self : t) : list Path.t :=
  rglob w (Path.div (path self) "source") "**/*.tex"
  ++ rglob w (Path.div (path self) "lib") "**/*.tex".

(** the first loop of [Repository.update] (mathhub.py, lines 119-125) *)
Fixpoint update_scan (w : World) (self : t) (files : list Path.t)
    (still_needed : list string) (docs : Dict.t STeXDocument.t)
    : result (list string * Dict.t STeXDocument.t) :=
  match files with
  | [] => Ok (still_needed, docs)
  | p :: rest =>
      rel_path ← Path.relative_to p (path self);
      let still_needed := rel_path :: still_needed in
      match Dict.get rel_path docs with
      | None =>
          update_scan w self rest still_needed
            (Dict.set rel_path (STeXDocument.init w (ref self) p) docs)
      | Some doc =>
          doc' ← STeXDocument.delete_doc_info_if_outdated w doc;
          update_scan w self rest still_needed (Dict.set rel_path doc' docs)
      end
  end.

(** the second loop, over the snapshot [list(self._stex_documents)] *)
Fixpoint update_prune (snapshot : list string) (still_needed : list string)
    (docs : Dict.t STeXDocument.t) : Dict.t STeXDocument.t :=
  match snapshot with
  | [] => docs
  | key :: rest =>
      if bool_decide (key ∈ still_needed)
      then update_prune rest still_needed docs
      else update_prune rest still_needed (Dict.del key docs)
  end.

(** [Repository.update] (mathhub.py, lines 113-129) *)
Definition update (w : World) (self : t) : result t :=
  let self := mk (path self) (get_archive_name self) None (_stex_documents self) in
  match _stex_documents self with
  | None => Ok self
  | Some docs =>
      '(still_needed, docs) ←
        update_scan w self (_relevant_file_iterate w self) [] docs;
      Ok (mk (path self) (get_archive_name self) None
            (Some (update_prune (Dict.keys docs) still_needed docs)))
  end.

(** The body of [normalize_tex_file_ref] (mathhub.py, lines 172-182). *)
Definition normalize_tex_file_ref_body (w : World) (self : t)
    (path directory : string) : result (option string) :=
  let base := Path.div (Repository.path self) directory in
  if is_file w (Path.div base path) then Ok (Some path)
  else if is_file w (Path.div base (path +:+ ".tex")) then Ok (Some (path +:+ ".tex"))
  else
    let split := Py.split "/" path in
    let options :=
      glob w (Path.div base (Py.join "/" (Py.init split)))
        (default EmptyString (Py.last1 split) +:+ ".*.tex") in
    match options with
    | first :: _ => rel ← Path.relative_to first base; Ok (Some rel)
    | [] => Ok None
    end.

(** A call of [self.normalize_tex_file_ref] with the positional arguments [args].
    The signature is [(self, path, directory='source')]: one or two
    arguments are bound, any other number raises [TypeError] before the body
    runs.  (The [lru_cache] in front of it stores results only, so a raising
    call leaves it as it was; the table is part of the state in [Memo]
    below.) *)
Definition normalize_tex_file_ref (w : World) (self : t) (args : list string)
    : result (option string) :=
  match args with
  | [path] => normalize_tex_file_ref_body w self path "source"
  | [path; directory] => normalize_tex_file_ref_body w self path directory
  | _ => Raise TypeError
  end.

(** [Repository.get_manifest] (mathhub.py, lines 160-164): the manifest
    and the archive after the call; a manifest read from disk stays in
    [_manifest] *)
Definition get_manifest (w : World) (self : t) : result (list (string * string) * t) :=
  match _manifest self with
  | Some mf => Ok (mf, self)
  | None =>
      mf ← expect FileNotFoundError (read_manifest w (path self));
      Ok (mf, mk (path self) (get_archive_name self) (Some mf) (_stex_documents self))
  end.

(** [Repository.try_get_manifest] (mathhub.py, lines 194-199) *)
Definition try_get_manifest (w : World) (self : t)
    : result (option (list (string * string)) * t) :=
  match get_manifest w self with
  | Ok (mf, self') => Ok (Some mf, self')
  | Raise FileNotFoundError => Ok (None, self)
  | Raise e => Raise e
  end.

(** the loop of [_ensure_stex_docs_loaded] (mathhub.py, lines 141-143) *)
Fixpoint load_documents (w : World) (self : t) (files : list Path.t)
    (docs : Dict.t STeXDocument.t) : result (Dict.t STeXDocument.t) :=
  match files with
  | [] => Ok docs
  | file :: rest =>
      let stex_doc := STeXDocument.init w (ref self) file in
      rel_path ← STeXDocument.get_rel_path stex_doc;
      load_documents w self rest (Dict.set rel_path stex_doc docs)
  end.

(** [Repository._ensure_stex_docs_loaded] (mathhub.py, lines 137-143): a
    dictionary that is missing or empty is falsy, and is built anew *)
Definition _ensure_stex_docs_loaded (w : World) (self : t) : result t :=
  match _stex_documents self with
  | Some (_ :: _) => Ok self
  | _ =>
      docs ← load_documents w self (_relevant_file_iterate w self) [];
      Ok (mk (path self) (get_archive_name self) (_manifest self) (Some docs))
  end.

(** [Repository.get_stex_doc] (mathhub.py, lines 145-148): the document
    found, if any, and the archive after the call *)
Definition get_stex_doc (w : World) (self : t) (rel_path : string)
    : result (option STeXDocument.t * t) :=
  self' ← _ensure_stex_docs_loaded w self;
  docs ← expect AssertionError (_stex_documents self');
  Ok (Dict.get rel_path docs, self').

(** [Repository.number_of_documents] (mathhub.py, lines 155-158) *)
Definition number_of_documents (w : World) (self : t) : result (nat * t) :=
  self' ← _ensure_stex_docs_loaded w self;
  docs ← expect AssertionError (_stex_documents self');
  Ok (length docs, self').
End Repository.

Module MathHub.
Record t : Type := mk {
  archive_lookup : Dict.t Repository.t;
}.

(** [MathHub.get_archive] *)
Definition get_archive (self : t) (archive_name : string) : option Repository.t :=
  Dict.get archive_name (archive_lookup self).

(** [_get_mathhub_repos] (mathhub.py, lines 213-217): the roots, in the
    order of the iteration *)
Definition _get_mathhub_repos (w : World) : list Path.t :=
  List.map Path.parent (glob w (get_mathhub_path w) "**/.git").

(** the first loop of [MathHub.update] (mathhub.py, lines 44-47) *)
Fixpoint update_discover (w : World) (roots : list Path.t)
    (still_needed : list string) (lookup : Dict.t Repository.t)
    : result (list string * Dict.t Repository.t) :=
  match roots with
  | [] => Ok (still_needed, lookup)
  | root :: rest =>
      repo ← Repository.discover w root;
      let name := Repository.get_archive_name repo in
      let lookup := if Dict.mem name lookup then lookup else Dict.set name repo lookup in
      update_discover w rest (name :: still_needed) lookup
  end.

(** The second loop (mathhub.py, lines 49-53) runs over the live view
    [self.archive_lookup.values()].  The iterator of a dictionary remembers
    the number of entries at its creation ([used]) and raises [RuntimeError]
    ("dictionary changed size during iteration") at the first request for a
    next item at which the dictionary has another size; [todo] are the
    entries not yet visited.  [repo.update()] changes the visited object and
    not the dictionary, so the entry is written back under its key. *)
Fixpoint update_sweep (w : World) (used : nat) (todo : list (string * Repository.t))
    (still_needed : list string) (lookup : Dict.t Repository.t)
    : result (Dict.t Repository.t) :=
  if negb (Nat.eqb (length lookup) used) then Raise RuntimeError
  else
    match todo with
    | [] => Ok lookup
    | (key, repo) :: rest =>
        if bool_decide (Repository.get_archive_name repo ∈ still_needed)
        then
          repo' ← Repository.update w repo;
          update_sweep w used rest still_needed (Dict.set key repo' lookup)
        else if Dict.mem (Repository.get_archive_name repo) lookup then
          update_sweep w used rest still_needed
            (Dict.del (Repository.get_archive_name repo) lookup)
        else Raise KeyError
    end.

(** [MathHub.update] (mathhub.py, lines 41-55) *)
Definition update (w : World) (self : t) : result t :=
  '(still_needed, lookup) ←
    update_discover w (_get_mathhub_repos w) [] (archive_lookup self);
  lookup ← update_sweep w (length lookup) lookup still_needed lookup;
  Ok (mk lookup).

(** [MathHub.__init__] (mathhub.py, lines 19-21) *)
Definition init (w : World) : result t := update w (mk []).

(** The loop of [get_archive_from_path] (mathhub.py, lines 33-36), on an
    absolute path given with its components in reverse order, so that the
    parent is the tail: the path itself is tried first, then its parents;
    [FileNotFoundError] is raised as soon as the parent is the root.
    [is_dir] answers [p.is_dir()]. *)
Fixpoint enclosing_root (is_dir : Path.t -> bool) (reversed : list string)
    : result Path.t :=
  if is_dir (Path.div (rev reversed) ".git") then Ok (rev reversed)
  else
    match reversed with
    | [] => Raise FileNotFoundError
    | _ :: parent =>
        match parent with
        | [] => Raise FileNotFoundError
        | _ :: _ => enclosing_root is_dir parent
        end
    end.

(** [MathHub.get_archive_from_path] (mathhub.py, lines 31-39) *)
Definition get_archive_from_path (w : World) (is_dir : Path.t -> bool) (self : t)
    (path : Path.t) : result (option Repository.t) :=
  root ← enclosing_root is_dir (rev path);
  archive_name ← Path.relative_to root (get_mathhub_path w);
  Ok (get_archive self archive_name).
End MathHub.

(* ------------------------------------------------------------------------- *)
(** * Dependency producers (stexdoc.py, lines 85-196)                         *)
(* ------------------------------------------------------------------------- *)

Module DependencyProducer.
Record t : Type := mk {
  macroname : string;
  references_module : bool;
  opt_param_is_archive : bool;
  archive_in_params : bool;
  is_lib : bool;
  is_use : bool;
  target_no_tex : bool;
}.

(** the loops [for path_option in path_options] of [produce]: the first
    candidate the normalizer of the archive resolves *)
Fixpoint first_resolved (w : World) (archive : Repository.t)
    (top_dir lang : string) (path_options : list string) : result (option string) :=
  match path_options with
  | [] => Ok None
  | path_option :: rest =>
      file ← Repository.normalize_tex_file_ref w archive [path_option; top_dir; lang];
      match file with
      | Some f => Ok (Some f)
      | None => first_resolved w archive top_dir lang rest
      end
  end.

(** STEP 1 of [produce]: the archive named by the invocation, if any *)
Definition target_archive_of (self : t) (nodeargd : ParsedArgs.t) : option string :=
  if opt_param_is_archive self then
    match ParsedArgs.get_first_macro_arg_opt nodeargd with
    | Some opt_arg => if Py.truthy opt_arg then Some (Py.strip opt_arg) else None
    | None => None
    end
  else if archive_in_params self then
    match ParsedArgs.from_first_macro_arg nodeargd with
    | Some params =>
        match get_val params "archive" with
        | Some value => if Py.truthy value then Some value else None
        | None => None
        end
    | None => None
    end
  else None.

(** [DependencyProducer.produce] (stexdoc.py, lines 97-169) on the macro
    node at [pos] of length [len] with arguments [nodeargd] *)
Definition produce (w : World) (self : t) (pos len : Z) (nodeargd : ParsedArgs.t)
    (from_archive from_subdir : string) (mh : MathHub.t) (valid_range : span)
    (lang : string) : result (option Dependency.t) :=
  let target_archive := target_archive_of self nodeargd in
  match ParsedArgs.get_first_main_arg nodeargd with
  | None => Ok None
  | Some main_arg =>
      let top_dir : string := if is_lib self then "lib" else "source" in
      let intro_range : span := (pos, pos + len) in
      let dependency name file module_name :=
        Dependency.mk name file module_name (is_lib self) (is_use self)
          (target_no_tex self) (Some valid_range) (Some intro_range) in
      match MathHub.get_archive mh (Py.or_else target_archive from_archive) with
      | None =>
          Ok (Some (dependency (Py.or_else target_archive from_archive) None None))
      | Some archive =>
          let name := Repository.get_archive_name archive in
          if references_module self then
            let '(path, module_name) :=
              if Py.contains "?" main_arg then Py.partition "?" main_arg
              else (main_arg, default EmptyString (Py.last1 (Py.split "/" main_arg))) in
            let path_options :=
              (match target_archive with
               | None => [from_subdir +:+ "/" +:+ path;
                          from_subdir +:+ "/" +:+ path +:+ "/" +:+ module_name]
               | Some _ => []
               end) ++ [path; path +:+ "/" +:+ module_name] in
            file ← first_resolved w archive top_dir lang path_options;
            Ok (Some (dependency name file (Some module_name)))
          else if target_no_tex self then
            Ok (Some (dependency name None None))
          else
            let path_options :=
              (match target_archive with
               | None => [from_subdir +:+ "/" +:+ main_arg]
               | Some _ => []
               end) ++ [main_arg] in
            file ← first_resolved w archive top_dir lang path_options;
            Ok (Some (dependency name file None))
      end
  end.
End DependencyProducer.

Definition DEPENDENCY_PRODUCERS : list DependencyProducer.t :=
  let dp name references_module opt_param_is_archive archive_in_params
         is_lib is_use target_no_tex :=
    DependencyProducer.mk name references_module opt_param_is_archive
      archive_in_params is_lib is_use target_no_tex in
  [ dp "usemodule"         true  true  false false true  false;
    dp "requiremodule"     true  true  false false true  false;
    dp "importmodule"      true  true  false false false false;
    dp "inputref"          false true  false false false false;
    dp "mhinput"           false true  false false false false;
    dp "mhgraphics"        false false true  false false true;
    dp "cmhgraphics"       false false true  false false true;
    dp "mhtikzinput"       false false true  false false true;
    dp "cmhtikzinput"      false false true  false false true;
    dp "lstinputmhlisting" false false true  false false true;
    dp "includeproblem"    false false true  false false false;
    dp "libinput"          false true  false true  false false;
    dp "addmhbibresource"  false false true  true  false true ].

(** [{dp.macroname: dp for dp in DEPENDENCY_PRODUCERS}] *)
Definition DEPENDENCY_PRODUCER_BY_MACRONAME : Dict.t DependencyProducer.t :=
  fold_left (fun d dp => Dict.set (DependencyProducer.macroname dp) dp d)
    DEPENDENCY_PRODUCERS [].

(* ------------------------------------------------------------------------- *)
(** * The walk of [create_doc_info] (stexdoc.py, lines 220-330)               *)
(* ------------------------------------------------------------------------- *)

(** A reference to a [ModuleInfo] of the document under construction: the
    indices leading to it from [doc_info.modules], and its [name] (which is
    never assigned after the object is created). *)
Record ModRef : Type := {
  ref_path : list nat;
  ref_name : string;
}.

Definition push_dependency (dep : Dependency.t) (m : ModuleInfo.t) : ModuleInfo.t :=
  ModuleInfo.mk (ModuleInfo.name m) (ModuleInfo.dependencies m ++ [dep])
    (ModuleInfo.symbols m) (ModuleInfo.modules m).

Definition push_module (new : ModuleInfo.t) (m : ModuleInfo.t) : ModuleInfo.t :=
  ModuleInfo.mk (ModuleInfo.name m) (ModuleInfo.dependencies m)
    (ModuleInfo.symbols m) (ModuleInfo.modules m ++ [new]).

Definition push_verbalization (v : string * Z * Z) (s : Symbol.t) : Symbol.t :=
  Symbol.mk (Symbol.name s) (Symbol.verbalizations s ++ [v]) (Symbol.decl_def s).

(** Lines 315-325: the first symbol of the module with the name [symbol] is
    looked up; a missing one is created (with [decl_def] when the macro is
    [symdef] or [symdecl]) and appended; the verbalization goes to the symbol
    found or created. *)
Definition record_symbol (declares : bool) (symbol verbalization : string)
    (pos len : Z) (m : ModuleInfo.t) : ModuleInfo.t :=
  let hit := (verbalization, pos, pos + len) in
  let symbols :=
    match list_find (fun s => Symbol.name s = symbol) (ModuleInfo.symbols m) with
    | Some (i, _) => alter (push_verbalization hit) i (ModuleInfo.symbols m)
    | None =>
        ModuleInfo.symbols m
        ++ [push_verbalization hit
              (Symbol.mk symbol []
                 (if declares then Some (pos, pos + len) else None))]
    end in
  ModuleInfo.mk (ModuleInfo.name m) (ModuleInfo.dependencies m) symbols
    (ModuleInfo.modules m).

(** the object a path leads to, and an update of it in place *)
Fixpoint module_in (p : list nat) (m : ModuleInfo.t) : option ModuleInfo.t :=
  match p with
  | [] => Some m
  | i :: p' => ModuleInfo.modules m !! i ≫= module_in p'
  end.

Definition module_at (p : list nat) (ms : list ModuleInfo.t) : option ModuleInfo.t :=
  match p with
  | [] => None
  | i :: p' => ms !! i ≫= module_in p'
  end.

Fixpoint alter_in (f : ModuleInfo.t -> ModuleInfo.t) (p : list nat)
    (m : ModuleInfo.t) : ModuleInfo.t :=
  match p with
  | [] => f m
  | i :: p' =>
      ModuleInfo.mk (ModuleInfo.name m) (ModuleInfo.dependencies m)
        (ModuleInfo.symbols m) (alter (alter_in f p') i (ModuleInfo.modules m))
  end.

Definition alter_at (f : ModuleInfo.t -> ModuleInfo.t) (p : list nat)
    (ms : list ModuleInfo.t) : list ModuleInfo.t :=
  match p with
  | [] => ms
  | i :: p' => alter (alter_in f p') i ms
  end.

Definition update_module (f : ModuleInfo.t -> ModuleInfo.t) (r : ModRef)
    (doc_info : DocInfo.t) : DocInfo.t :=
  DocInfo.mk (DocInfo.last_modified doc_info) (DocInfo.dependencies doc_info)
    (alter_at f (ref_path r) (DocInfo.modules doc_info)).

(** [module_info.dependencies.append(dep)] or [doc_info.dependencies.append(dep)] *)
Definition attach_dependency (dep : Dependency.t) (module_info : option ModRef)
    (doc_info : DocInfo.t) : DocInfo.t :=
  match module_info with
  | Some r => update_module (push_dependency dep) r doc_info
  | None =>
      DocInfo.mk (DocInfo.last_modified doc_info)
        (DocInfo.dependencies doc_info ++ [dep]) (DocInfo.modules doc_info)
  end.

(** [module_info.modules.append(new)] or [doc_info.modules.append(new)],
    with the reference to the appended object *)
Definition attach_module (new : ModuleInfo.t) (module_info : option ModRef)
    (doc_info : DocInfo.t) : ModRef * DocInfo.t :=
  match module_info with
  | Some r =>
      let siblings :=
        match module_at (ref_path r) (DocInfo.modules doc_info) with
        | Some parent => length (ModuleInfo.modules parent)
        | None => O
        end in
      ({| ref_path := ref_path r ++ [siblings]; ref_name := ModuleInfo.name new |},
       update_module (push_module new) r doc_info)
  | None =>
      ({| ref_path := [length (DocInfo.modules doc_info)];
          ref_name := ModuleInfo.name new |},
       DocInfo.mk (DocInfo.last_modified doc_info) (DocInfo.dependencies doc_info)
         (DocInfo.modules doc_info ++ [new]))
  end.

(** [arg.latex_verbatim()[1:-1]] for [arg] taken out of [argnlist] by an
    index: a missing position raises [IndexError], an argument that is
    [None] raises [AttributeError] *)
Definition verbatim_inner (slot : option (option Arg.t)) : result string :=
  arg ← expect IndexError slot;
  arg ← expect AttributeError arg;
  Ok (Py.strip_delims (Arg.latex_verbatim arg)).

(** Lines 290-312: the symbol and verbalization of a symbol macro *)
Definition symbol_of_macro (macroname : string) (nodeargd : ParsedArgs.t)
    : result (string * string) :=
  let argnlist := ParsedArgs.argnlist nodeargd in
  if String.eqb macroname "definiendum" then
    symbol ← verbatim_inner (Py.last2 argnlist);
    verbalization ← verbatim_inner (Py.last1 argnlist);
    Ok (symbol, verbalization)
  else if String.eqb macroname "symdef" then
    arg ← expect IndexError (argnlist !! 1%nat);
    match arg ≫= (fun a => get_val (Arg.keyvals a) "name") with
    | Some symbol => Ok (symbol, symbol)
    | None => symbol ← verbatim_inner (argnlist !! 0%nat); Ok (symbol, symbol)
    end
  else if String.eqb macroname "symdecl" then
    symbol ← verbatim_inner (Py.last1 argnlist);
    Ok (symbol, symbol)
  else
    symbol ← verbatim_inner (Py.last1 argnlist);
    if String.eqb macroname "Definame" then
      match symbol with
      | String c rest => Ok (symbol, String (Py.upper_char c) rest)
      | EmptyString => Ok (symbol, symbol)
      end
    else Ok (symbol, symbol).

Definition is_symbol_macro (macroname : string) : bool :=
  bool_decide (macroname ∈ ["definiendum"; "definame"; "Definame"; "symdef"; "symdecl"]).

Definition declares (macroname : string) : bool :=
  bool_decide (macroname ∈ ["symdef"; "symdecl"]).

Section Walk.
Variables (w : World) (mh : MathHub.t) (self : STeXDocument.t).

(** Lines 246-264: the dependency on the signature file of a module *)
Definition signature_dependency (pos len : Z) (nodeargd : ParsedArgs.t)
    (name : string) : result (option Dependency.t) :=
  match ParsedArgs.from_first_macro_arg nodeargd ≫= (fun params => get_val params "sig") with
  | None => Ok None
  | Some sig_val =>
      if negb (Py.truthy sig_val) then Ok None
      else
        let file := STeXDocument.path self in
        let name_parts := Py.split "." (Path.name file) in
        file_field ←
          (if (2 <? length name_parts)%nat then
             file ← Path.with_name file (Py.join "." (Py.set_last2 sig_val name_parts));
             Ok (if path_exists w file then Some (Path.as_posix file) else None)
           else Ok None);
        Ok (Some (Dependency.mk
                    (ArchiveRef.get_archive_name (STeXDocument.archive self))
                    file_field (Some name) false false false
                    (Some (pos, pos + len)) (Some (pos, pos + len))))
  end.

(** the language tag of the document (lines 270-273) *)
Definition lang_of_document : string :=
  let _parts := Py.split "." (Path.name (STeXDocument.path self)) in
  if (2 <? length _parts)%nat then default "*" (Py.last2 _parts) else "*".

Definition walk_state : Type := option ModRef * DocInfo.t.

(** the [for node in nodes] loop around a loop body [step]: the variable
    [module_info] is carried from one iteration to the next *)
Definition for_nodes (step : LatexNode -> span -> walk_state -> result walk_state)
    : list LatexNode -> span -> walk_state -> result walk_state :=
  fix loop (nodes : list LatexNode) (parent_range : span) (st : walk_state) :=
    match nodes with
    | [] => Ok st
    | node :: rest =>
        st' ← step node parent_range st;
        loop rest parent_range st'
    end.

(** a call [process(nodes, parent_range, module_info)]: the assignments to
    [module_info] inside the call are not seen by the caller *)
Definition call_process (step : LatexNode -> span -> walk_state -> result walk_state)
    (nodes : list LatexNode) (parent_range : span) (st : walk_state)
    : result walk_state :=
  st' ← for_nodes step nodes parent_range st;
  Ok (fst st, snd st').

(** the body of the loop of [process] (lines 229-327) *)
Fixpoint process_node (node : LatexNode) (parent_range : span)
    (st : walk_state) {struct node} : result walk_state :=
  let '(module_info, doc_info) := st in
  match node with
  | LatexCommentNode _ _ | LatexCharsNode _ _
  | LatexMathNode _ _ | LatexSpecialsNode _ _ => Ok st
  | LatexGroupNode pos len nodelist =>
      call_process process_node nodelist (pos, pos + len) st
  | LatexEnvironmentNode pos len environmentname nodeargd nodelist =>
      if String.eqb environmentname "smodule" then
        name ← verbatim_inner (ParsedArgs.argnlist nodeargd !! 1%nat);
        let name :=
          match module_info with
          | Some r => ref_name r +:+ "/" +:+ name
          | None => name
          end in
        let '(new_ref, doc_info) :=
          attach_module (ModuleInfo.mk name [] [] []) module_info doc_info in
        sig_dep ← signature_dependency pos len nodeargd name;
        let doc_info :=
          match sig_dep with
          | Some dep => attach_dependency dep (Some new_ref) doc_info
          | None => doc_info
          end in
        call_process process_node nodelist (pos, pos + len) (Some new_ref, doc_info)
      else
        call_process process_node nodelist (pos, pos + len) st
  | LatexMacroNode pos len macroname nodeargd =>
      match Dict.get macroname DEPENDENCY_PRODUCER_BY_MACRONAME with
      | Some dp =>
          let lang := lang_of_document in
          rel_path ← STeXDocument.get_rel_path self;
          dep ← DependencyProducer.produce w dp pos len nodeargd
                  (ArchiveRef.get_archive_name (STeXDocument.archive self))
                  (Py.join "/" (Py.tail (Py.split "/" rel_path)))
                  mh parent_range lang;
          match dep with
          | Some dep => Ok (module_info, attach_dependency dep module_info doc_info)
          | None => Ok st
          end
      | None =>
          if is_symbol_macro macroname then
            '(symbol, verbalization) ← symbol_of_macro macroname nodeargd;
            match module_info with
            | Some r =>
                Ok (module_info,
                    update_module
                      (record_symbol (declares macroname) symbol verbalization pos len)
                      r doc_info)
            | None => Ok st
            end
          else Ok st
      end
  | LatexOtherNode _ _ => Raise UnexpectedNodeType
  end.

Definition process : list LatexNode -> span -> walk_state -> result walk_state :=
  call_process process_node.

(** [STeXDocument.create_doc_info] (stexdoc.py, lines 220-330) *)
Definition create_doc_info : result STeXDocument.t :=
  '(nodes, text_len) ← expect FileNotFoundError (get_latex_nodes w (STeXDocument.path self));
  mtime ← expect FileNotFoundError (st_mtime w (STeXDocument.path self));
  let doc_info := DocInfo.mk mtime [] [] in
  st ← process nodes (0, text_len) (None, doc_info);
  Ok (STeXDocument.set_doc_info (Some (snd st)) self).

(** [STeXDocument.get_doc_info] (stexdoc.py, lines 205-209): the DocInfo
    returned and the document after the call *)
Definition get_doc_info : result (DocInfo.t * STeXDocument.t) :=
  self' ← (match STeXDocument._doc_info self with
           | None => create_doc_info
           | Some _ => Ok self
           end);
  doc_info ← expect AssertionError (STeXDocument._doc_info self');
  Ok (doc_info, self').

End Walk.

(* ------------------------------------------------------------------------- *)
(** * The memoised calls (mathhub.py, lines 160-210)                          *)
(* ------------------------------------------------------------------------- *)

(** [get_archive_name] is wrapped in [functools.cache] and
    [normalize_tex_file_ref] in [functools.lru_cache]; [get_manifest] keeps
    the manifest it has read in [self._manifest].  What such a call returns
    depends on the calls made before it, and the analysis of a document makes
    such calls.  In the definitions above a [Repository] carries the name its
    memoised [get_archive_name()] returns.  In this module the tables are part
    of the state instead: the [Repository] objects live in a store, a
    document and the registry hold their addresses, and a call returns its
    result together with the store it leaves. *)
Module Memo.

(** A [Repository] object: its root, its [_manifest] slot, and its entry in
    the table of [functools.cache] for [get_archive_name] ([None] as long as
    no call on the object has returned).  The documents of the archive play
    no part in the analysis of one document. *)
Module Object.
Record t : Type := mk {
  path : Path.t;
  _manifest : option (list (string * string));
  archive_name : option string;
}.

(** the object as the definitions above take it *)
Definition as_repository (self : t) : Repository.t :=
  Repository.mk (path self) (default EmptyString (archive_name self)) (_manifest self) None.
End Object.

(** the positional arguments of a call of [normalize_tex_file_ref] that
    binds: the object, [path], and [directory] when it is passed *)
Definition Call : Type := nat * string * option string.

Record Store : Type := mkStore {
  (** the object at each address *)
  objects : nat -> Object.t;
  (** the table of [lru_cache]: the calls that have returned, with their
      results, the most recently used first *)
  normalize_tex_file_ref_cache : list (Call * option string);
}.

Definition set_object (address : nat) (o : Object.t) (s : Store) : Store :=
  mkStore (fun b => if Nat.eqb b address then o else objects s b)
    (normalize_tex_file_ref_cache s).

(** a computation that reads and changes the store, or raises *)
Definition M (A : Type) : Type := Store -> result (A * Store).

Definition ret {A} (a : A) : M A := fun s => Ok (a, s).

Definition bind {A B} (m : M A) (k : A -> M B) : M B :=
  fun s =>
    match m s with
    | Ok (a, s') => k a s'
    | Raise e => Raise e
    end.

(** a computation that leaves the store alone *)
Definition lift {A} (r : result A) : M A :=
  fun s =>
    match r with
    | Ok a => Ok (a, s)
    | Raise e => Raise e
    end.

#[global] Instance M_bind : MBind M := fun A B k m => bind m k.
#[global] Instance M_ret : MRet M := @ret.

(** [Repository.get_manifest] (mathhub.py, lines 160-164) *)
Definition get_manifest (w : World) (self : nat) : M (list (string * string)) :=
  fun s =>
    let o := objects s self in
    match Object._manifest o with
    | Some mf => Ok (mf, s)
    | None =>
        match read_manifest w (Object.path o) with
        | Some mf =>
            Ok (mf, set_object self
                      (Object.mk (Object.path o) (Some mf) (Object.archive_name o)) s)
        | None => Raise FileNotFoundError
        end
    end.

(** [Repository.get_archive_name] (mathhub.py, lines 201-210) behind
    [functools.cache]: a name in the table is returned as it is; otherwise
    the body runs, and the name it returns goes into the table.  A call that
    raises leaves the table as it was. *)
Definition get_archive_name (w : World) (self : nat) : M string :=
  fun s =>
    let o := objects s self in
    match Object.archive_name o with
    | Some name => Ok (name, s)
    | None =>
        match Path.relative_to (Object.path o) (get_mathhub_path w) with
        | Raise e => Raise e
        | Ok name_guess =>
            let remember (name : string) (s' : Store) :=
              let o' := objects s' self in
              Ok (name, set_object self
                          (Object.mk (Object.path o') (Object._manifest o') (Some name)) s') in
            match get_manifest w self s with
            | Ok (mf, s') => remember (default name_guess (Dict.get "id" mf)) s'
            | Raise FileNotFoundError => remember name_guess s
            | Raise e => Raise e
            end
        end
    end.

(** [maxsize] of the [lru_cache] (mathhub.py, line 166) *)
Definition maxsize : nat := N.to_nat 65536.

Definition is_call (call : Call) (entry : Call * option string) : bool :=
  bool_decide (fst entry = call).

(** A call of [self.normalize_tex_file_ref] with the positional arguments
    [args], through the [lru_cache].  One or two arguments bind: a call in
    the table returns the stored result and becomes the most recently used;
    otherwise the body runs, its result is stored, and beyond [maxsize]
    entries the least recently used goes.  Any other number of arguments
    raises [TypeError]: such a call is not in the table, which holds calls
    that returned, and nothing is stored for it. *)
Definition normalize_tex_file_ref (w : World) (self : nat) (args : list string)
    : M (option string) :=
  fun s =>
    let through_cache (path : string) (directory : option string) :=
      let call : Call := (self, path, directory) in
      let table := normalize_tex_file_ref_cache s in
      match List.find (is_call call) table with
      | Some (_, stored) =>
          Ok (stored,
              mkStore (objects s)
                ((call, stored) :: List.filter (fun entry => negb (is_call call entry)) table))
      | None =>
          match Repository.normalize_tex_file_ref_body w
                  (Object.as_repository (objects s self)) path (default "source" directory) with
          | Ok file => Ok (file, mkStore (objects s) (take maxsize ((call, file) :: table)))
          | Raise e => Raise e
          end
      end in
    match args with
    | [path] => through_cache path None
    | [path; directory] => through_cache path (Some directory)
    | _ => Raise TypeError
    end.

(** An [STeXDocument] object; [archive] is the address of its [Repository]. *)
Module Document.
Record t : Type := mk {
  archive : nat;
  path : Path.t;
  _doc_info : option DocInfo.t;
}.

Definition set_doc_info (o : option DocInfo.t) (self : t) : t :=
  mk (archive self) (path self) o.
End Document.

(** [MathHub.archive_lookup]: the address of the archive of each name *)
Definition Registry : Type := Dict.t nat.

(** [STeXDocument.get_rel_path] *)
Definition get_rel_path (self : Document.t) : M string :=
  fun s =>
    lift (Path.relative_to (Document.path self)
            (Object.path (objects s (Document.archive self)))) s.

(** the loops [for path_option in path_options] of [produce] *)
Fixpoint first_resolved (w : World) (archive : nat) (top_dir lang : string)
    (path_options : list string) : M (option string) :=
  match path_options with
  | [] => mret None
  | path_option :: rest =>
      file ← normalize_tex_file_ref w archive [path_option; top_dir; lang];
      match file with
      | Some f => mret (Some f)
      | None => first_resolved w archive top_dir lang rest
      end
  end.

(** [DependencyProducer.produce] (stexdoc.py, lines 97-169):
    [archive.get_archive_name()] is called where a [Dependency] is built *)
Definition produce (w : World) (self : DependencyProducer.t) (pos len : Z)
    (nodeargd : ParsedArgs.t) (from_archive from_subdir : string) (mh : Registry)
    (valid_range : span) (lang : string) : M (option Dependency.t) :=
  let target_archive := DependencyProducer.target_archive_of self nodeargd in
  match ParsedArgs.get_first_main_arg nodeargd with
  | None => mret None
  | Some main_arg =>
      let top_dir : string := if DependencyProducer.is_lib self then "lib" else "source" in
      let intro_range : span := (pos, pos + len) in
      let dependency name file module_name :=
        Dependency.mk name file module_name (DependencyProducer.is_lib self)
          (DependencyProducer.is_use self) (DependencyProducer.target_no_tex self)
          (Some valid_range) (Some intro_range) in
      match Dict.get (Py.or_else target_archive from_archive) mh with
      | None =>
          mret (Some (dependency (Py.or_else target_archive from_archive) None None))
      | Some archive =>
          if DependencyProducer.references_module self then
            let '(path, module_name) :=
              if Py.contains "?" main_arg then Py.partition "?" main_arg
              else (main_arg, default EmptyString (Py.last1 (Py.split "/" main_arg))) in
            let path_options :=
              (match target_archive with
               | None => [from_subdir +:+ "/" +:+ path;
                          from_subdir +:+ "/" +:+ path +:+ "/" +:+ module_name]
               | Some _ => []
               end) ++ [path; path +:+ "/" +:+ module_name] in
            file ← first_resolved w archive top_dir lang path_options;
            name ← get_archive_name w archive;
            mret (Some (dependency name file (Some module_name)))
          else if DependencyProducer.target_no_tex self then
            name ← get_archive_name w archive;
            mret (Some (dependency name None None))
          else
            let path_options :=
              (match target_archive with
               | None => [from_subdir +:+ "/" +:+ main_arg]
               | Some _ => []
               end) ++ [main_arg] in
            file ← first_resolved w archive top_dir lang path_options;
            name ← get_archive_name w archive;
            mret (Some (dependency name file None))
      end
  end.

Section Walk.
Variables (w : World) (mh : Registry) (self : Document.t).

(** Lines 246-264: the signature file is looked for first, then
    [self.archive.get_archive_name()] is called for the [Dependency] *)
Definition signature_dependency (pos len : Z) (nodeargd : ParsedArgs.t)
    (name : string) : M (option Dependency.t) :=
  match ParsedArgs.from_first_macro_arg nodeargd ≫= (fun params => get_val params "sig") with
  | None => mret None
  | Some sig_val =>
      if negb (Py.truthy sig_val) then mret None
      else
        let file := Document.path self in
        let name_parts := Py.split "." (Path.name file) in
        file_field ←
          lift (if (2 <? length name_parts)%nat then
                  file ← Path.with_name file (Py.join "." (Py.set_last2 sig_val name_parts));
                  Ok (if path_exists w file then Some (Path.as_posix file) else None)
                else Ok None);
        archive_name ← get_archive_name w (Document.archive self);
        mret (Some (Dependency.mk archive_name file_field (Some name) false false false
                      (Some (pos, pos + len)) (Some (pos, pos + len))))
  end.

(** the language tag of the document (lines 270-273) *)
Definition lang_of_document : string :=
  let _parts := Py.split "." (Path.name (Document.path self)) in
  if (2 <? length _parts)%nat then default "*" (Py.last2 _parts) else "*".

Definition for_nodes (step : LatexNode -> span -> walk_state -> M walk_state)
    : list LatexNode -> span -> walk_state -> M walk_state :=
  fix loop (nodes : list LatexNode) (parent_range : span) (st : walk_state) :=
    match nodes with
    | [] => mret st
    | node :: rest =>
        st' ← step node parent_range st;
        loop rest parent_range st'
    end.

Definition call_process (step : LatexNode -> span -> walk_state -> M walk_state)
    (nodes : list LatexNode) (parent_range : span) (st : walk_state) : M walk_state :=
  st' ← for_nodes step nodes parent_range st;
  mret (fst st, snd st').

(** the body of the loop of [process] (lines 229-327); the arguments of
    [dp.produce] are evaluated in their order, [get_archive_name()] before
    [get_rel_path()] *)
Fixpoint process_node (node : LatexNode) (parent_range : span)
    (st : walk_state) {struct node} : M walk_state :=
  let '(module_info, doc_info) := st in
  match node with
  | LatexCommentNode _ _ | LatexCharsNode _ _
  | LatexMathNode _ _ | LatexSpecialsNode _ _ => mret st
  | LatexGroupNode pos len nodelist =>
      call_process process_node nodelist (pos, pos + len) st
  | LatexEnvironmentNode pos len environmentname nodeargd nodelist =>
      if String.eqb environmentname "smodule" then
        name ← lift (verbatim_inner (ParsedArgs.argnlist nodeargd !! 1%nat));
        let name :=
          match module_info with
          | Some r => ref_name r +:+ "/" +:+ name
          | None => name
          end in
        let '(new_ref, doc_info) :=
          attach_module (ModuleInfo.mk name [] [] []) module_info doc_info in
        sig_dep ← signature_dependency pos len nodeargd name;
        let doc_info :=
          match sig_dep with
          | Some dep => attach_dependency dep (Some new_ref) doc_info
          | None => doc_info
          end in
        call_process process_node nodelist (pos, pos + len) (Some new_ref, doc_info)
      else
        call_process process_node nodelist (pos, pos + len) st
  | LatexMacroNode pos len macroname nodeargd =>
      match Dict.get macroname DEPENDENCY_PRODUCER_BY_MACRONAME with
      | Some dp =>
          let lang := lang_of_document in
          from_archive ← get_archive_name w (Document.archive self);
          rel_path ← get_rel_path self;
          dep ← produce w dp pos len nodeargd from_archive
                  (Py.join "/" (Py.tail (Py.split "/" rel_path)))
                  mh parent_range lang;
          match dep with
          | Some dep => mret (module_info, attach_dependency dep module_info doc_info)
          | None => mret st
          end
      | None =>
          if is_symbol_macro macroname then
            '(symbol, verbalization) ← lift (symbol_of_macro macroname nodeargd);
            match module_info with
            | Some r =>
                mret (module_info,
                      update_module
                        (record_symbol (declares macroname) symbol verbalization pos len)
                        r doc_info)
            | None => mret st
            end
          else mret st
      end
  | LatexOtherNode _ _ => lift (Raise UnexpectedNodeType)
  end.

Definition process : list LatexNode -> span -> walk_state -> M walk_state :=
  call_process process_node.

(** [STeXDocument.create_doc_info] (stexdoc.py, lines 220-330) *)
Definition create_doc_info : M Document.t :=
  '(nodes, text_len) ← lift (expect FileNotFoundError (get_latex_nodes w (Document.path self)));
  mtime ← lift (expect FileNotFoundError (st_mtime w (Document.path self)));
  let doc_info := DocInfo.mk mtime [] [] in
  st ← process nodes (0, text_len) (None, doc_info);
  mret (Document.set_doc_info (Some (snd st)) self).

End Walk.

End Memo.

(* ------------------------------------------------------------------------- *)
(** * Notions used in the statements                                          *)
(* ------------------------------------------------------------------------- *)

(** The module tree of a document without its dependencies and symbols. *)
Inductive Skeleton : Type :=
| SkeletonNode (name : string) (subs : list Skeleton).

Fixpoint skeleton (m : ModuleInfo.t) : Skeleton :=
  SkeletonNode (ModuleInfo.name m) (List.map skeleton (ModuleInfo.modules m)).

(** No [smodule] environment occurs in the node, at any depth. *)
Fixpoint module_free (node : LatexNode) : bool :=
  match node with
  | LatexGroupNode _ _ nodelist => forallb module_free nodelist
  | LatexEnvironmentNode _ _ environmentname _ nodelist =>
      negb (String.eqb environmentname "smodule") && forallb module_free nodelist
  | _ => true
  end.

(** what the walk keeps on nodes without module environments: the current
    module and the tree of module names *)
Definition keeps_modules (st st' : walk_state) : Prop :=
  fst st' = fst st
  /\ List.map skeleton (DocInfo.modules (snd st'))
     = List.map skeleton (DocInfo.modules (snd st)).

(** The object model behind the index paths: an update that keeps the name
    of a module and only appends to its submodules; a tree in which every
    path of another tree still leads to a module of the same name; a walk
    state whose current module is found in the document under its name. *)
Definition grows (f : ModuleInfo.t -> ModuleInfo.t) : Prop :=
  forall m, ModuleInfo.name (f m) = ModuleInfo.name m
            /\ exists extra, ModuleInfo.modules (f m) = ModuleInfo.modules m ++ extra.

Definition tree_extends (ms ms' : list ModuleInfo.t) : Prop :=
  forall p m, module_at p ms = Some m ->
              exists m', module_at p ms' = Some m' /\ ModuleInfo.name m' = ModuleInfo.name m.

Definition ref_valid (st : walk_state) : Prop :=
  match fst st with
  | None => True
  | Some r =>
      exists m, module_at (ref_path r) (DocInfo.modules (snd st)) = Some m
                /\ ModuleInfo.name m = ref_name r
  end.

Definition refs_kept (st st' : walk_state) : Prop :=
  tree_extends (DocInfo.modules (snd st)) (DocInfo.modules (snd st'))
  /\ (ref_valid st -> ref_valid st').

(** The fully recursive collection of dependencies, which
    [flattened_dependencies] is not. *)
Fixpoint all_dependencies (m : ModuleInfo.t) : list Dependency.t :=
  ModuleInfo.dependencies m ++ flat_map all_dependencies (ModuleInfo.modules m).

(** [m] with the submodules of each of its immediate submodules replaced *)
Definition regraft (g : ModuleInfo.t -> list ModuleInfo.t) (m : ModuleInfo.t)
    : ModuleInfo.t :=
  ModuleInfo.mk (ModuleInfo.name m) (ModuleInfo.dependencies m) (ModuleInfo.symbols m)
    (List.map
       (fun c => ModuleInfo.mk (ModuleInfo.name c) (ModuleInfo.dependencies c)
                   (ModuleInfo.symbols c) (g c))
       (ModuleInfo.modules m)).

(** A run of symbol-macro hits on the symbol [symbol] in one module: each
    hit tells whether its macro is [symdef] or [symdecl], and gives its
    verbalization, position and length. *)
Definition symbol_hit : Type := bool * string * Z * Z.

Definition record_hits (symbol : string) (hits : list symbol_hit)
    (m : ModuleInfo.t) : ModuleInfo.t :=
  fold_left
    (fun m (hit : symbol_hit) =>
       let '(declares, verbalization, pos, len) := hit in
       record_symbol declares symbol verbalization pos len m)
    hits m.

Definition verbalization_of (hit : symbol_hit) : string * Z * Z :=
  let '(_, verbalization, pos, len) := hit in (verbalization, pos, pos + len).

Definition span_if_declaring (hit : symbol_hit) : option span :=
  let '(declares, _, pos, len) := hit in
  if declares then Some (pos, pos + len) else None.

(** ** The walk as a sequence of updates

    [reach st st'] holds when [st'] is obtained from the walk state [st] by
    the updates the loop body performs: a dependency a producer has returned
    is attached, a hit of a symbol macro is recorded in the current module, a
    new module is attached and becomes current, the signature dependency of
    the current module is attached, and, at the return from a call of
    [process], the current module of the caller is current again. *)
Inductive reach (w : World) (mh : MathHub.t) (self : STeXDocument.t)
    : walk_state -> walk_state -> Prop :=
| reach_here (st : walk_state) : reach w mh self st st
| reach_then (st1 st2 st3 : walk_state) :
    reach w mh self st1 st2 -> reach w mh self st2 st3 -> reach w mh self st1 st3
| reach_return (st st' : walk_state) :
    reach w mh self st st' -> reach w mh self st (fst st, snd st')
| reach_dependency (module_info : option ModRef) (doc_info : DocInfo.t)
    (dp : DependencyProducer.t) (pos len : Z) (nodeargd : ParsedArgs.t)
    (from_subdir : string) (parent_range : span) (dep : Dependency.t) :
    DependencyProducer.produce w dp pos len nodeargd
      (ArchiveRef.get_archive_name (STeXDocument.archive self)) from_subdir mh
      parent_range (lang_of_document self) = Ok (Some dep) ->
    reach w mh self (module_info, doc_info)
      (module_info, attach_dependency dep module_info doc_info)
| reach_symbol (r : ModRef) (doc_info : DocInfo.t) (declares : bool)
    (symbol verbalization : string) (pos len : Z) :
    reach w mh self (Some r, doc_info)
      (Some r,
       update_module (record_symbol declares symbol verbalization pos len) r doc_info)
| reach_module (module_info : option ModRef) (doc_info : DocInfo.t) (local : string) :
    let name := match module_info with
                | Some r => ref_name r +:+ "/" +:+ local
                | None => local
                end in
    let attached := attach_module (ModuleInfo.mk name [] [] []) module_info doc_info in
    reach w mh self (module_info, doc_info) (Some (fst attached), snd attached)
| reach_signature (r : ModRef) (doc_info : DocInfo.t) (pos len : Z)
    (nodeargd : ParsedArgs.t) (dep : Dependency.t) :
    signature_dependency w self pos len nodeargd (ref_name r) = Ok (Some dep) ->
    reach w mh self (Some r, doc_info)
      (Some r, attach_dependency dep (Some r) doc_info).

(** a property of every module of a module list, at every depth *)
Definition every_module (Q : ModuleInfo.t -> Prop) (ms : list ModuleInfo.t) : Prop :=
  Forall Q (flat_map ModuleInfo.iter_modules ms).

(** a property of a module that reads its submodules through their names
    only *)
Definition by_child_names (Q : ModuleInfo.t -> Prop) : Prop :=
  forall name deps syms subs subs',
    List.map ModuleInfo.name subs' = List.map ModuleInfo.name subs ->
    Q (ModuleInfo.mk name deps syms subs) -> Q (ModuleInfo.mk name deps syms subs').

(** the symbols of a module have pairwise different names *)
Definition distinct_symbols (m : ModuleInfo.t) : Prop :=
  NoDup (List.map Symbol.name (ModuleInfo.symbols m)).

(** a Symbol has a verbalization, and its declaration span, when set, is
    the span of its first verbalization *)
Definition symbol_grounded (s : Symbol.t) : Prop :=
  match Symbol.verbalizations s with
  | [] => False
  | (_, start, stop) :: _ =>
      Symbol.decl_def s = None \/ Symbol.decl_def s = Some (start, stop)
  end.

(** the name of every immediate submodule is the name of the module, a
    slash, and a local name *)
Definition qualifies_submodules (m : ModuleInfo.t) : Prop :=
  Forall (fun n => exists local, n = ModuleInfo.name m +:+ "/" +:+ local)
    (List.map ModuleInfo.name (ModuleInfo.modules m)).

(** both ranges of a dependency are set *)
Definition ranged (dep : Dependency.t) : Prop :=
  is_Some (Dependency.valid_range dep) /\ is_Some (Dependency.intro_range dep).

(** Nodes the walk passes over: text, comments, math, specials, and groups
    and environments other than [smodule] that hold such nodes only. *)
Fixpoint inert (node : LatexNode) : bool :=
  match node with
  | LatexCommentNode _ _ | LatexCharsNode _ _
  | LatexMathNode _ _ | LatexSpecialsNode _ _ => true
  | LatexGroupNode _ _ nodelist => forallb inert nodelist
  | LatexEnvironmentNode _ _ environmentname _ nodelist =>
      negb (String.eqb environmentname "smodule") && forallb inert nodelist
  | LatexMacroNode _ _ _ _ | LatexOtherNode _ _ => false
  end.

#[global] Instance In_string_dec (k : string) (l : list string) : Decision (In k l) :=
  in_dec String.string_dec k l.

(** the keys under which [Repository.update] files the given files: their
    paths relative to the root of the archive *)
Definition rel_paths (base : Path.t) (files : list Path.t) : list string :=
  flat_map (fun file => match Path.relative_to file base with
                        | Ok rel_path => [rel_path]
                        | Raise _ => []
                        end) files.

(** how [Repository.update] leaves the document kept under a key: a
    document that was there has gone through the staleness check, a document
    that was not is a new one for a file with that relative path *)
Definition refreshed (w : World) (self : Repository.t) (files : list Path.t)
    (key : string) (before : option STeXDocument.t) (after : STeXDocument.t) : Prop :=
  match before with
  | Some doc => STeXDocument.delete_doc_info_if_outdated w doc = Ok after
  | None =>
      exists file, In file files
                   /\ Path.relative_to file (Repository.path self) = Ok key
                   /\ after = STeXDocument.init w (Repository.ref self) file
  end.

(** every archive of a registry is kept under its own name *)
Definition keyed_by_name (lookup : Dict.t Repository.t) : Prop :=
  Forall (fun kr => Repository.get_archive_name (snd kr) = fst kr) lookup.

(** ** Sample worlds and documents *)

(** ** Stores

    [extends s s']: the store [s'] holds the objects of [s], each with its
    root, and with the manifest and the memoised name it has in [s], if any.
    [stable m]: when the computation [m] returns, it leaves a store that
    extends the one it started from, and from every store that extends the
    one it left it returns the same result and changes nothing. *)
Definition extends (s s' : Memo.Store) : Prop :=
  forall address,
    Memo.Object.path (Memo.objects s' address) = Memo.Object.path (Memo.objects s address)
    /\ (forall mf, Memo.Object._manifest (Memo.objects s address) = Some mf ->
                   Memo.Object._manifest (Memo.objects s' address) = Some mf)
    /\ (forall name, Memo.Object.archive_name (Memo.objects s address) = Some name ->
                     Memo.Object.archive_name (Memo.objects s' address) = Some name).

Definition stable {A} (m : Memo.M A) : Prop :=
  forall s a s',
    m s = Ok (a, s') ->
    extends s s' /\ forall s'', extends s' s'' -> m s'' = Ok (a, s'').

(** ** The objects of a store as the analysis without tables takes them

    [names_known s mh doc]: the name of the archive of the document and of
    every archive of the registry is memoised in [s]. *)
Definition view_hub (s : Memo.Store) (mh : Memo.Registry) : MathHub.t :=
  MathHub.mk
    (List.map (fun entry => (fst entry, Memo.Object.as_repository (Memo.objects s (snd entry))))
       mh).

Definition view_document (s : Memo.Store) (doc : Memo.Document.t) : STeXDocument.t :=
  STeXDocument.mk
    (Repository.ref (Memo.Object.as_repository (Memo.objects s (Memo.Document.archive doc))))
    (Memo.Document.path doc) (Memo.Document._doc_info doc).

Definition names_known (s : Memo.Store) (mh : Memo.Registry) (doc : Memo.Document.t) : Prop :=
  is_Some (Memo.Object.archive_name (Memo.objects s (Memo.Document.archive doc)))
  /\ Forall (fun entry => is_Some (Memo.Object.archive_name (Memo.objects s (snd entry)))) mh.

Module Sample.

(** a hub at [/mh] in which no file exists *)
Definition bare : World := {|
  is_file := fun _ => false;
  path_exists := fun _ => false;
  glob := fun _ _ => [];
  rglob := fun _ _ => [];
  resolve := fun p => p;
  st_mtime := fun _ => None;
  get_latex_nodes := fun _ => None;
  read_manifest := fun _ => None;
  get_mathhub_path := ["mh"];
|}.

Definition path_eqb (p q : Path.t) : bool := bool_decide (p = q).

(** [bare] with one more file: its modification time and its parsed tree *)
Definition with_document (w : World) (p : Path.t) (mtime : Z)
    (nodes : list LatexNode) (text_len : Z) : World := {|
  is_file := fun q => path_eqb q p || is_file w q;
  path_exists := fun q => path_eqb q p || path_exists w q;
  glob := glob w;
  rglob := rglob w;
  resolve := resolve w;
  st_mtime := fun q => if path_eqb q p then Some mtime else st_mtime w q;
  get_latex_nodes := fun q => if path_eqb q p then Some (nodes, text_len) else get_latex_nodes w q;
  read_manifest := read_manifest w;
  get_mathhub_path := get_mathhub_path w;
|}.

(** the archive [a] at [/mh/a] *)
Definition archive_a : Repository.t := Repository.mk ["mh"; "a"] "a" None None.

Definition hub_a : MathHub.t := MathHub.mk [("a", archive_a)].

Definition document (name : string) : STeXDocument.t :=
  STeXDocument.mk (Repository.ref archive_a) ["mh"; "a"; "source"; name] None.

(** [\macro{text}] at [pos]: one mandatory argument *)
Definition braced (text : string) : option Arg.t :=
  Some (Arg.mk ("{" +:+ text +:+ "}") []).

Definition macro1 (pos : Z) (macroname text : string) : LatexNode :=
  LatexMacroNode pos (Z.of_nat (String.length macroname + String.length text) + 3)
    macroname
    (ParsedArgs.mk [None; braced text] None None (Some text)).

(** [\begin{smodule}[params]{name} body \end{smodule}] *)
Definition keyvals_text (params : OptArgKeyVals) : string :=
  Py.join "," (List.map (fun kv => fst kv +:+ "=" +:+ snd kv) params).

Definition smodule (pos len : Z) (params : option OptArgKeyVals) (name : string)
    (body : list LatexNode) : LatexNode :=
  LatexEnvironmentNode pos len "smodule"
    (ParsedArgs.mk
       [(fun kv => Arg.mk ("[" +:+ keyvals_text kv +:+ "]") kv) <$> params; braced name]
       (keyvals_text <$> params) params (Some name))
    body.

(** a hub in which the repository root [/mh/a] is found, with the one
    document [/mh/a/source/x.tex], last modified at time 5 *)
Definition hub_with_a : World := {|
  is_file := fun p => path_eqb p ["mh"; "a"; "source"; "x.tex"];
  path_exists := fun p => path_eqb p ["mh"; "a"; "source"; "x.tex"];
  glob := fun dir pattern =>
    if path_eqb dir ["mh"] && String.eqb pattern "**/.git"
    then [["mh"; "a"; ".git"]] else [];
  rglob := fun dir pattern =>
    if path_eqb dir ["mh"; "a"; "source"] && String.eqb pattern "**/*.tex"
    then [["mh"; "a"; "source"; "x.tex"]] else [];
  resolve := fun p => p;
  st_mtime := fun p => if path_eqb p ["mh"; "a"; "source"; "x.tex"] then Some 5 else None;
  get_latex_nodes := fun _ => None;
  read_manifest := fun _ => None;
  get_mathhub_path := ["mh"];
|}.

End Sample.

(** a document with a module, a submodule, symbols, a signature, text and
    a dependency on a picture *)
Module Demo.

Definition doc : STeXDocument.t := Sample.document "m.en.tex".

Definition nodes : list LatexNode :=
  [ LatexCommentNode 0 5;
    Sample.smodule 5 80 (Some [("sig", "de")]) "m"
      [ Sample.macro1 20 "symdecl" "x";
        LatexGroupNode 33 20 [Sample.macro1 34 "definame" "x"; LatexMathNode 47 5];
        Sample.smodule 55 25 None "sub" [Sample.macro1 65 "Definame" "y"] ];
    Sample.macro1 86 "mhgraphics" "pic";
    LatexCharsNode 103 7 ].

Definition world : World :=
  Sample.with_document Sample.bare (STeXDocument.path doc) 7 nodes 110.

End Demo.

(** the document of [Demo] in a hub whose archive at [/mh/a] has a manifest
    with the id [alpha]: the archive object is at address 0, the registry
    knows it under its id, and no call has been memoised *)
Module MemoDemo.

Definition world : World := {|
  is_file := is_file Demo.world;
  path_exists := path_exists Demo.world;
  glob := glob Demo.world;
  rglob := rglob Demo.world;
  resolve := resolve Demo.world;
  st_mtime := st_mtime Demo.world;
  get_latex_nodes := get_latex_nodes Demo.world;
  read_manifest := fun root =>
    if Sample.path_eqb root ["mh"; "a"] then Some [("id", "alpha")] else None;
  get_mathhub_path := get_mathhub_path Demo.world;
|}.

Definition cold : Memo.Store :=
  Memo.mkStore
    (fun address =>
       if Nat.eqb address 0 then Memo.Object.mk ["mh"; "a"] None None
       else Memo.Object.mk [] None None)
    [].

Definition hub : Memo.Registry := [("alpha", 0%nat)].

Definition doc : Memo.Document.t :=
  Memo.Document.mk 0 (STeXDocument.path Demo.doc) None.

End MemoDemo.

(* ------------------------------------------------------------------------- *)
(** * Flattening of dependencies                                              *)
(* ------------------------------------------------------------------------- *)

Lemma flat_map_regraft (g : ModuleInfo.t -> list ModuleInfo.t) (ms : list ModuleInfo.t) :
  flat_map ModuleInfo.dependencies
    (List.map (fun c => ModuleInfo.mk (ModuleInfo.name c) (ModuleInfo.dependencies c)
                          (ModuleInfo.symbols c) (g c)) ms)
  = flat_map ModuleInfo.dependencies ms.
Proof.
  induction ms as [|c ms IH]; simpl; [reflexivity|].
  now rewrite IH.
Qed.

(** the dependency of a grandchild is left out by the flattening *)
Example flattening_skips_grandchildren :
  let dep name := Dependency.mk name None None false false false None None in
  let leaf := ModuleInfo.mk "A/B/C" [dep "deep"] [] [] in
  let mid := ModuleInfo.mk "A/B" [dep "mid"] [] [leaf] in
  let top := ModuleInfo.mk "A" [dep "own"] [] [mid] in
  ModuleInfo.flattened_dependencies top = [dep "own"; dep "mid"]
  /\ all_dependencies top = [dep "own"; dep "mid"; dep "deep"]
  /\ DocInfo.flattened_dependencies (DocInfo.mk 0 [] [top]) = [dep "own"].
Proof. repeat split. Qed.

(** C8. [flattened_dependencies] of a module yields its own dependencies and
    then the own dependencies of each immediate submodule, in order; for a
    document, its own dependencies and then the own dependencies of each
    top-level module.  Nothing below that level takes part: replacing the
    submodules of every immediate submodule, by whatever, leaves the result
    as it is, so the flattening is one level deep and differs from the fully
    recursive collection. *)
Theorem flattened_dependencies_one_level :
  (forall m : ModuleInfo.t,
      ModuleInfo.flattened_dependencies m
      = ModuleInfo.dependencies m
        ++ concat (List.map ModuleInfo.dependencies (ModuleInfo.modules m)))
  /\ (forall d : DocInfo.t,
      DocInfo.flattened_dependencies d
      = DocInfo.dependencies d
        ++ concat (List.map ModuleInfo.dependencies (DocInfo.modules d)))
  /\ (forall (g : ModuleInfo.t -> list ModuleInfo.t) (m : ModuleInfo.t),
      ModuleInfo.flattened_dependencies (regraft g m)
      = ModuleInfo.flattened_dependencies m)
  /\ (forall (g : ModuleInfo.t -> list ModuleInfo.t) (d : DocInfo.t),
      DocInfo.flattened_dependencies
        (DocInfo.mk (DocInfo.last_modified d) (DocInfo.dependencies d)
           (List.map (regraft g) (DocInfo.modules d)))
      = DocInfo.flattened_dependencies d)
  /\ (exists m : ModuleInfo.t,
      ModuleInfo.flattened_dependencies m <> all_dependencies m).
Proof.
  split; [|split; [|split; [|split]]].
  - intros m. unfold ModuleInfo.flattened_dependencies.
    now rewrite flat_map_concat_map.
  - intros d. unfold DocInfo.flattened_dependencies.
    now rewrite flat_map_concat_map.
  - intros g m. unfold ModuleInfo.flattened_dependencies, regraft; simpl.
    now rewrite flat_map_regraft.
  - intros g d. unfold DocInfo.flattened_dependencies; simpl.
    f_equal. induction (DocInfo.modules d) as [|c ms IH]; simpl; [reflexivity|].
    now rewrite IH.
  - exists (ModuleInfo.mk "A" [] []
              [ModuleInfo.mk "A/B" [] []
                 [ModuleInfo.mk "A/B/C"
                    [Dependency.mk "deep" None None false false false None None] [] []]]).
    discriminate.
Qed.

(* ------------------------------------------------------------------------- *)
(** * The cache slot of a document                                            *)
(* ------------------------------------------------------------------------- *)

Lemma delete_doc_info_if_outdated_empty (w : World) (doc : STeXDocument.t) :
  STeXDocument._doc_info doc = None ->
  STeXDocument.delete_doc_info_if_outdated w doc = Ok doc.
Proof. intros H. unfold STeXDocument.delete_doc_info_if_outdated. now rewrite H. Qed.

Lemma delete_doc_info_if_outdated_cached (w : World) (doc : STeXDocument.t)
    (doc_info : DocInfo.t) (mtime : Z) :
  STeXDocument._doc_info doc = Some doc_info ->
  st_mtime w (STeXDocument.path doc) = Some mtime ->
  STeXDocument.delete_doc_info_if_outdated w doc
  = Ok (if DocInfo.last_modified doc_info <? mtime
        then STeXDocument.set_doc_info None doc else doc).
Proof.
  intros Hc Hm. unfold STeXDocument.delete_doc_info_if_outdated.
  rewrite Hc, Hm. simpl. now destruct (_ <? _).
Qed.

(** C6. On a document whose file has the modification time [mtime],
    [delete_doc_info_if_outdated] returns normally; the document keeps its
    archive and its path; the cache slot is emptied exactly when it held a
    DocInfo whose timestamp is strictly below [mtime], and is left as it was
    in every other case (in particular when the two times are equal). *)
Theorem delete_doc_info_if_outdated_spec (w : World) (doc : STeXDocument.t) (mtime : Z) :
  st_mtime w (STeXDocument.path doc) = Some mtime ->
  exists doc' : STeXDocument.t,
    STeXDocument.delete_doc_info_if_outdated w doc = Ok doc'
    /\ STeXDocument.archive doc' = STeXDocument.archive doc
    /\ STeXDocument.path doc' = STeXDocument.path doc
    /\ ((STeXDocument._doc_info doc <> None /\ STeXDocument._doc_info doc' = None)
        <-> (exists doc_info, STeXDocument._doc_info doc = Some doc_info
                              /\ DocInfo.last_modified doc_info < mtime))
    /\ ((forall doc_info, STeXDocument._doc_info doc = Some doc_info ->
                          mtime <= DocInfo.last_modified doc_info) ->
        doc' = doc).
Proof.
  intros Hm. destruct (STeXDocument._doc_info doc) as [doc_info|] eqn:Hc.
  - rewrite (delete_doc_info_if_outdated_cached w doc doc_info mtime Hc Hm).
    destruct (Z.ltb_spec (DocInfo.last_modified doc_info) mtime) as [Hlt|Hge].
    + exists (STeXDocument.set_doc_info None doc).
      split; [reflexivity|]. split; [reflexivity|]. split; [reflexivity|].
      split; [split|].
      * intros _. now exists doc_info.
      * intros _. split; [discriminate|reflexivity].
      * intros Hall. specialize (Hall doc_info eq_refl). lia.
    + exists doc.
      split; [reflexivity|]. split; [reflexivity|]. split; [reflexivity|].
      split; [split|].
      * intros [_ Hn]. congruence.
      * intros (di & Hdi & Hlt). injection Hdi as <-. lia.
      * reflexivity.
  - rewrite (delete_doc_info_if_outdated_empty w doc Hc).
    exists doc.
    split; [reflexivity|]. split; [reflexivity|]. split; [reflexivity|].
    split; [split|].
    + intros [Hn _]. congruence.
    + intros (di & Hdi & _). congruence.
    + reflexivity.
Qed.

Lemma delete_doc_info_if_outdated_spec_witness :
  let w := Sample.with_document Sample.bare ["mh"; "a"; "source"; "set.de.tex"] 10 [] 0 in
  let doc := STeXDocument.set_doc_info (Some (DocInfo.mk 5 [] [])) (Sample.document "set.de.tex") in
  exists doc' : STeXDocument.t,
    STeXDocument.delete_doc_info_if_outdated w doc = Ok doc'
    /\ STeXDocument.archive doc' = STeXDocument.archive doc
    /\ STeXDocument.path doc' = STeXDocument.path doc
    /\ ((STeXDocument._doc_info doc <> None /\ STeXDocument._doc_info doc' = None)
        <-> (exists doc_info, STeXDocument._doc_info doc = Some doc_info
                              /\ DocInfo.last_modified doc_info < 10))
    /\ ((forall doc_info, STeXDocument._doc_info doc = Some doc_info ->
                          10 <= DocInfo.last_modified doc_info) ->
        doc' = doc).
Proof.
  intros w doc. apply (delete_doc_info_if_outdated_spec w doc 10). reflexivity.
Defined.

(** C10. When the cache slot of a document holds a DocInfo, [get_doc_info]
    returns that DocInfo and leaves the document, its cache slot included, as
    it is, whatever the modification time of the file; on the same document a
    file newer than the stored timestamp makes
    [delete_doc_info_if_outdated], and only it, empty the slot. *)
Theorem get_doc_info_returns_cache (w : World) (mh : MathHub.t)
    (doc : STeXDocument.t) (doc_info : DocInfo.t) :
  STeXDocument._doc_info doc = Some doc_info ->
  get_doc_info w mh doc = Ok (doc_info, doc)
  /\ (forall mtime : Z,
        st_mtime w (STeXDocument.path doc) = Some mtime ->
        DocInfo.last_modified doc_info < mtime ->
        STeXDocument.delete_doc_info_if_outdated w doc
        = Ok (STeXDocument.set_doc_info None doc)).
Proof.
  intros Hc. split.
  - unfold get_doc_info. rewrite Hc. simpl. now rewrite Hc.
  - intros mtime Hm Hlt.
    rewrite (delete_doc_info_if_outdated_cached w doc doc_info mtime Hc Hm).
    now apply Z.ltb_lt in Hlt as ->.
Qed.

Lemma get_doc_info_returns_cache_witness :
  let w := Sample.with_document Sample.bare ["mh"; "a"; "source"; "set.de.tex"] 10 [] 0 in
  let stale := DocInfo.mk 5 [] [] in
  let doc := STeXDocument.set_doc_info (Some stale) (Sample.document "set.de.tex") in
  get_doc_info w Sample.hub_a doc = Ok (stale, doc)
  /\ (forall mtime : Z,
        st_mtime w (STeXDocument.path doc) = Some mtime ->
        DocInfo.last_modified stale < mtime ->
        STeXDocument.delete_doc_info_if_outdated w doc
        = Ok (STeXDocument.set_doc_info None doc)).
Proof.
  intros w stale doc.
  apply (get_doc_info_returns_cache w Sample.hub_a doc stale). reflexivity.
Defined.

(* ------------------------------------------------------------------------- *)
(** * Dependency producers                                                    *)
(* ------------------------------------------------------------------------- *)

(** [produce] hands three arguments to a normalizer that takes two: every
    candidate list with a first element raises. *)
Lemma first_resolved_raises (w : World) (archive : Repository.t)
    (top_dir lang path_option : string) (rest : list string) :
  DependencyProducer.first_resolved w archive top_dir lang (path_option :: rest)
  = Raise TypeError.
Proof. reflexivity. Qed.


(** A producer that resolves a file ([references_module], or a plain file
    reference that is not [target_no_tex]) raises [TypeError] on every
    invocation with a main argument whose archive is present, whatever the
    files of that archive. *)
Lemma produce_present_archive_raises (w : World) (dp : DependencyProducer.t)
    (pos len : Z) (nodeargd : ParsedArgs.t) (from_archive from_subdir : string)
    (mh : MathHub.t) (valid_range : span) (lang main_arg : string)
    (archive : Repository.t) :
  ParsedArgs.get_first_main_arg nodeargd = Some main_arg ->
  MathHub.get_archive mh
    (Py.or_else (DependencyProducer.target_archive_of dp nodeargd) from_archive)
  = Some archive ->
  DependencyProducer.references_module dp || negb (DependencyProducer.target_no_tex dp) = true ->
  DependencyProducer.produce w dp pos len nodeargd from_archive from_subdir mh
    valid_range lang = Raise TypeError.
Proof.
  intros Hmain Harch Hkind. unfold DependencyProducer.produce.
  rewrite Hmain, Harch.
  destruct (DependencyProducer.references_module dp).
  - destruct (if Py.contains "?" main_arg then _ else _) as [path module_name].
    now destruct (DependencyProducer.target_archive_of dp nodeargd).
  - simpl in Hkind. apply negb_true_iff in Hkind. rewrite Hkind.
    now destruct (DependencyProducer.target_archive_of dp nodeargd).
Qed.

(** A [target_no_tex] producer of plain files returns the archive-only
    dependency without asking the normalizer. *)
Lemma produce_present_archive_no_tex (w : World) (dp : DependencyProducer.t)
    (pos len : Z) (nodeargd : ParsedArgs.t) (from_archive from_subdir : string)
    (mh : MathHub.t) (valid_range : span) (lang main_arg : string)
    (archive : Repository.t) :
  ParsedArgs.get_first_main_arg nodeargd = Some main_arg ->
  MathHub.get_archive mh
    (Py.or_else (DependencyProducer.target_archive_of dp nodeargd) from_archive)
  = Some archive ->
  DependencyProducer.references_module dp = false ->
  DependencyProducer.target_no_tex dp = true ->
  DependencyProducer.produce w dp pos len nodeargd from_archive from_subdir mh
    valid_range lang
  = Ok (Some (Dependency.mk (Repository.get_archive_name archive) None None
                (DependencyProducer.is_lib dp) (DependencyProducer.is_use dp) true
                (Some valid_range) (Some (pos, pos + len)))).
Proof.
  intros Hmain Harch Hr Hn. unfold DependencyProducer.produce.
  now rewrite Hmain, Harch, Hr, Hn.
Qed.

(** C1. The invocation [\importmodule{mod}] in a document of the archive
    [a], which is present in the hub and holds no file at all: [produce]
    raises [TypeError] where a dependency on [a] without a file is due, and so
    does the analysis of a document that contains the invocation. *)
Theorem produce_unresolvable_reference_raises :
  let node := Sample.macro1 0 "importmodule" "mod" in
  let doc := Sample.document "vectors.en.tex" in
  let w := Sample.with_document Sample.bare (STeXDocument.path doc) 7 [node] 18 in
  MathHub.get_archive Sample.hub_a "a" = Some Sample.archive_a
  /\ (exists dp,
        Dict.get "importmodule" DEPENDENCY_PRODUCER_BY_MACRONAME = Some dp
        /\ DependencyProducer.produce w dp 0 18
             (ParsedArgs.mk [None; Sample.braced "mod"] None None (Some "mod"))
             "a" "" Sample.hub_a (0, 18) "en"
           = Raise TypeError)
  /\ create_doc_info w Sample.hub_a doc = Raise TypeError.
Proof.
  split; [reflexivity|]. split; [|reflexivity].
  eexists. split; reflexivity.
Qed.

(* ------------------------------------------------------------------------- *)
(** * The hub registry                                                        *)
(* ------------------------------------------------------------------------- *)

(** once the dictionary has another size than at the start of the
    iteration, the request for the next value raises *)
Lemma update_sweep_size_changed (w : World) (used : nat)
    (todo : list (string * Repository.t)) (still_needed : list string)
    (lookup : Dict.t Repository.t) :
  length lookup <> used ->
  MathHub.update_sweep w used todo still_needed lookup = Raise RuntimeError.
Proof.
  intros H. apply Nat.eqb_neq in H.
  destruct todo; simpl; now rewrite H.
Qed.

Lemma dict_del_shrinks {V : Type} (k : string) (d : Dict.t V) :
  Dict.mem k d = true -> (length (Dict.del k d) < length d)%nat.
Proof.
  unfold Dict.mem, Dict.del. induction d as [|[k' v] d IH]; simpl; [discriminate|].
  destruct (String.eqb k' k); simpl.
  - intros _. pose proof (List.filter_length_le (fun kv => negb (String.eqb (fst kv) k)) d).
    lia.
  - intros H. specialize (IH H). lia.
Qed.

Lemma dict_set_fresh {V : Type} (k : string) (v : V) (d : Dict.t V) :
  Dict.mem k d = false -> Dict.set k v d = d ++ [(k, v)].
Proof.
  unfold Dict.mem. induction d as [|[k' v'] d IH]; simpl; [reflexivity|].
  destruct (String.eqb k' k); simpl; [discriminate|].
  intros H. now rewrite IH.
Qed.

(** the first loop only appends entries *)
Lemma update_discover_extends (w : World) (roots : list Path.t) :
  forall still_needed lookup still_needed' lookup',
    MathHub.update_discover w roots still_needed lookup = Ok (still_needed', lookup') ->
    exists extra, lookup' = lookup ++ extra.
Proof.
  induction roots as [|root roots IH]; intros still_needed lookup still_needed' lookup' H;
    simpl in H.
  - injection H as <- <-. exists []. now rewrite app_nil_r.
  - destruct (Repository.discover w root) as [repo|]; [|discriminate]. simpl in H.
    apply IH in H as [extra ->].
    destruct (Dict.mem (Repository.get_archive_name repo) lookup) eqn:Hmem.
    + now exists extra.
    + rewrite (dict_set_fresh _ _ _ Hmem), <- app_assoc. now eexists.
Qed.

(** The second loop does not return once an entry still to be visited has
    a name that is no longer needed: it raises at that entry ([KeyError]) or
    at the request for the entry after it ([RuntimeError]), unless the update
    of an earlier archive has raised before. *)
Lemma update_sweep_stale_fails (w : World) (used : nat) (still_needed : list string)
    (todo : list (string * Repository.t)) :
  forall lookup,
    Exists (fun kr => Repository.get_archive_name (snd kr) ∉ still_needed) todo ->
    forall lookup', MathHub.update_sweep w used todo still_needed lookup <> Ok lookup'.
Proof.
  induction todo as [|[key repo] todo IH]; intros lookup Hstale lookup'.
  - inversion Hstale.
  - simpl. destruct (Nat.eqb (length lookup) used) eqn:Hsize; simpl; [|discriminate].
    apply Nat.eqb_eq in Hsize.
    destruct (bool_decide_reflect (Repository.get_archive_name repo ∈ still_needed))
      as [Hin|Hout].
    + destruct (Repository.update w repo) as [repo'|]; [|discriminate]. simpl.
      apply IH. inversion Hstale as [? ? Hhead|]; [contradiction|assumption].
    + destruct (Dict.mem (Repository.get_archive_name repo) lookup) eqn:Hmem;
        [|discriminate].
      rewrite update_sweep_size_changed; [discriminate|].
      apply dict_del_shrinks in Hmem. lia.
Qed.

(** [update] does not return when the registry holds an archive whose name
    is not among the names of the roots found on disk. *)
Lemma update_fails_when_entry_is_stale (w : World) (self : MathHub.t)
    (still_needed : list string) (lookup : Dict.t Repository.t)
    (key : string) (repo : Repository.t) :
  MathHub.update_discover w (MathHub._get_mathhub_repos w) [] (MathHub.archive_lookup self)
  = Ok (still_needed, lookup) ->
  (key, repo) ∈ MathHub.archive_lookup self ->
  Repository.get_archive_name repo ∉ still_needed ->
  forall self', MathHub.update w self <> Ok self'.
Proof.
  intros Hscan Hin Hstale self'. unfold MathHub.update. rewrite Hscan. simpl.
  destruct (update_discover_extends _ _ _ _ _ _ Hscan) as [extra ->].
  destruct (MathHub.update_sweep _ _ _ _ _) as [lookup'|] eqn:Hsweep; [|discriminate].
  exfalso. revert Hsweep. apply update_sweep_stale_fails.
  apply Exists_exists. exists (key, repo). split; [|exact Hstale].
  apply elem_of_app. now left.
Qed.

Lemma dict_mem_keys {V : Type} (k : string) (d : Dict.t V) :
  Dict.mem k d = existsb (fun k' => String.eqb k' k) (Dict.keys d).
Proof.
  unfold Dict.mem, Dict.keys. induction d as [|[k' v] d IH]; simpl; [reflexivity|].
  now rewrite IH.
Qed.

Lemma dict_set_present_keys {V : Type} (k : string) (v : V) (d : Dict.t V) :
  Dict.mem k d = true -> Dict.keys (Dict.set k v d) = Dict.keys d.
Proof.
  unfold Dict.mem, Dict.keys. induction d as [|[k' v'] d IH]; simpl; [discriminate|].
  destruct (String.eqb_spec k' k) as [->|Hne]; simpl; [reflexivity|].
  intros H. now rewrite IH.
Qed.

(** When every entry to visit is still needed and the update of each
    archive returns, the second loop returns, and with the same keys in the
    same order. *)
Lemma update_sweep_returns (w : World) (still_needed : list string)
    (todo : list (string * Repository.t)) :
  forall lookup : Dict.t Repository.t,
    Forall (fun kr => Repository.get_archive_name (snd kr) ∈ still_needed
                      /\ Dict.mem (fst kr) lookup = true
                      /\ exists repo', Repository.update w (snd kr) = Ok repo') todo ->
    exists lookup',
      MathHub.update_sweep w (length lookup) todo still_needed lookup = Ok lookup'
      /\ Dict.keys lookup' = Dict.keys lookup.
Proof.
  induction todo as [|[key repo] todo IH]; intros lookup Hall; simpl;
    rewrite Nat.eqb_refl; simpl.
  - now exists lookup.
  - inversion Hall as [|? ? (Hin & Hmem & repo' & Hupdate) Hrest]; subst. simpl in *.
    rewrite (bool_decide_eq_true_2 _ Hin), Hupdate. simpl.
    pose proof (dict_set_present_keys key repo' lookup Hmem) as Hkeys.
    assert (Hlen : length (Dict.set key repo' lookup) = length lookup).
    { apply (f_equal (@length string)) in Hkeys. unfold Dict.keys in Hkeys.
      now rewrite !length_map in Hkeys. }
    destruct (IH (Dict.set key repo' lookup)) as (lookup' & Hrun & Hkeys').
    + eapply Forall_impl; [exact Hrest|]. intros [k r] (H1 & H2 & H3).
      split; [exact H1|]. split; [|exact H3].
      simpl in *. now rewrite dict_mem_keys, Hkeys, <- dict_mem_keys.
    + rewrite Hlen in Hrun. exists lookup'. split; [exact Hrun|congruence].
Qed.

(** A refresh in which nothing has to be dropped returns: the archive
    found again keeps its place and its documents, its manifest is forgotten,
    and a document whose file is not newer than its DocInfo keeps the
    DocInfo. *)
Example update_keeps_survivors :
  let cached := DocInfo.mk 5 [] [] in
  let x := STeXDocument.mk (ArchiveRef.mk ["mh"; "a"] "a")
             ["mh"; "a"; "source"; "x.tex"] (Some cached) in
  let a := Repository.mk ["mh"; "a"] "a" (Some [("id", "a")]) (Some [("source/x.tex", x)]) in
  MathHub.update Sample.hub_with_a (MathHub.mk [("a", a)])
  = Ok (MathHub.mk
          [("a", Repository.mk ["mh"; "a"] "a" None (Some [("source/x.tex", x)]))]).
Proof. reflexivity. Qed.

(** C2. A registry that knows the archive [gone], on a hub where no
    repository root is left: [update] raises [RuntimeError] (the dictionary
    loses the entry while its values are iterated over) where the
    specification has it return with an empty registry; so it does when a
    second archive is known, and when a new root has appeared.  When nothing
    has to be dropped the call returns: a registry that is empty, on a hub
    with one root, ends up with that archive. *)
Theorem update_raises_when_root_disappeared :
  let gone := Repository.mk ["mh"; "gone"] "gone" None None in
  let w_new : World := {|
    is_file := fun _ => false; path_exists := fun _ => false;
    glob := fun dir pattern =>
      if bool_decide (dir = ["mh"] /\ pattern = "**/.git") then [["mh"; "new"; ".git"]] else [];
    rglob := fun _ _ => []; resolve := fun p => p; st_mtime := fun _ => None;
    get_latex_nodes := fun _ => None; read_manifest := fun _ => None;
    get_mathhub_path := ["mh"] |} in
  MathHub.update Sample.bare (MathHub.mk [("gone", gone)]) = Raise RuntimeError
  /\ MathHub.update Sample.bare (MathHub.mk [("gone", gone); ("a", Sample.archive_a)])
     = Raise RuntimeError
  /\ MathHub.update w_new (MathHub.mk [("gone", gone)]) = Raise RuntimeError
  /\ MathHub.update w_new (MathHub.mk [])
     = Ok (MathHub.mk [("new", Repository.mk ["mh"; "new"] "new" None None)]).
Proof. repeat split. Qed.

(* ------------------------------------------------------------------------- *)
(** * Symbols of a module                                                     *)
(* ------------------------------------------------------------------------- *)

Lemma record_symbol_frame (declares : bool) (symbol verbalization : string)
    (pos len : Z) (m : ModuleInfo.t) :
  let m' := record_symbol declares symbol verbalization pos len m in
  ModuleInfo.name m' = ModuleInfo.name m
  /\ ModuleInfo.dependencies m' = ModuleInfo.dependencies m
  /\ ModuleInfo.modules m' = ModuleInfo.modules m.
Proof. now repeat split. Qed.

(** a hit on a symbol the module does not have yet creates it, with the
    declaration span of a declaring macro *)
Lemma record_symbol_new (declares : bool) (symbol verbalization : string)
    (pos len : Z) (m : ModuleInfo.t) :
  list_find (fun s => Symbol.name s = symbol) (ModuleInfo.symbols m) = None ->
  ModuleInfo.symbols (record_symbol declares symbol verbalization pos len m)
  = ModuleInfo.symbols m
    ++ [Symbol.mk symbol [(verbalization, pos, pos + len)]
          (if declares then Some (pos, pos + len) else None)].
Proof. intros H. unfold record_symbol. now rewrite H. Qed.

(** a hit on a symbol the module has appends the verbalization and keeps
    [decl_def] as it is, set or not, whatever the macro *)
Lemma record_symbol_known (declares : bool) (symbol verbalization : string)
    (pos len : Z) (m : ModuleInfo.t) (before : list Symbol.t) (s : Symbol.t) :
  ModuleInfo.symbols m = before ++ [s] ->
  list_find (fun s => Symbol.name s = symbol) before = None ->
  Symbol.name s = symbol ->
  ModuleInfo.symbols (record_symbol declares symbol verbalization pos len m)
  = before
    ++ [Symbol.mk symbol (Symbol.verbalizations s ++ [(verbalization, pos, pos + len)])
          (Symbol.decl_def s)].
Proof.
  intros Hm Hbefore Hs. unfold record_symbol. rewrite Hm.
  rewrite (list_find_app_r _ _ _ Hbefore). simpl.
  destruct (decide (Symbol.name s = symbol)) as [_|Hne]; [|contradiction].
  cbn [fmap option_fmap option_map prod_map fst snd id].
  replace (0 + length before)%nat with (length before + 0)%nat by lia.
  rewrite alter_app_r. simpl. unfold push_verbalization. now rewrite Hs.
Qed.

(** further hits on a symbol the module has *)
Lemma record_hits_known (symbol : string) (rest : list symbol_hit) :
  forall (m : ModuleInfo.t) (before : list Symbol.t) (s : Symbol.t),
  ModuleInfo.symbols m = before ++ [s] ->
  list_find (fun s => Symbol.name s = symbol) before = None ->
  Symbol.name s = symbol ->
  ModuleInfo.symbols (record_hits symbol rest m)
  = before
    ++ [Symbol.mk symbol (Symbol.verbalizations s ++ List.map verbalization_of rest)
          (Symbol.decl_def s)].
Proof.
  induction rest as [|hit rest IH]; intros m before s Hm Hbefore Hs.
  - simpl. rewrite Hm, app_nil_r. destruct s; simpl in *. now subst.
  - destruct hit as [[[d v] p] l].
    pose proof (record_symbol_known d symbol v p l m before s Hm Hbefore Hs) as H1.
    change (record_hits symbol ((d, v, p, l) :: rest) m)
      with (record_hits symbol rest (record_symbol d symbol v p l m)).
    rewrite (IH _ _ _ H1 Hbefore eq_refl). simpl.
    now rewrite <- app_assoc.
Qed.

(** What a run of hits on one symbol leaves in a module that did not have
    the symbol: one Symbol, with one verbalization per hit in order, whose
    declaration span is the span of the FIRST hit when that hit is a
    declaring one, and is unset otherwise (also when a later hit declares). *)
Lemma record_hits_one_symbol (symbol : string) (first : symbol_hit)
    (rest : list symbol_hit) (m : ModuleInfo.t) :
  list_find (fun s => Symbol.name s = symbol) (ModuleInfo.symbols m) = None ->
  ModuleInfo.symbols (record_hits symbol (first :: rest) m)
  = ModuleInfo.symbols m
    ++ [Symbol.mk symbol (List.map verbalization_of (first :: rest))
          (span_if_declaring first)].
Proof.
  intros Hnew. destruct first as [[[declares verbalization] pos] len].
  pose proof (record_symbol_new declares symbol verbalization pos len m Hnew) as H1.
  change (record_hits symbol ((declares, verbalization, pos, len) :: rest) m)
    with (record_hits symbol rest (record_symbol declares symbol verbalization pos len m)).
  now rewrite (record_hits_known symbol rest _ _ _ H1 Hnew eq_refl).
Qed.

(** C3. A module [m] whose body is [\definame{x}] followed by [\symdecl{x}]:
    the analysis leaves one Symbol [x] with the two verbalizations, and its
    declaration span is unset, where the specification has the span (30, 41)
    of the [\symdecl]: the span is assigned only when the hit creates the
    Symbol. *)
Theorem declaration_after_reference_is_lost :
  let body := [Sample.macro1 10 "definame" "x"; Sample.macro1 30 "symdecl" "x"] in
  let doc := Sample.document "m.en.tex" in
  let w := Sample.with_document Sample.bare (STeXDocument.path doc) 7
             [Sample.smodule 0 50 None "m" body] 50 in
  create_doc_info w Sample.hub_a doc
  = Ok (STeXDocument.set_doc_info
          (Some (DocInfo.mk 7 []
                   [ModuleInfo.mk "m" []
                      [Symbol.mk "x" [("x", 10, 22); ("x", 30, 41)] None] []]))
          doc)
  /\ ModuleInfo.symbols
       (record_hits "x" [(false, "x", 10, 12); (true, "x", 30, 11)]
          (ModuleInfo.mk "m" [] [] []))
     = [Symbol.mk "x" [("x", 10, 22); ("x", 30, 41)] None].
Proof. split; reflexivity. Qed.

(* ------------------------------------------------------------------------- *)
(** * The signature dependency of a module                                    *)
(* ------------------------------------------------------------------------- *)

(** A module environment with a non-empty [sig] parameter gets one
    dependency on the document's own archive, with the module name, both
    ranges equal to the span of the environment, and a file only if the
    file name has more than two dot-separated parts and the sibling exists. *)
Lemma signature_dependency_shape (w : World) (doc : STeXDocument.t) (pos len : Z)
    (nodeargd : ParsedArgs.t) (name : string) (params : OptArgKeyVals)
    (sig_val : string) :
  ParsedArgs.from_first_macro_arg nodeargd = Some params ->
  get_val params "sig" = Some sig_val ->
  Py.truthy sig_val = true ->
  forall dep : option Dependency.t,
    signature_dependency w doc pos len nodeargd name = Ok dep ->
    exists file_field : option string,
      dep = Some (Dependency.mk (ArchiveRef.get_archive_name (STeXDocument.archive doc))
                    file_field (Some name) false false false
                    (Some (pos, pos + len)) (Some (pos, pos + len)))
      /\ (file_field = None <->
          (length (Py.split "." (Path.name (STeXDocument.path doc))) <= 2)%nat
          \/ exists sibling,
               Path.with_name (STeXDocument.path doc)
                 (Py.join "."
                    (Py.set_last2 sig_val
                       (Py.split "." (Path.name (STeXDocument.path doc)))))
               = Ok sibling
               /\ path_exists w sibling = false)
      /\ (forall file, file_field = Some file ->
                       exists sibling, file = Path.as_posix sibling).
Proof.
  intros Hp Hs Ht dep. unfold signature_dependency. rewrite Hp. simpl. rewrite Hs, Ht. simpl.
  destruct (Nat.ltb_spec 2 (length (Py.split "." (Path.name (STeXDocument.path doc))))) as [Hlt|Hge].
  - destruct (Path.with_name _ _) as [sibling|]; [|discriminate]. simpl.
    destruct (path_exists w sibling) eqn:He; intros H; injection H as <-; eexists;
      (split; [reflexivity|]); split.
    + split; [discriminate|]. intros [H|(s & Hs' & He')]; [lia|].
      injection Hs' as <-. congruence.
    + intros file H. injection H as <-. now exists sibling.
    + split; [|reflexivity]. intros _. right. now exists sibling.
    + discriminate.
  - simpl. intros H. injection H as <-. eexists. split; [reflexivity|]. split.
    + split; [now left|reflexivity].
    + discriminate.
Qed.

(** C4. The module [set] with [sig=en] in [/mh/a/source/set.de.tex], beside
    which [set.en.tex] exists: the dependency is produced, for the archive
    [a] and the module [set], with both ranges equal to the span of the
    environment, but its [file] is the absolute path of the sibling, where
    the specification (and [produce], through the normalizer) has the path
    relative to the [source] tree of the archive, [set.en.tex]. *)
Theorem signature_dependency_file_is_absolute :
  let doc := Sample.document "set.de.tex" in
  let sibling := ["mh"; "a"; "source"; "set.en.tex"] in
  let w := Sample.with_document Sample.bare sibling 3 [] 0 in
  let nodeargd :=
    ParsedArgs.mk [Some (Arg.mk "[sig=en]" [("sig", "en")]); Sample.braced "set"]
      (Some "sig=en") (Some [("sig", "en")]) (Some "set") in
  signature_dependency w doc 0 200 nodeargd "set"
  = Ok (Some (Dependency.mk "a" (Some "/mh/a/source/set.en.tex") (Some "set")
                false false false (Some (0, 200)) (Some (0, 200))))
  /\ Path.relative_to sibling (Path.div (Repository.path Sample.archive_a) "source")
     = Ok "set.en.tex"
  /\ Repository.normalize_tex_file_ref w Sample.archive_a ["set.en.tex"; "source"]
     = Ok (Some "set.en.tex").
Proof. repeat split. Qed.

(* ------------------------------------------------------------------------- *)
(** * The walk                                                                *)
(* ------------------------------------------------------------------------- *)

(** Induction over a parsed tree, with the property at hand for every node
    of the node list of a group or environment. *)
Lemma LatexNode_nested_ind (P : LatexNode -> Prop)
    (Hcomment : forall pos len, P (LatexCommentNode pos len))
    (Hchars : forall pos len, P (LatexCharsNode pos len))
    (Hmath : forall pos len, P (LatexMathNode pos len))
    (Hspecials : forall pos len, P (LatexSpecialsNode pos len))
    (Hgroup : forall pos len nodelist,
        Forall P nodelist -> P (LatexGroupNode pos len nodelist))
    (Henv : forall pos len environmentname nodeargd nodelist,
        Forall P nodelist ->
        P (LatexEnvironmentNode pos len environmentname nodeargd nodelist))
    (Hmacro : forall pos len macroname nodeargd,
        P (LatexMacroNode pos len macroname nodeargd))
    (Hother : forall pos len, P (LatexOtherNode pos len)) :
  forall node, P node.
Proof.
  refine (fix IH (node : LatexNode) : P node :=
            match node with
            | LatexCommentNode pos len => Hcomment pos len
            | LatexCharsNode pos len => Hchars pos len
            | LatexMathNode pos len => Hmath pos len
            | LatexSpecialsNode pos len => Hspecials pos len
            | LatexGroupNode pos len nodelist => Hgroup pos len nodelist _
            | LatexEnvironmentNode pos len name nodeargd nodelist =>
                Henv pos len name nodeargd nodelist _
            | LatexMacroNode pos len macroname nodeargd => Hmacro pos len macroname nodeargd
            | LatexOtherNode pos len => Hother pos len
            end);
    induction nodelist as [|child nodelist IHl]; constructor; auto.
Qed.

Section WalkFacts.
Variables (w : World) (mh : MathHub.t) (self : STeXDocument.t).

Lemma for_nodes_cons (step : LatexNode -> span -> walk_state -> result walk_state)
    (node : LatexNode) (rest : list LatexNode) (parent_range : span) (st : walk_state) :
  for_nodes step (node :: rest) parent_range st
  = step node parent_range st ≫= for_nodes step rest parent_range.
Proof. reflexivity. Qed.

Lemma for_nodes_app (step : LatexNode -> span -> walk_state -> result walk_state)
    (before after : list LatexNode) (parent_range : span) :
  forall st : walk_state,
    for_nodes step (before ++ after) parent_range st
    = for_nodes step before parent_range st ≫= for_nodes step after parent_range.
Proof.
  induction before as [|node before IH]; intros st; [reflexivity|].
  rewrite <- app_comm_cons, !for_nodes_cons.
  destruct (step node parent_range st) as [st'|e]; [apply IH|reflexivity].
Qed.

(** a node on which the body of the loop does nothing can be left out *)
Lemma process_skip (node : LatexNode) :
  (forall parent_range st, process_node w mh self node parent_range st = Ok st) ->
  forall before after parent_range st,
    process w mh self (before ++ node :: after) parent_range st
    = process w mh self (before ++ after) parent_range st.
Proof.
  intros Hskip before after parent_range st. unfold process, call_process.
  rewrite !for_nodes_app.
  destruct (for_nodes (process_node w mh self) before parent_range st) as [st'|e];
    [|reflexivity].
  simpl. now rewrite Hskip.
Qed.

(** the walk reads the archive and the path of the document, not its
    cache slot *)
Lemma process_node_ignores_cache (o : option DocInfo.t) (node : LatexNode) :
  forall parent_range st,
    process_node w mh (STeXDocument.set_doc_info o self) node parent_range st
    = process_node w mh self node parent_range st.
Proof. reflexivity. Qed.

Lemma create_doc_info_ignores_cache (o : option DocInfo.t) :
  create_doc_info w mh (STeXDocument.set_doc_info o self) = create_doc_info w mh self.
Proof. reflexivity. Qed.

End WalkFacts.




(* ------------------------------------------------------------------------- *)
(** * The module tree built by the walk                                       *)
(* ------------------------------------------------------------------------- *)

Lemma map_alter_invariant {A B : Type} (h : A -> B) (g : A -> A) (i : nat) (l : list A) :
  (forall x, h (g x) = h x) -> List.map h (alter g i l) = List.map h l.
Proof.
  intros Hg. revert i. induction l as [|x l IH]; intros [|i]; try reflexivity.
  - change (h (g x) :: List.map h l = h x :: List.map h l). now rewrite Hg.
  - change (h x :: List.map h (alter g i l) = h x :: List.map h l). now rewrite IH.
Qed.

Lemma skeleton_alter_in (f : ModuleInfo.t -> ModuleInfo.t) (p : list nat) :
  (forall m, skeleton (f m) = skeleton m) ->
  forall m, skeleton (alter_in f p m) = skeleton m.
Proof.
  intros Hf. induction p as [|i p IH]; intros m; simpl; [apply Hf|].
  destruct m as [name deps syms subs]; simpl.
  f_equal. now apply map_alter_invariant.
Qed.

Lemma skeletons_alter_at (f : ModuleInfo.t -> ModuleInfo.t) (p : list nat)
    (ms : list ModuleInfo.t) :
  (forall m, skeleton (f m) = skeleton m) ->
  List.map skeleton (alter_at f p ms) = List.map skeleton ms.
Proof.
  intros Hf. destruct p as [|i p]; simpl; [reflexivity|].
  apply map_alter_invariant. now apply skeleton_alter_in.
Qed.

Lemma skeleton_push_dependency (dep : Dependency.t) (m : ModuleInfo.t) :
  skeleton (push_dependency dep m) = skeleton m.
Proof. now destruct m. Qed.

Lemma skeleton_record_symbol (declares : bool) (symbol verbalization : string)
    (pos len : Z) (m : ModuleInfo.t) :
  skeleton (record_symbol declares symbol verbalization pos len m) = skeleton m.
Proof. now destruct m. Qed.

Lemma skeletons_attach_dependency (dep : Dependency.t) (module_info : option ModRef)
    (doc_info : DocInfo.t) :
  List.map skeleton (DocInfo.modules (attach_dependency dep module_info doc_info))
  = List.map skeleton (DocInfo.modules doc_info).
Proof.
  destruct module_info as [r|]; simpl; [|reflexivity].
  apply skeletons_alter_at, skeleton_push_dependency.
Qed.

Lemma skeletons_nil (ms : list ModuleInfo.t) :
  List.map skeleton ms = [] -> ms = [].
Proof. now destruct ms. Qed.

Lemma skeletons_single (ms : list ModuleInfo.t) (name : string) (subs : list Skeleton) :
  List.map skeleton ms = [SkeletonNode name subs] ->
  exists m, ms = [m] /\ ModuleInfo.name m = name
            /\ List.map skeleton (ModuleInfo.modules m) = subs.
Proof.
  destruct ms as [|m [|m' ms]]; try discriminate.
  destruct m as [n deps syms mods]; simpl. intros H. injection H as -> <-.
  now eexists.
Qed.

Section ModuleTree.
Variables (w : World) (mh : MathHub.t) (self : STeXDocument.t).

Lemma keeps_modules_refl (st : walk_state) : keeps_modules st st.
Proof. now split. Qed.

Lemma keeps_modules_trans (st1 st2 st3 : walk_state) :
  keeps_modules st1 st2 -> keeps_modules st2 st3 -> keeps_modules st1 st3.
Proof. intros [H1 H2] [H3 H4]. split; congruence. Qed.

Lemma for_nodes_keeps_modules (nodes : list LatexNode) :
  Forall (fun node =>
            module_free node = true ->
            forall parent_range st st',
              process_node w mh self node parent_range st = Ok st' ->
              keeps_modules st st') nodes ->
  forallb module_free nodes = true ->
  forall parent_range st st',
    for_nodes (process_node w mh self) nodes parent_range st = Ok st' ->
    keeps_modules st st'.
Proof.
  induction 1 as [|node nodes Hnode _ IH]; intros Hfree parent_range st st' Hrun.
  - injection Hrun as <-. apply keeps_modules_refl.
  - simpl in Hfree. apply andb_true_iff in Hfree as [Hfree1 Hfree2].
    rewrite for_nodes_cons in Hrun.
    destruct (process_node w mh self node parent_range st) as [st1|e] eqn:Hstep;
      [|discriminate].
    apply (keeps_modules_trans _ st1).
    + now apply (Hnode Hfree1 parent_range).
    + now apply (IH Hfree2 parent_range).
Qed.

Lemma call_process_keeps_modules (nodes : list LatexNode) :
  Forall (fun node =>
            module_free node = true ->
            forall parent_range st st',
              process_node w mh self node parent_range st = Ok st' ->
              keeps_modules st st') nodes ->
  forallb module_free nodes = true ->
  forall parent_range st st',
    call_process (process_node w mh self) nodes parent_range st = Ok st' ->
    keeps_modules st st'.
Proof.
  intros Hall Hfree parent_range st st' Hrun. unfold call_process in Hrun.
  destruct (for_nodes _ nodes parent_range st) as [st1|e] eqn:Hloop; [|discriminate].
  injection Hrun as <-.
  destruct (for_nodes_keeps_modules nodes Hall Hfree _ _ _ Hloop) as [_ H].
  now split.
Qed.

Lemma process_node_keeps_modules (node : LatexNode) :
  module_free node = true ->
  forall parent_range st st',
    process_node w mh self node parent_range st = Ok st' ->
    keeps_modules st st'.
Proof.
  induction node as [| | | |pos len nodelist IH|pos len name nodeargd nodelist IH
                     |pos len macroname nodeargd|]
    using LatexNode_nested_ind; intros Hfree parent_range [module_info doc_info] st' Hrun;
    simpl in Hrun.
  - injection Hrun as <-. apply keeps_modules_refl.
  - injection Hrun as <-. apply keeps_modules_refl.
  - injection Hrun as <-. apply keeps_modules_refl.
  - injection Hrun as <-. apply keeps_modules_refl.
  - simpl in Hfree. now apply (call_process_keeps_modules nodelist IH Hfree _ _ _ Hrun).
  - simpl in Hfree. apply andb_true_iff in Hfree as [Hname Hfree].
    apply negb_true_iff in Hname. rewrite Hname in Hrun.
    now apply (call_process_keeps_modules nodelist IH Hfree _ _ _ Hrun).
  - destruct (Dict.get macroname DEPENDENCY_PRODUCER_BY_MACRONAME) as [dp|].
    + destruct (STeXDocument.get_rel_path self) as [rel_path|]; [|discriminate].
      simpl in Hrun.
      destruct (DependencyProducer.produce _ _ _ _ _ _ _ _ _ _) as [[dep|]|];
        simpl in Hrun; try discriminate; injection Hrun as <-.
      * split; [reflexivity|]. apply skeletons_attach_dependency.
      * apply keeps_modules_refl.
    + destruct (is_symbol_macro macroname).
      * destruct (symbol_of_macro macroname nodeargd) as [[symbol verbalization]|];
          [|discriminate].
        simpl in Hrun. destruct module_info as [r|]; injection Hrun as <-.
        -- split; [reflexivity|]. simpl.
           apply skeletons_alter_at. intros m. apply skeleton_record_symbol.
        -- apply keeps_modules_refl.
      * injection Hrun as <-. apply keeps_modules_refl.
  - discriminate.
Qed.

Lemma module_free_run (nodes : list LatexNode) :
  forallb module_free nodes = true ->
  forall parent_range st st',
    for_nodes (process_node w mh self) nodes parent_range st = Ok st' ->
    keeps_modules st st'.
Proof.
  intros Hfree. apply for_nodes_keeps_modules; [|exact Hfree].
  apply Forall_forall. intros node _. apply process_node_keeps_modules.
Qed.

(** the steps of the walk on an [smodule] environment *)
Lemma process_smodule_inv (pos len : Z) (nodeargd : ParsedArgs.t)
    (nodelist : list LatexNode) (parent_range : span) (module_info : option ModRef)
    (doc_info : DocInfo.t) (st' : walk_state) :
  process_node w mh self (LatexEnvironmentNode pos len "smodule" nodeargd nodelist)
    parent_range (module_info, doc_info) = Ok st' ->
  exists (local : string) (doc_info2 : DocInfo.t) (st'' : walk_state),
    let name := match module_info with
                | Some r => ref_name r +:+ "/" +:+ local
                | None => local
                end in
    let attached := attach_module (ModuleInfo.mk name [] [] []) module_info doc_info in
    verbatim_inner (ParsedArgs.argnlist nodeargd !! 1%nat) = Ok local
    /\ List.map skeleton (DocInfo.modules doc_info2)
       = List.map skeleton (DocInfo.modules (snd attached))
    /\ for_nodes (process_node w mh self) nodelist (pos, pos + len)
         (Some (fst attached), doc_info2) = Ok st''
    /\ st' = (Some (fst attached), snd st'').
Proof.
  intros Hrun. simpl in Hrun.
  destruct (verbatim_inner _) as [local|]; [|discriminate]. simpl in Hrun.
  exists local.
  destruct (attach_module _ module_info doc_info) as [new_ref doc_info1] eqn:Hattach.
  destruct (signature_dependency _ _ _ _ _ _) as [sig_dep|]; [|discriminate].
  simpl in Hrun. unfold call_process in Hrun.
  destruct (for_nodes _ nodelist _ _) as [st''|] eqn:Hloop; [|discriminate].
  injection Hrun as <-.
  eexists _, st''. cbn zeta. rewrite Hattach. simpl.
  split; [reflexivity|]. split; [|split; [exact Hloop|reflexivity]].
  destruct sig_dep as [dep|]; [|reflexivity].
  apply (skeletons_attach_dependency dep (Some new_ref)).
Qed.

End ModuleTree.

Lemma string_length_app (s t : string) :
  String.length (s +:+ t) = (String.length s + String.length t)%nat.
Proof. induction s as [|c s IH]; simpl; [reflexivity|]. now rewrite IH. Qed.

Lemma qualified_name_differs (s t : string) :
  String.eqb s (s +:+ "/" +:+ t) = false.
Proof.
  apply String.eqb_neq. intros H. apply (f_equal String.length) in H.
  rewrite string_length_app in H. simpl in H. lia.
Qed.

Lemma qualified_twice_differs (s t u : string) :
  String.eqb s ((s +:+ "/" +:+ t) +:+ "/" +:+ u) = false.
Proof.
  apply String.eqb_neq. intros H. apply (f_equal String.length) in H.
  rewrite !string_length_app in H. simpl in H. lia.
Qed.

(** the reference and the tree of names after a module is attached at the
    root, below the module at [0], and below the module at [0; 0] *)
Lemma attach_module_root (name : string) (doc_info : DocInfo.t) :
  List.map skeleton (DocInfo.modules doc_info) = [] ->
  let attached := attach_module (ModuleInfo.mk name [] [] []) None doc_info in
  fst attached = {| ref_path := [0%nat]; ref_name := name |}
  /\ List.map skeleton (DocInfo.modules (snd attached)) = [SkeletonNode name []].
Proof.
  intros H. apply skeletons_nil in H. simpl. now rewrite H.
Qed.

Lemma attach_module_below_0 (name a : string) (r : ModRef) (doc_info : DocInfo.t) :
  ref_path r = [0%nat] ->
  List.map skeleton (DocInfo.modules doc_info) = [SkeletonNode a []] ->
  let attached := attach_module (ModuleInfo.mk name [] [] []) (Some r) doc_info in
  fst attached = {| ref_path := [0%nat; 0%nat]; ref_name := name |}
  /\ List.map skeleton (DocInfo.modules (snd attached))
     = [SkeletonNode a [SkeletonNode name []]].
Proof.
  intros Hr H. apply skeletons_single in H as (m & Hm & Hname & Hsubs).
  apply skeletons_nil in Hsubs. destruct m as [n deps syms subs]. simpl in *. subst.
  unfold update_module. rewrite Hr, Hm. now split.
Qed.

Lemma attach_module_below_00 (name a ab : string) (r : ModRef) (doc_info : DocInfo.t) :
  ref_path r = [0%nat; 0%nat] ->
  List.map skeleton (DocInfo.modules doc_info) = [SkeletonNode a [SkeletonNode ab []]] ->
  let attached := attach_module (ModuleInfo.mk name [] [] []) (Some r) doc_info in
  fst attached = {| ref_path := [0%nat; 0%nat; 0%nat]; ref_name := name |}
  /\ List.map skeleton (DocInfo.modules (snd attached))
     = [SkeletonNode a [SkeletonNode ab [SkeletonNode name []]]].
Proof.
  intros Hr H. apply skeletons_single in H as (m & Hm & Hname & Hsubs).
  apply skeletons_single in Hsubs as (m' & Hm' & Hname' & Hsubs').
  apply skeletons_nil in Hsubs'.
  destruct m as [n deps syms subs]. destruct m' as [n' deps' syms' subs'].
  simpl in *. subst.
  unfold update_module. rewrite Hr, Hm. now split.
Qed.

Section NestedModules.
Variables (w : World) (mh : MathHub.t) (self : STeXDocument.t).

(** an [smodule] environment whose body has no module environment: the
    module is attached, becomes the current module, and nothing else changes
    in the tree of names *)
Lemma process_leaf_module (pos len : Z) (nodeargd : ParsedArgs.t)
    (body : list LatexNode) (parent_range : span) (st st' : walk_state) :
  forallb module_free body = true ->
  process_node w mh self (LatexEnvironmentNode pos len "smodule" nodeargd body)
    parent_range st = Ok st' ->
  exists local : string,
    let name := match fst st with
                | Some r => ref_name r +:+ "/" +:+ local
                | None => local
                end in
    let attached := attach_module (ModuleInfo.mk name [] [] []) (fst st) (snd st) in
    verbatim_inner (ParsedArgs.argnlist nodeargd !! 1%nat) = Ok local
    /\ fst st' = Some (fst attached)
    /\ List.map skeleton (DocInfo.modules (snd st'))
       = List.map skeleton (DocInfo.modules (snd attached)).
Proof.
  intros Hfree Hrun. destruct st as [module_info doc_info].
  apply process_smodule_inv in Hrun as (local & doc_info2 & st'' & Hlocal & Hsk & Hloop & ->).
  exists local. cbn zeta. split; [exact Hlocal|]. split; [reflexivity|].
  destruct (module_free_run w mh self body Hfree _ _ _ Hloop) as [_ Hkeep].
  simpl in *. congruence.
Qed.

(** an [smodule] environment whose body is one node between two runs of
    nodes without module environments *)
Lemma process_module_around (pos len : Z) (nodeargd : ParsedArgs.t)
    (before after : list LatexNode) (inner : LatexNode) (parent_range : span)
    (st st' : walk_state) :
  forallb module_free before = true ->
  forallb module_free after = true ->
  process_node w mh self
    (LatexEnvironmentNode pos len "smodule" nodeargd (before ++ inner :: after))
    parent_range st = Ok st' ->
  exists (local : string) (st_in st_out : walk_state),
    let name := match fst st with
                | Some r => ref_name r +:+ "/" +:+ local
                | None => local
                end in
    let attached := attach_module (ModuleInfo.mk name [] [] []) (fst st) (snd st) in
    verbatim_inner (ParsedArgs.argnlist nodeargd !! 1%nat) = Ok local
    /\ fst st_in = Some (fst attached)
    /\ List.map skeleton (DocInfo.modules (snd st_in))
       = List.map skeleton (DocInfo.modules (snd attached))
    /\ process_node w mh self inner (pos, pos + len) st_in = Ok st_out
    /\ fst st' = Some (fst attached)
    /\ List.map skeleton (DocInfo.modules (snd st'))
       = List.map skeleton (DocInfo.modules (snd st_out)).
Proof.
  intros Hbefore Hafter Hrun. destruct st as [module_info doc_info].
  apply process_smodule_inv in Hrun as (local & doc_info2 & st'' & Hlocal & Hsk & Hloop & ->).
  rewrite for_nodes_app in Hloop.
  destruct (for_nodes _ before _ _) as [st_in|] eqn:Hin; [|discriminate].
  cbn [mbind result_bind bind] in Hloop. rewrite for_nodes_cons in Hloop.
  destruct (process_node w mh self inner _ st_in) as [st_out|] eqn:Hinner; [|discriminate].
  cbn [mbind result_bind bind] in Hloop.
  destruct (module_free_run w mh self before Hbefore _ _ _ Hin) as [Hin1 Hin2].
  destruct (module_free_run w mh self after Hafter _ _ _ Hloop) as [_ Hout2].
  exists local, st_in, st_out. cbn zeta. simpl in *.
  repeat split; try assumption; try reflexivity; congruence.
Qed.

End NestedModules.

(** What the walk does beyond the nesting of the environments: line 244
    assigns [module_info] inside the loop, so a module environment that
    follows another one in the same node list is attached below it. *)
Example module_after_module_is_attached_below :
  let doc := Sample.document "xy.en.tex" in
  let w := Sample.with_document Sample.bare (STeXDocument.path doc) 7
             [Sample.smodule 0 40 None "X" []; Sample.smodule 40 40 None "Y" []] 80 in
  create_doc_info w Sample.hub_a doc
  = Ok (STeXDocument.set_doc_info
          (Some (DocInfo.mk 7 []
                   [ModuleInfo.mk "X" [] [] [ModuleInfo.mk "X/Y" [] [] []]]))
          doc).
Proof. reflexivity. Qed.

(** C5. A document that declares a module [X] and after it, beside it, a
    module [A] containing [B] containing [C].  The modules get the names
    [X], [X/A], [X/A/B] and [X/A/B/C], [A] becomes a submodule of [X], and
    [get_module] finds nothing under the name [A/B/C]: the assignment of line
    244 is seen by the iterations of the loop that follow, so the module that
    was closed last stays the parent of what comes after it. *)
Theorem modules_after_a_module_are_misqualified :
  let doc := Sample.document "xabc.en.tex" in
  let w := Sample.with_document Sample.bare (STeXDocument.path doc) 7
             [Sample.smodule 0 40 None "X" [];
              Sample.smodule 40 120 None "A"
                [Sample.smodule 60 80 None "B" [Sample.smodule 80 40 None "C" []]]] 160 in
  let mC := ModuleInfo.mk "X/A/B/C" [] [] [] in
  let mB := ModuleInfo.mk "X/A/B" [] [] [mC] in
  let mA := ModuleInfo.mk "X/A" [] [] [mB] in
  let doc_info := DocInfo.mk 7 [] [ModuleInfo.mk "X" [] [] [mA]] in
  create_doc_info w Sample.hub_a doc = Ok (STeXDocument.set_doc_info (Some doc_info) doc)
  /\ List.map ModuleInfo.name (DocInfo.iter_modules doc_info)
     = ["X"; "X/A"; "X/A/B"; "X/A/B/C"]
  /\ DocInfo.get_module doc_info "A/B/C" = None
  /\ DocInfo.get_module doc_info "A" = None
  /\ DocInfo.get_module doc_info "X/A/B/C" = Some mC.
Proof. repeat split. Qed.

(** Where the module environment [a] is the only one of its node list, the
    names are those of the nesting.  A document whose parsed tree holds a
    module environment [a], in it a module environment [b], in it a module
    environment [c], and no other module environment: every analysis that
    returns produces one top-level module named [a], whose only submodule is
    named [a/b], whose only submodule is named [a/b/c]; and [get_module] on
    the name [a/b/c] returns that innermost module. *)
Theorem nested_modules_are_qualified (w : World) (mh : MathHub.t)
    (doc doc1 : STeXDocument.t) (text_len : Z)
    (posA lenA posB lenB posC lenC : Z) (argsA argsB argsC : ParsedArgs.t)
    (a b c : string)
    (beforeA afterA beforeB afterB beforeC afterC bodyC : list LatexNode) :
  let moduleC := LatexEnvironmentNode posC lenC "smodule" argsC bodyC in
  let moduleB := LatexEnvironmentNode posB lenB "smodule" argsB
                   (beforeC ++ moduleC :: afterC) in
  let moduleA := LatexEnvironmentNode posA lenA "smodule" argsA
                   (beforeB ++ moduleB :: afterB) in
  get_latex_nodes w (STeXDocument.path doc) = Some (beforeA ++ moduleA :: afterA, text_len) ->
  verbatim_inner (ParsedArgs.argnlist argsA !! 1%nat) = Ok a ->
  verbatim_inner (ParsedArgs.argnlist argsB !! 1%nat) = Ok b ->
  verbatim_inner (ParsedArgs.argnlist argsC !! 1%nat) = Ok c ->
  forallb module_free (beforeA ++ afterA ++ beforeB ++ afterB ++ beforeC ++ afterC ++ bodyC)
  = true ->
  create_doc_info w mh doc = Ok doc1 ->
  exists (doc_info : DocInfo.t) (mA mB mC : ModuleInfo.t),
    STeXDocument._doc_info doc1 = Some doc_info
    /\ DocInfo.modules doc_info = [mA]
    /\ ModuleInfo.name mA = a
    /\ ModuleInfo.modules mA = [mB]
    /\ ModuleInfo.name mB = a +:+ "/" +:+ b
    /\ ModuleInfo.modules mB = [mC]
    /\ ModuleInfo.name mC = (a +:+ "/" +:+ b) +:+ "/" +:+ c
    /\ ModuleInfo.modules mC = []
    /\ DocInfo.get_module doc_info ((a +:+ "/" +:+ b) +:+ "/" +:+ c) = Some mC.
Proof.
  intros moduleC moduleB moduleA Hnodes Ha Hb Hc Hfree Hrun.
  rewrite !forallb_app in Hfree.
  repeat (apply andb_true_iff in Hfree as [? Hfree]).
  unfold create_doc_info in Hrun. rewrite Hnodes in Hrun. simpl in Hrun.
  destruct (expect _ (st_mtime w _)) as [mtime|]; [|discriminate]. simpl in Hrun.
  destruct (process _ _ _ _ _ _) as [st|] eqn:Hwalk; [|discriminate].
  simpl in Hrun. injection Hrun as <-.
  (* the top-level list *)
  unfold process, call_process in Hwalk.
  destruct (for_nodes _ _ _ _) as [st_end|] eqn:Hloop; [|discriminate].
  injection Hwalk as <-.
  rewrite for_nodes_app in Hloop.
  destruct (for_nodes _ beforeA _ _) as [st0|] eqn:Hpre; [|discriminate].
  cbn [mbind result_bind bind] in Hloop. rewrite for_nodes_cons in Hloop.
  destruct (process_node w mh doc moduleA _ st0) as [stA|] eqn:HA; [|discriminate].
  cbn [mbind result_bind bind] in Hloop.
  destruct (module_free_run w mh doc beforeA ltac:(assumption) _ _ _ Hpre) as [Hpm Hps].
  destruct (module_free_run w mh doc afterA ltac:(assumption) _ _ _ Hloop) as [_ HAs].
  simpl in Hpm, Hps.
  (* module a *)
  apply process_module_around in HA
    as (la & stA_in & stB & HlA & HAin1 & HAin2 & HB & _ & HAout); try assumption.
  rewrite Ha in HlA. injection HlA as <-. rewrite Hpm in *.
  destruct (attach_module_root a (snd st0) Hps) as [HrA HsA].
  cbn zeta in *. rewrite HrA in HAin1. rewrite HsA in HAin2.
  (* module b *)
  apply process_module_around in HB
    as (lb & stB_in & stC & HlB & HBin1 & HBin2 & HC & _ & HBout); try assumption.
  rewrite Hb in HlB. injection HlB as <-. rewrite HAin1 in *.
  destruct (attach_module_below_0 (a +:+ "/" +:+ b) a
              {| ref_path := [0%nat]; ref_name := a |} (snd stA_in) eq_refl HAin2)
    as [HrB HsB].
  cbn zeta in *. cbn [ref_name] in *. rewrite HrB in HBin1. rewrite HsB in HBin2.
  (* module c *)
  apply process_leaf_module in HC as (lc & HlC & _ & HCout); try assumption.
  rewrite Hc in HlC. injection HlC as <-. rewrite HBin1 in *.
  destruct (attach_module_below_00 ((a +:+ "/" +:+ b) +:+ "/" +:+ c) a (a +:+ "/" +:+ b)
              {| ref_path := [0%nat; 0%nat]; ref_name := a +:+ "/" +:+ b |}
              (snd stB_in) eq_refl HBin2) as [_ HsC].
  cbn zeta in *. cbn [ref_name] in *. rewrite HsC in HCout.
  (* the tree of names of the result *)
  rewrite HAout, HBout, HCout in HAs.
  apply skeletons_single in HAs as (mA & HmA & HnA & HsubA).
  apply skeletons_single in HsubA as (mB & HmB & HnB & HsubB).
  apply skeletons_single in HsubB as (mC & HmC & HnC & HsubC).
  apply skeletons_nil in HsubC.
  exists (snd st_end), mA, mB, mC.
  repeat (split; [first [reflexivity | assumption]|]).
  unfold DocInfo.get_module, DocInfo.iter_modules. rewrite HmA.
  destruct mA as [nA dA sA subsA], mB as [nB dB sB subsB], mC as [nC dC sC subsC].
  simpl in *. subst. simpl.
  now rewrite qualified_twice_differs, qualified_name_differs, String.eqb_refl.
Qed.

Lemma nested_modules_are_qualified_witness :
  let doc := Sample.document "abc.en.tex" in
  let moduleC := Sample.smodule 30 40 None "C" [LatexCharsNode 45 3] in
  let moduleB := Sample.smodule 20 60 None "B" ([] ++ moduleC :: []) in
  let moduleA :=
    Sample.smodule 1 98 None "A"
      ([Sample.macro1 5 "symdecl" "x"] ++ moduleB :: [LatexCommentNode 85 2]) in
  let w := Sample.with_document Sample.bare (STeXDocument.path doc) 7
             ([LatexCharsNode 0 1] ++ moduleA :: []) 100 in
  exists doc1 : STeXDocument.t,
    create_doc_info w Sample.hub_a doc = Ok doc1
    /\ exists (doc_info : DocInfo.t) (mA mB mC : ModuleInfo.t),
        STeXDocument._doc_info doc1 = Some doc_info
        /\ DocInfo.modules doc_info = [mA]
        /\ ModuleInfo.name mA = "A"
        /\ ModuleInfo.modules mA = [mB]
        /\ ModuleInfo.name mB = "A/B"
        /\ ModuleInfo.modules mB = [mC]
        /\ ModuleInfo.name mC = "A/B/C"
        /\ ModuleInfo.modules mC = []
        /\ DocInfo.get_module doc_info "A/B/C" = Some mC.
Proof.
  intros doc moduleC moduleB moduleA w.
  eexists. split; [vm_compute; reflexivity|].
  apply (nested_modules_are_qualified w Sample.hub_a doc _ 100
           1 98 20 60 30 40
           (ParsedArgs.mk [None; Sample.braced "A"] None None (Some "A"))
           (ParsedArgs.mk [None; Sample.braced "B"] None None (Some "B"))
           (ParsedArgs.mk [None; Sample.braced "C"] None None (Some "C"))
           "A" "B" "C"
           [LatexCharsNode 0 1] [] [Sample.macro1 5 "symdecl" "x"] [LatexCommentNode 85 2]
           [] [] [LatexCharsNode 45 3]);
    reflexivity.
Defined.

(* ------------------------------------------------------------------------- *)
(** * References into the document under construction                         *)
(* ------------------------------------------------------------------------- *)

(** The walk holds its current module by the index path of the object.
    The facts of this section show that the path handed to a step leads to
    that object throughout: the walk only appends, so a path that is valid
    stays valid, and the path made for a new module leads to it.  The branch
    of [attach_module] for a missing parent is therefore never taken on a walk
    that starts at the document root. *)

Lemma grows_push_dependency (dep : Dependency.t) : grows (push_dependency dep).
Proof. intros m. split; [reflexivity|]. exists []. simpl. now rewrite app_nil_r. Qed.

Lemma grows_push_module (new : ModuleInfo.t) : grows (push_module new).
Proof. intros m. split; [reflexivity|]. now exists [new]. Qed.

Lemma grows_record_symbol (declares : bool) (symbol verbalization : string) (pos len : Z) :
  grows (record_symbol declares symbol verbalization pos len).
Proof. intros m. split; [reflexivity|]. exists []. simpl. now rewrite app_nil_r. Qed.

Lemma alter_in_name (f : ModuleInfo.t -> ModuleInfo.t) (q : list nat) (m : ModuleInfo.t) :
  grows f -> ModuleInfo.name (alter_in f q m) = ModuleInfo.name m.
Proof. intros Hf. destruct q; simpl; [apply Hf|reflexivity]. Qed.

Lemma alter_in_extends (f : ModuleInfo.t -> ModuleInfo.t) :
  grows f ->
  forall (p q : list nat) (m x : ModuleInfo.t),
    module_in p m = Some x ->
    exists x', module_in p (alter_in f q m) = Some x'
               /\ ModuleInfo.name x' = ModuleInfo.name x.
Proof.
  intros Hf. induction p as [|i p IH]; intros q m x H.
  - injection H as <-. exists (alter_in f q m). split; [reflexivity|].
    now apply alter_in_name.
  - simpl in H. apply bind_Some in H as (c & Hc & Hx).
    destruct q as [|j q].
    + destruct (Hf m) as [_ [extra Hmods]]. exists x. split; [|reflexivity].
      simpl. rewrite Hmods, (lookup_app_l_Some _ _ _ _ Hc). exact Hx.
    + simpl. rewrite list_lookup_alter. destruct (decide (j = i)) as [->|Hne].
      * rewrite Hc. simpl. now apply IH.
      * rewrite Hc. simpl. now exists x.
Qed.

Lemma alter_at_extends (f : ModuleInfo.t -> ModuleInfo.t) (q : list nat)
    (ms : list ModuleInfo.t) :
  grows f -> tree_extends ms (alter_at f q ms).
Proof.
  intros Hf [|i p] m H; [discriminate|].
  simpl in H. apply bind_Some in H as (c & Hc & Hx).
  destruct q as [|j q]; simpl.
  - exists m. rewrite Hc. now split.
  - rewrite list_lookup_alter. destruct (decide (j = i)) as [->|Hne]; rewrite Hc; simpl.
    + now apply alter_in_extends.
    + now exists m.
Qed.

Lemma tree_extends_refl (ms : list ModuleInfo.t) : tree_extends ms ms.
Proof. intros p m H. now exists m. Qed.

Lemma tree_extends_trans (ms1 ms2 ms3 : list ModuleInfo.t) :
  tree_extends ms1 ms2 -> tree_extends ms2 ms3 -> tree_extends ms1 ms3.
Proof.
  intros H12 H23 p m H. apply H12 in H as (m2 & H2 & Hn2).
  apply H23 in H2 as (m3 & H3 & Hn3). exists m3. split; [exact H3|congruence].
Qed.

Lemma tree_extends_snoc (ms : list ModuleInfo.t) (new : ModuleInfo.t) :
  tree_extends ms (ms ++ [new]).
Proof.
  intros [|i p] m H; [discriminate|].
  simpl in H. apply bind_Some in H as (c & Hc & Hx).
  exists m. simpl. rewrite (lookup_app_l_Some _ _ _ _ Hc). now split.
Qed.

Lemma ref_valid_extends (module_info : option ModRef) (doc_info doc_info' : DocInfo.t) :
  ref_valid (module_info, doc_info) ->
  tree_extends (DocInfo.modules doc_info) (DocInfo.modules doc_info') ->
  ref_valid (module_info, doc_info').
Proof.
  destruct module_info as [r|]; [|easy].
  intros (m & Hm & Hname) Hext. apply Hext in Hm as (m' & Hm' & Hname').
  exists m'. split; [exact Hm'|]. simpl in *. congruence.
Qed.

(** the path made for a module appended below [p] leads to that module *)
Lemma module_in_attached (new : ModuleInfo.t) (p : list nat) :
  forall m parent : ModuleInfo.t,
    module_in p m = Some parent ->
    module_in (p ++ [length (ModuleInfo.modules parent)])
      (alter_in (push_module new) p m) = Some new.
Proof.
  induction p as [|i p IH]; intros m parent H.
  - injection H as <-. simpl. now rewrite list_lookup_middle.
  - simpl in H. apply bind_Some in H as (c & Hc & Hparent).
    simpl. rewrite list_lookup_alter. destruct (decide (i = i)) as [_|]; [|congruence].
    rewrite Hc. simpl. now apply IH.
Qed.

Lemma attach_module_refs_kept (new : ModuleInfo.t) (module_info : option ModRef)
    (doc_info : DocInfo.t) :
  let attached := attach_module new module_info doc_info in
  tree_extends (DocInfo.modules doc_info) (DocInfo.modules (snd attached))
  /\ (ref_valid (module_info, doc_info) -> ref_valid (Some (fst attached), snd attached)).
Proof.
  destruct module_info as [r|]; simpl.
  - split; [apply alter_at_extends, grows_push_module|].
    intros (parent & Hparent & _). simpl in Hparent. unfold ref_valid. simpl.
    rewrite Hparent.
    exists new. split; [|reflexivity].
    destruct (ref_path r) as [|i p]; [discriminate|].
    simpl in *. apply bind_Some in Hparent as (c & Hc & Hparent).
    rewrite list_lookup_alter. destruct (decide (i = i)) as [_|]; [|congruence].
    rewrite Hc. simpl. now apply module_in_attached.
  - split; [apply tree_extends_snoc|].
    intros _. exists new. split; [|reflexivity].
    simpl. now rewrite list_lookup_middle.
Qed.

Lemma refs_kept_refl (st : walk_state) : refs_kept st st.
Proof. split; [apply tree_extends_refl|easy]. Qed.

Lemma refs_kept_trans (st1 st2 st3 : walk_state) :
  refs_kept st1 st2 -> refs_kept st2 st3 -> refs_kept st1 st3.
Proof.
  intros [H1 H2] [H3 H4]. split; [now apply (tree_extends_trans _ _ _ H1)|auto].
Qed.

(** a step that updates the current module in place *)
Lemma refs_kept_update (f : ModuleInfo.t -> ModuleInfo.t) (r : ModRef)
    (module_info : option ModRef) (doc_info : DocInfo.t) :
  grows f ->
  refs_kept (module_info, doc_info) (module_info, update_module f r doc_info).
Proof.
  intros Hf.
  assert (Hext : tree_extends (DocInfo.modules doc_info)
                   (DocInfo.modules (update_module f r doc_info)))
    by now apply alter_at_extends.
  split; [exact Hext|]. intros Hvalid. now apply (ref_valid_extends _ doc_info).
Qed.

Lemma refs_kept_attach_dependency (dep : Dependency.t) (module_info mi : option ModRef)
    (doc_info : DocInfo.t) :
  refs_kept (module_info, doc_info) (module_info, attach_dependency dep mi doc_info).
Proof.
  destruct mi as [r|]; [apply refs_kept_update, grows_push_dependency|].
  split; [apply tree_extends_refl|]. intros Hvalid.
  apply (ref_valid_extends _ doc_info); [exact Hvalid|apply tree_extends_refl].
Qed.

Section References.
Variables (w : World) (mh : MathHub.t) (self : STeXDocument.t).

Lemma for_nodes_refs_kept (nodes : list LatexNode) :
  Forall (fun node =>
            forall parent_range st st',
              process_node w mh self node parent_range st = Ok st' -> refs_kept st st')
    nodes ->
  forall parent_range st st',
    for_nodes (process_node w mh self) nodes parent_range st = Ok st' -> refs_kept st st'.
Proof.
  induction 1 as [|node nodes Hnode _ IH]; intros parent_range st st' Hrun.
  - injection Hrun as <-. apply refs_kept_refl.
  - rewrite for_nodes_cons in Hrun.
    destruct (process_node w mh self node parent_range st) as [st1|] eqn:Hstep;
      [|discriminate].
    apply (refs_kept_trans _ st1); [now apply (Hnode parent_range)|now apply (IH parent_range)].
Qed.

Lemma call_process_refs_kept (nodes : list LatexNode) :
  Forall (fun node =>
            forall parent_range st st',
              process_node w mh self node parent_range st = Ok st' -> refs_kept st st')
    nodes ->
  forall parent_range st st',
    call_process (process_node w mh self) nodes parent_range st = Ok st' -> refs_kept st st'.
Proof.
  intros Hall parent_range [module_info doc_info] st' Hrun. unfold call_process in Hrun.
  destruct (for_nodes _ nodes parent_range _) as [st1|] eqn:Hloop; [|discriminate].
  injection Hrun as <-.
  destruct (for_nodes_refs_kept nodes Hall _ _ _ Hloop) as [Hext _].
  split; [exact Hext|]. intros Hvalid. now apply (ref_valid_extends _ doc_info).
Qed.

(** every step of the walk keeps the references valid *)
Lemma process_node_refs_kept (node : LatexNode) :
  forall parent_range st st',
    process_node w mh self node parent_range st = Ok st' -> refs_kept st st'.
Proof.
  induction node as [| | | |pos len nodelist IH|pos len name nodeargd nodelist IH
                     |pos len macroname nodeargd|]
    using LatexNode_nested_ind; intros parent_range [module_info doc_info] st' Hrun;
    simpl in Hrun.
  - injection Hrun as <-. apply refs_kept_refl.
  - injection Hrun as <-. apply refs_kept_refl.
  - injection Hrun as <-. apply refs_kept_refl.
  - injection Hrun as <-. apply refs_kept_refl.
  - now apply (call_process_refs_kept nodelist IH _ _ _ Hrun).
  - destruct (String.eqb name "smodule");
      [|now apply (call_process_refs_kept nodelist IH _ _ _ Hrun)].
    destruct (verbatim_inner _) as [local|]; [|discriminate]. simpl in Hrun.
    match type of Hrun with
    | context [attach_module ?new module_info doc_info] =>
        pose proof (attach_module_refs_kept new module_info doc_info) as Hattach;
        destruct (attach_module new module_info doc_info) as [new_ref doc_info1]
    end.
    destruct (signature_dependency _ _ _ _ _ _) as [sig_dep|]; [|discriminate].
    simpl in Hrun, Hattach. destruct Hattach as [Hext1 Hvalid1].
    apply (call_process_refs_kept nodelist IH) in Hrun as [Hext2 Hvalid2].
    assert (Hsig : refs_kept (Some new_ref, doc_info1)
                     (Some new_ref,
                      match sig_dep with
                      | Some dep => attach_dependency dep (Some new_ref) doc_info1
                      | None => doc_info1
                      end)).
    { destruct sig_dep; [apply refs_kept_attach_dependency|apply refs_kept_refl]. }
    destruct Hsig as [Hext3 Hvalid3].
    split.
    + apply (tree_extends_trans _ _ _ Hext1). now apply (tree_extends_trans _ _ _ Hext3).
    + auto.
  - destruct (Dict.get macroname DEPENDENCY_PRODUCER_BY_MACRONAME) as [dp|].
    + destruct (STeXDocument.get_rel_path self) as [rel_path|]; [|discriminate].
      simpl in Hrun.
      destruct (DependencyProducer.produce _ _ _ _ _ _ _ _ _ _) as [[dep|]|];
        simpl in Hrun; try discriminate; injection Hrun as <-.
      * apply refs_kept_attach_dependency.
      * apply refs_kept_refl.
    + destruct (is_symbol_macro macroname).
      * destruct (symbol_of_macro macroname nodeargd) as [[symbol verbalization]|];
          [|discriminate].
        simpl in Hrun. destruct module_info as [r|]; injection Hrun as <-.
        -- apply refs_kept_update, grows_record_symbol.
        -- apply refs_kept_refl.
      * injection Hrun as <-. apply refs_kept_refl.
  - discriminate.
Qed.

(** The walk of a whole document starts without a current module, so all
    states it passes through hold a valid reference. *)
Lemma process_refs_kept (nodes : list LatexNode) (parent_range : span)
    (st st' : walk_state) :
  process w mh self nodes parent_range st = Ok st' -> refs_kept st st'.
Proof.
  apply call_process_refs_kept, Forall_forall. intros node _.
  apply process_node_refs_kept.
Qed.

End References.

(* ------------------------------------------------------------------------- *)
(** * The walk as a sequence of updates                                       *)
(* ------------------------------------------------------------------------- *)

Section Reach.
Variables (w : World) (mh : MathHub.t) (self : STeXDocument.t).

Lemma for_nodes_reach (nodes : list LatexNode) :
  Forall (fun node =>
            forall parent_range st st',
              process_node w mh self node parent_range st = Ok st' ->
              reach w mh self st st') nodes ->
  forall parent_range st st',
    for_nodes (process_node w mh self) nodes parent_range st = Ok st' ->
    reach w mh self st st'.
Proof.
  induction 1 as [|node nodes Hnode _ IH]; intros parent_range st st' Hrun.
  - injection Hrun as <-. apply reach_here.
  - rewrite for_nodes_cons in Hrun.
    destruct (process_node w mh self node parent_range st) as [st1|] eqn:Hstep;
      [|discriminate].
    apply (reach_then _ _ _ _ st1); [now apply (Hnode parent_range)|now apply (IH parent_range)].
Qed.

Lemma call_process_reach (nodes : list LatexNode) :
  Forall (fun node =>
            forall parent_range st st',
              process_node w mh self node parent_range st = Ok st' ->
              reach w mh self st st') nodes ->
  forall parent_range st st',
    call_process (process_node w mh self) nodes parent_range st = Ok st' ->
    reach w mh self st st'.
Proof.
  intros Hall parent_range st st' Hrun. unfold call_process in Hrun.
  destruct (for_nodes _ nodes parent_range st) as [st1|] eqn:Hloop; [|discriminate].
  injection Hrun as <-. apply reach_return.
  now apply (for_nodes_reach nodes Hall parent_range).
Qed.

(** every returning step of the walk is a sequence of the updates of
    [reach] *)
Lemma process_node_reach (node : LatexNode) :
  forall parent_range st st',
    process_node w mh self node parent_range st = Ok st' -> reach w mh self st st'.
Proof.
  induction node as [| | | |pos len nodelist IH|pos len name nodeargd nodelist IH
                     |pos len macroname nodeargd|]
    using LatexNode_nested_ind; intros parent_range [module_info doc_info] st' Hrun;
    simpl in Hrun.
  - injection Hrun as <-. apply reach_here.
  - injection Hrun as <-. apply reach_here.
  - injection Hrun as <-. apply reach_here.
  - injection Hrun as <-. apply reach_here.
  - now apply (call_process_reach nodelist IH _ _ _ Hrun).
  - destruct (String.eqb name "smodule");
      [|now apply (call_process_reach nodelist IH _ _ _ Hrun)].
    destruct (verbatim_inner _) as [local|]; [|discriminate]. simpl in Hrun.
    pose proof (reach_module w mh self module_info doc_info local) as Hmodule.
    cbn zeta in Hmodule.
    assert (Hname : ref_name
                      (fst (attach_module
                              (ModuleInfo.mk
                                 match module_info with
                                 | Some r => ref_name r +:+ "/" +:+ local
                                 | None => local
                                 end [] [] []) module_info doc_info))
                    = match module_info with
                      | Some r => ref_name r +:+ "/" +:+ local
                      | None => local
                      end) by now destruct module_info.
    destruct (attach_module _ module_info doc_info) as [new_ref doc_info1].
    simpl in Hmodule, Hname.
    destruct (signature_dependency _ _ _ _ _ _) as [sig_dep|] eqn:Hsig; [|discriminate].
    simpl in Hrun. rewrite <- Hname in Hsig.
    apply (call_process_reach nodelist IH) in Hrun.
    apply (reach_then _ _ _ _ _ _ Hmodule).
    refine (reach_then _ _ _ _ _ _ _ Hrun).
    destruct sig_dep as [dep|]; [|apply reach_here].
    now apply (reach_signature w mh self new_ref doc_info1 pos len nodeargd dep).
  - destruct (Dict.get macroname DEPENDENCY_PRODUCER_BY_MACRONAME) as [dp|].
    + destruct (STeXDocument.get_rel_path self) as [rel_path|]; [|discriminate].
      simpl in Hrun.
      destruct (DependencyProducer.produce _ _ _ _ _ _ _ _ _ _) as [[dep|]|] eqn:Hdep;
        simpl in Hrun; try discriminate; injection Hrun as <-.
      * now apply (reach_dependency w mh self _ _ _ _ _ _ _ _ _ Hdep).
      * apply reach_here.
    + destruct (is_symbol_macro macroname).
      * destruct (symbol_of_macro macroname nodeargd) as [[symbol verbalization]|];
          [|discriminate].
        simpl in Hrun. destruct module_info as [r|]; injection Hrun as <-.
        -- apply reach_symbol.
        -- apply reach_here.
      * injection Hrun as <-. apply reach_here.
  - discriminate.
Qed.

(** the walk of a document that [create_doc_info] returns from *)
Lemma create_doc_info_reach (doc1 : STeXDocument.t) :
  create_doc_info w mh self = Ok doc1 ->
  exists (mtime : Z) (st : walk_state),
    st_mtime w (STeXDocument.path self) = Some mtime
    /\ reach w mh self (None, DocInfo.mk mtime [] []) st
    /\ doc1 = STeXDocument.set_doc_info (Some (snd st)) self.
Proof.
  intros H. unfold create_doc_info in H.
  destruct (get_latex_nodes w _) as [[nodes text_len]|]; [|discriminate]. simpl in H.
  destruct (st_mtime w _) as [mtime|]; [|discriminate]. simpl in H.
  destruct (process _ _ _ _ _ _) as [st|] eqn:Hwalk; [|discriminate].
  simpl in H. injection H as <-.
  exists mtime, st. split; [reflexivity|]. split; [|reflexivity].
  revert Hwalk. apply call_process_reach, Forall_forall. intros node _.
  apply process_node_reach.
Qed.

Lemma reach_refs_kept (st st' : walk_state) :
  reach w mh self st st' -> refs_kept st st'.
Proof.
  induction 1 as [st|st1 st2 st3 _ IH1 _ IH2|st st' _ IH
                  |module_info doc_info dp pos len nodeargd from_subdir parent_range dep _
                  |r doc_info declares symbol verbalization pos len
                  |module_info doc_info local
                  |r doc_info pos len nodeargd dep _].
  - apply refs_kept_refl.
  - now apply (refs_kept_trans _ st2).
  - destruct IH as [Hext _]. destruct st as [module_info doc_info].
    split; [exact Hext|]. intros Hvalid. now apply (ref_valid_extends _ doc_info).
  - apply refs_kept_attach_dependency.
  - apply refs_kept_update, grows_record_symbol.
  - apply attach_module_refs_kept.
  - apply refs_kept_attach_dependency.
Qed.

(** A property of the document is kept along the walk once each update
    keeps it on a state whose current module is found in the document. *)
Lemma reach_preserves (J : DocInfo.t -> Prop) :
  (forall module_info doc_info dp pos len nodeargd from_subdir parent_range dep,
      DependencyProducer.produce w dp pos len nodeargd
        (ArchiveRef.get_archive_name (STeXDocument.archive self)) from_subdir mh
        parent_range (lang_of_document self) = Ok (Some dep) ->
      ref_valid (module_info, doc_info) -> J doc_info ->
      J (attach_dependency dep module_info doc_info)) ->
  (forall r doc_info declares symbol verbalization pos len,
      ref_valid (Some r, doc_info) -> J doc_info ->
      J (update_module (record_symbol declares symbol verbalization pos len) r doc_info)) ->
  (forall module_info doc_info local,
      ref_valid (module_info, doc_info) -> J doc_info ->
      J (snd (attach_module
                (ModuleInfo.mk
                   match module_info with
                   | Some r => ref_name r +:+ "/" +:+ local
                   | None => local
                   end [] [] []) module_info doc_info))) ->
  (forall r doc_info pos len nodeargd dep,
      signature_dependency w self pos len nodeargd (ref_name r) = Ok (Some dep) ->
      ref_valid (Some r, doc_info) -> J doc_info ->
      J (attach_dependency dep (Some r) doc_info)) ->
  forall st st', reach w mh self st st' -> ref_valid st -> J (snd st) -> J (snd st').
Proof.
  intros Hdep Hsym Hmod Hsig st st' Hreach.
  induction Hreach as [st|st1 st2 st3 H12 IH1 _ IH2|st st' _ IH
                       |module_info doc_info dp pos len nodeargd from_subdir parent_range dep Hp
                       |r doc_info declares symbol verbalization pos len
                       |module_info doc_info local
                       |r doc_info pos len nodeargd dep Hs]; intros Hvalid HJ.
  - exact HJ.
  - apply IH2; [|now apply IH1]. now apply (reach_refs_kept _ _ H12).
  - now apply IH.
  - now apply (Hdep _ _ _ _ _ _ _ _ _ Hp).
  - now apply Hsym.
  - now apply Hmod.
  - now apply (Hsig _ _ _ _ _ _ Hs).
Qed.

End Reach.

(* ------------------------------------------------------------------------- *)
(** * Properties of every module of an analysed document                      *)
(* ------------------------------------------------------------------------- *)

Lemma every_module_iff (Q : ModuleInfo.t -> Prop) (ms : list ModuleInfo.t) :
  every_module Q ms <-> Forall (fun m => Forall Q (ModuleInfo.iter_modules m)) ms.
Proof.
  unfold every_module. induction ms as [|m ms IH]; simpl.
  - split; constructor.
  - rewrite Forall_app, Forall_cons, IH. reflexivity.
Qed.

Lemma iter_modules_unfold (m : ModuleInfo.t) :
  ModuleInfo.iter_modules m
  = m :: flat_map ModuleInfo.iter_modules (ModuleInfo.modules m).
Proof. now destruct m. Qed.

Lemma every_alter_in (Q : ModuleInfo.t -> Prop) (f : ModuleInfo.t -> ModuleInfo.t) :
  by_child_names Q -> grows f ->
  forall (p : list nat) (m : ModuleInfo.t),
    (forall x, module_in p m = Some x ->
               Forall Q (ModuleInfo.iter_modules x) ->
               Forall Q (ModuleInfo.iter_modules (f x))) ->
    Forall Q (ModuleInfo.iter_modules m) ->
    Forall Q (ModuleInfo.iter_modules (alter_in f p m)).
Proof.
  intros Hnames Hf. induction p as [|i p IH]; intros m Hstep Hall.
  - now apply Hstep.
  - destruct m as [name deps syms subs]. simpl in *.
    apply Forall_cons in Hall as [Hhead Htail]. apply Forall_cons. split.
    + revert Hhead. apply Hnames. apply map_alter_invariant.
      intros c. now apply alter_in_name.
    + apply (every_module_iff Q) in Htail. apply (every_module_iff Q).
      apply Forall_alter; [exact Htail|].
      intros c Hc Hcall. apply IH; [|exact Hcall].
      intros x Hx. apply Hstep. now rewrite Hc.
Qed.

Lemma every_module_update (Q : ModuleInfo.t -> Prop) (f : ModuleInfo.t -> ModuleInfo.t)
    (r : ModRef) (doc_info : DocInfo.t) :
  by_child_names Q -> grows f ->
  (forall x, module_at (ref_path r) (DocInfo.modules doc_info) = Some x ->
             Forall Q (ModuleInfo.iter_modules x) ->
             Forall Q (ModuleInfo.iter_modules (f x))) ->
  every_module Q (DocInfo.modules doc_info) ->
  every_module Q (DocInfo.modules (update_module f r doc_info)).
Proof.
  intros Hnames Hf Hstep Hall. simpl.
  destruct (ref_path r) as [|i p]; [exact Hall|]. simpl in *.
  apply (every_module_iff Q) in Hall. apply (every_module_iff Q).
  apply Forall_alter; [exact Hall|].
  intros c Hc Hcall. apply every_alter_in; try assumption.
  intros x Hx. apply Hstep. now rewrite Hc.
Qed.

(** an update of the module itself that keeps its submodules *)
Lemma every_module_local (Q : ModuleInfo.t -> Prop) (f : ModuleInfo.t -> ModuleInfo.t)
    (x : ModuleInfo.t) :
  ModuleInfo.modules (f x) = ModuleInfo.modules x ->
  (Q x -> Q (f x)) ->
  Forall Q (ModuleInfo.iter_modules x) -> Forall Q (ModuleInfo.iter_modules (f x)).
Proof.
  intros Hmods HQ. rewrite !iter_modules_unfold, Hmods, !Forall_cons.
  intros [H1 H2]. split; [now apply HQ|exact H2].
Qed.

Section EveryModule.
Variables (w : World) (mh : MathHub.t) (self : STeXDocument.t).
Variables (Q : ModuleInfo.t -> Prop) (D : Dependency.t -> Prop).
Hypothesis Q_by_child_names : by_child_names Q.
Hypothesis Q_dependency : forall dep m, D dep -> Q m -> Q (push_dependency dep m).
Hypothesis Q_symbol :
  forall declares symbol verbalization pos len m,
    Q m -> Q (record_symbol declares symbol verbalization pos len m).
Hypothesis Q_new : forall name, Q (ModuleInfo.mk name [] [] []).
Hypothesis Q_submodule :
  forall m local,
    Q m -> Q (push_module (ModuleInfo.mk (ModuleInfo.name m +:+ "/" +:+ local) [] [] []) m).
Hypothesis D_produce :
  forall dp pos len nodeargd from_subdir parent_range dep,
    DependencyProducer.produce w dp pos len nodeargd
      (ArchiveRef.get_archive_name (STeXDocument.archive self)) from_subdir mh
      parent_range (lang_of_document self) = Ok (Some dep) -> D dep.
Hypothesis D_signature :
  forall pos len nodeargd name dep,
    signature_dependency w self pos len nodeargd name = Ok (Some dep) -> D dep.

Lemma every_module_attach_dependency (dep : Dependency.t) (module_info : option ModRef)
    (doc_info : DocInfo.t) :
  D dep ->
  every_module Q (DocInfo.modules doc_info) ->
  every_module Q (DocInfo.modules (attach_dependency dep module_info doc_info)).
Proof.
  intros Hdep Hall. destruct module_info as [r|]; [|exact Hall].
  apply every_module_update; try assumption; [apply grows_push_dependency|].
  intros x _. apply every_module_local; [reflexivity|now apply Q_dependency].
Qed.

(** the property holds for every module of the document at every state of
    the walk *)
Lemma reach_every_module (st st' : walk_state) :
  reach w mh self st st' -> ref_valid st ->
  every_module Q (DocInfo.modules (snd st)) ->
  every_module Q (DocInfo.modules (snd st')).
Proof.
  apply (reach_preserves w mh self (fun d => every_module Q (DocInfo.modules d))).
  - intros module_info doc_info dp pos len nodeargd from_subdir parent_range dep Hp _.
    apply every_module_attach_dependency. now apply D_produce in Hp.
  - intros r doc_info declares symbol verbalization pos len _.
    apply every_module_update; try assumption; [apply grows_record_symbol|].
    intros x _. apply every_module_local; [reflexivity|apply Q_symbol].
  - intros [r|] doc_info local Hvalid Hall.
    + apply every_module_update; try assumption; [apply grows_push_module|].
      destruct Hvalid as (parent & Hparent & Hname). simpl in Hparent, Hname.
      intros x Hx. rewrite Hparent in Hx. injection Hx as <-. rewrite <- Hname.
      rewrite !iter_modules_unfold. simpl. rewrite flat_map_app, !Forall_cons, Forall_app.
      simpl. intros [H1 H2]. split; [now apply Q_submodule|].
      split; [exact H2|]. repeat constructor. apply Q_new.
    + simpl. unfold every_module in *. rewrite flat_map_app, Forall_app. split; [exact Hall|].
      simpl. repeat constructor. apply Q_new.
  - intros r doc_info pos len nodeargd dep Hs _.
    apply every_module_attach_dependency. now apply D_signature in Hs.
Qed.

Lemma create_doc_info_every_module (doc1 : STeXDocument.t) :
  create_doc_info w mh self = Ok doc1 ->
  exists doc_info,
    STeXDocument._doc_info doc1 = Some doc_info
    /\ Forall Q (DocInfo.iter_modules doc_info).
Proof.
  intros H. apply create_doc_info_reach in H as (mtime & st & _ & Hreach & ->).
  exists (snd st). split; [reflexivity|].
  apply (reach_every_module _ _ Hreach); [exact I|constructor].
Qed.

End EveryModule.

(* ------------------------------------------------------------------------- *)
(** * What [produce] returns                                                  *)
(* ------------------------------------------------------------------------- *)

Lemma first_resolved_returns (w : World) (archive : Repository.t)
    (top_dir lang : string) (path_options : list string) (file : option string) :
  DependencyProducer.first_resolved w archive top_dir lang path_options = Ok file ->
  path_options = [] /\ file = None.
Proof.
  destruct path_options as [|path_option rest]; simpl; [|discriminate].
  intros H. injection H as <-. now split.
Qed.

(** X1. [produce] returns no dependency exactly when the invocation has no
    main argument.  A dependency it returns has no file, carries the three
    flags of the producer, the range it was given as [valid_range] and the
    span of the macro as [intro_range]; its archive is the name asked for
    (the override, else the archive of the document) when the hub does not
    hold that archive, and the name of the archive found otherwise. *)
Theorem produce_returns (w : World) (dp : DependencyProducer.t) (pos len : Z)
    (nodeargd : ParsedArgs.t) (from_archive from_subdir : string) (mh : MathHub.t)
    (valid_range : span) (lang : string) :
  let asked :=
    Py.or_else (DependencyProducer.target_archive_of dp nodeargd) from_archive in
  (DependencyProducer.produce w dp pos len nodeargd from_archive from_subdir mh
     valid_range lang = Ok None
   <-> ParsedArgs.get_first_main_arg nodeargd = None)
  /\ (forall dep,
        DependencyProducer.produce w dp pos len nodeargd from_archive from_subdir mh
          valid_range lang = Ok (Some dep) ->
        Dependency.file dep = None
        /\ Dependency.is_lib dep = DependencyProducer.is_lib dp
        /\ Dependency.is_use dep = DependencyProducer.is_use dp
        /\ Dependency.target_no_tex dep = DependencyProducer.target_no_tex dp
        /\ Dependency.valid_range dep = Some valid_range
        /\ Dependency.intro_range dep = Some (pos, pos + len)
        /\ Dependency.archive dep
           = match MathHub.get_archive mh asked with
             | Some archive => Repository.get_archive_name archive
             | None => asked
             end).
Proof.
  intros asked. unfold DependencyProducer.produce. fold asked.
  destruct (ParsedArgs.get_first_main_arg nodeargd) as [main_arg|].
  - assert (Hsome : forall (r : result (option string)) (f : option string -> Dependency.t),
               (r ≫= fun file => Ok (Some (f file))) <> Ok None).
    { intros [file|e] f; discriminate. }
    split.
    + split; [|discriminate].
      destruct (MathHub.get_archive mh asked) as [archive|]; [|discriminate].
      destruct (DependencyProducer.references_module dp).
      * destruct (if Py.contains "?" main_arg then _ else _) as [path module_name].
        intros H. now apply Hsome in H.
      * destruct (DependencyProducer.target_no_tex dp); [discriminate|].
        intros H. now apply Hsome in H.
    + intros dep. destruct (MathHub.get_archive mh asked) as [archive|].
      * destruct (DependencyProducer.references_module dp).
        -- destruct (if Py.contains "?" main_arg then _ else _) as [path module_name].
           destruct (DependencyProducer.first_resolved _ _ _ _ _) as [file|] eqn:Hfile;
             [|discriminate].
           apply first_resolved_returns in Hfile as [_ ->].
           intros H. injection H as <-. now repeat split.
        -- destruct (DependencyProducer.target_no_tex dp) eqn:Hno_tex.
           ++ intros H. injection H as <-. now repeat split.
           ++ destruct (DependencyProducer.first_resolved _ _ _ _ _) as [file|] eqn:Hfile;
                [|discriminate].
              apply first_resolved_returns in Hfile as [_ ->].
              intros H. injection H as <-. now repeat split.
      * intros H. injection H as <-. now repeat split.
  - split; [easy|discriminate].
Qed.

(** white space around the archive of an optional argument is dropped,
    U+00A0 (the bytes 194, 160) like a blank; an argument of white space only
    names no archive, and the archive of the document is taken *)
Example target_archive_is_stripped :
  let dp := DependencyProducer.mk "usemodule" true true false false true false in
  let nbsp := String "194" (String "160" EmptyString) in
  let opt (text : string) := ParsedArgs.mk [] (Some text) None (Some "mod") in
  DependencyProducer.target_archive_of dp (opt (nbsp +:+ " b" +:+ nbsp)) = Some "b"
  /\ Py.or_else (DependencyProducer.target_archive_of dp (opt nbsp)) "a" = "a"
  /\ DependencyProducer.produce Sample.bare dp 0 20 (opt (nbsp +:+ "b ")) "a" "" Sample.hub_a
       (0, 100) "en"
     = Ok (Some (Dependency.mk "b" None None false true false (Some (0, 100)) (Some (0, 20))))
  /\ DependencyProducer.produce Sample.bare dp 0 20 (opt nbsp) "a" "" Sample.hub_a
       (0, 100) "en"
     = Raise TypeError.
Proof. repeat split. Qed.

Lemma produce_ranged (w : World) (dp : DependencyProducer.t) (pos len : Z)
    (nodeargd : ParsedArgs.t) (from_archive from_subdir : string) (mh : MathHub.t)
    (valid_range : span) (lang : string) (dep : Dependency.t) :
  DependencyProducer.produce w dp pos len nodeargd from_archive from_subdir mh
    valid_range lang = Ok (Some dep) ->
  ranged dep.
Proof.
  unfold DependencyProducer.produce.
  destruct (ParsedArgs.get_first_main_arg nodeargd) as [main_arg|]; [|discriminate].
  destruct (MathHub.get_archive mh _) as [archive|].
  - destruct (DependencyProducer.references_module dp).
    + destruct (if Py.contains "?" main_arg then _ else _) as [path module_name].
      destruct (DependencyProducer.first_resolved _ _ _ _ _) as [file|]; [|discriminate].
      intros H. injection H as <-. split; eexists; reflexivity.
    + destruct (DependencyProducer.target_no_tex dp).
      * intros H. injection H as <-. split; eexists; reflexivity.
      * destruct (DependencyProducer.first_resolved _ _ _ _ _) as [file|]; [|discriminate].
        intros H. injection H as <-. split; eexists; reflexivity.
  - intros H. injection H as <-. split; eexists; reflexivity.
Qed.

Lemma signature_dependency_ranged (w : World) (doc : STeXDocument.t) (pos len : Z)
    (nodeargd : ParsedArgs.t) (name : string) (dep : Dependency.t) :
  signature_dependency w doc pos len nodeargd name = Ok (Some dep) -> ranged dep.
Proof.
  unfold signature_dependency.
  destruct (_ ≫= _) as [sig_val|]; [|discriminate].
  destruct (negb (Py.truthy sig_val)); [discriminate|].
  destruct (if (2 <? _)%nat then _ else _) as [file_field|]; [|discriminate].
  simpl. intros H. injection H as <-. split; eexists; reflexivity.
Qed.

(* ------------------------------------------------------------------------- *)
(** * Invariants of the DocInfo of an analysed document                       *)
(* ------------------------------------------------------------------------- *)

Lemma push_verbalization_name (hit : string * Z * Z) (s : Symbol.t) :
  Symbol.name (push_verbalization hit s) = Symbol.name s.
Proof. reflexivity. Qed.

Lemma record_symbol_distinct (declares : bool) (symbol verbalization : string)
    (pos len : Z) (m : ModuleInfo.t) :
  distinct_symbols m ->
  distinct_symbols (record_symbol declares symbol verbalization pos len m).
Proof.
  unfold distinct_symbols, record_symbol. simpl. intros Hnodup.
  destruct (list_find _ _) as [[i s]|] eqn:Hfind.
  - rewrite (map_alter_invariant Symbol.name); [exact Hnodup|].
    intros x. apply push_verbalization_name.
  - rewrite map_app. simpl. apply NoDup_app. split; [exact Hnodup|]. split.
    + intros name Hin Hnew. apply list_elem_of_singleton in Hnew as ->.
      apply list_find_None in Hfind.
      apply list_elem_of_In, in_map_iff in Hin as (s & Hs & Hin).
      apply list_elem_of_In in Hin.
      rewrite Forall_forall in Hfind. now apply (Hfind s Hin).
    + apply NoDup_singleton.
Qed.

(** X2. In the DocInfo of every analysis that returns, the symbols of each
    module, at every depth, have pairwise different names. *)
Theorem analysed_symbols_are_distinct (w : World) (mh : MathHub.t)
    (doc doc1 : STeXDocument.t) :
  create_doc_info w mh doc = Ok doc1 ->
  exists doc_info,
    STeXDocument._doc_info doc1 = Some doc_info
    /\ Forall distinct_symbols (DocInfo.iter_modules doc_info).
Proof.
  apply (create_doc_info_every_module w mh doc distinct_symbols (fun _ => True)).
  - intros name deps syms subs subs' _ H. exact H.
  - intros dep m _ H. exact H.
  - intros. now apply record_symbol_distinct.
  - intros name. apply NoDup_nil_2.
  - intros m local H. exact H.
  - trivial.
  - trivial.
Qed.

Lemma analysed_symbols_are_distinct_witness :
  exists doc1,
    create_doc_info Demo.world Sample.hub_a Demo.doc = Ok doc1
    /\ exists doc_info,
        STeXDocument._doc_info doc1 = Some doc_info
        /\ Forall distinct_symbols (DocInfo.iter_modules doc_info).
Proof.
  eexists. split; [vm_compute; reflexivity|].
  apply (analysed_symbols_are_distinct Demo.world Sample.hub_a Demo.doc). reflexivity.
Defined.

Lemma push_verbalization_grounded (hit : string * Z * Z) (s : Symbol.t) :
  symbol_grounded s -> symbol_grounded (push_verbalization hit s).
Proof.
  unfold symbol_grounded, push_verbalization. simpl.
  destruct (Symbol.verbalizations s) as [|[[text start] stop] rest]; simpl; [easy|].
  intros H. exact H.
Qed.

Lemma record_symbol_grounded (declares : bool) (symbol verbalization : string)
    (pos len : Z) (m : ModuleInfo.t) :
  Forall symbol_grounded (ModuleInfo.symbols m) ->
  Forall symbol_grounded
    (ModuleInfo.symbols (record_symbol declares symbol verbalization pos len m)).
Proof.
  unfold record_symbol. simpl. intros Hall.
  destruct (list_find _ _) as [[i s]|].
  - apply Forall_alter; [exact Hall|]. intros x _. apply push_verbalization_grounded.
  - apply Forall_app. split; [exact Hall|]. apply Forall_singleton.
    unfold symbol_grounded, push_verbalization. simpl.
    destruct declares; [now right|now left].
Qed.

(** X3. In the DocInfo of every analysis that returns, every Symbol of
    every module has at least one verbalization, and its declaration span,
    when set, is the span of its first verbalization: a declaration span is
    the span of the macro that created the Symbol. *)
Theorem analysed_symbols_are_grounded (w : World) (mh : MathHub.t)
    (doc doc1 : STeXDocument.t) :
  create_doc_info w mh doc = Ok doc1 ->
  exists doc_info,
    STeXDocument._doc_info doc1 = Some doc_info
    /\ Forall (fun m => Forall symbol_grounded (ModuleInfo.symbols m))
         (DocInfo.iter_modules doc_info).
Proof.
  apply (create_doc_info_every_module w mh doc
           (fun m => Forall symbol_grounded (ModuleInfo.symbols m)) (fun _ => True)).
  - intros name deps syms subs subs' _ H. exact H.
  - intros dep m _ H. exact H.
  - intros. now apply record_symbol_grounded.
  - intros name. constructor.
  - intros m local H. exact H.
  - trivial.
  - trivial.
Qed.

Lemma analysed_symbols_are_grounded_witness :
  exists doc1,
    create_doc_info Demo.world Sample.hub_a Demo.doc = Ok doc1
    /\ exists doc_info,
        STeXDocument._doc_info doc1 = Some doc_info
        /\ Forall (fun m => Forall symbol_grounded (ModuleInfo.symbols m))
             (DocInfo.iter_modules doc_info).
Proof.
  eexists. split; [vm_compute; reflexivity|].
  apply (analysed_symbols_are_grounded Demo.world Sample.hub_a Demo.doc). reflexivity.
Defined.

(** X4. In the DocInfo of every analysis that returns, the name of every
    submodule, at every depth, is the name of the module that holds it, a
    slash, and a local name. *)
Theorem analysed_submodules_are_qualified (w : World) (mh : MathHub.t)
    (doc doc1 : STeXDocument.t) :
  create_doc_info w mh doc = Ok doc1 ->
  exists doc_info,
    STeXDocument._doc_info doc1 = Some doc_info
    /\ Forall qualifies_submodules (DocInfo.iter_modules doc_info).
Proof.
  apply (create_doc_info_every_module w mh doc qualifies_submodules (fun _ => True)).
  - intros name deps syms subs subs' Hnames. unfold qualifies_submodules. simpl.
    now rewrite Hnames.
  - intros dep m _ H. exact H.
  - intros declares symbol verbalization pos len m H. exact H.
  - intros name. constructor.
  - intros m local. unfold qualifies_submodules. simpl. rewrite map_app, Forall_app.
    intros H. split; [exact H|]. repeat constructor. now exists local.
  - trivial.
  - trivial.
Qed.

Lemma analysed_submodules_are_qualified_witness :
  exists doc1,
    create_doc_info Demo.world Sample.hub_a Demo.doc = Ok doc1
    /\ exists doc_info,
        STeXDocument._doc_info doc1 = Some doc_info
        /\ Forall qualifies_submodules (DocInfo.iter_modules doc_info).
Proof.
  eexists. split; [vm_compute; reflexivity|].
  apply (analysed_submodules_are_qualified Demo.world Sample.hub_a Demo.doc). reflexivity.
Defined.

Lemma reach_doc_dependencies_ranged (w : World) (mh : MathHub.t) (self : STeXDocument.t)
    (st st' : walk_state) :
  reach w mh self st st' -> ref_valid st ->
  Forall ranged (DocInfo.dependencies (snd st)) ->
  Forall ranged (DocInfo.dependencies (snd st')).
Proof.
  apply (reach_preserves w mh self (fun d => Forall ranged (DocInfo.dependencies d))).
  - intros [r|] doc_info dp pos len nodeargd from_subdir parent_range dep Hp _ Hall;
      simpl; [exact Hall|].
    apply Forall_app. split; [exact Hall|]. apply Forall_singleton.
    now apply produce_ranged in Hp.
  - intros r doc_info declares symbol verbalization pos len _ Hall. exact Hall.
  - intros [r|] doc_info local _ Hall; exact Hall.
  - intros r doc_info pos len nodeargd dep _ _ Hall. exact Hall.
Qed.

(** X5. In the DocInfo of every analysis that returns, every dependency,
    of the document and of each module at every depth, has both its
    [valid_range] and its [intro_range] set. *)
Theorem analysed_dependencies_are_ranged (w : World) (mh : MathHub.t)
    (doc doc1 : STeXDocument.t) :
  create_doc_info w mh doc = Ok doc1 ->
  exists doc_info,
    STeXDocument._doc_info doc1 = Some doc_info
    /\ Forall ranged (DocInfo.dependencies doc_info)
    /\ Forall (fun m => Forall ranged (ModuleInfo.dependencies m))
         (DocInfo.iter_modules doc_info).
Proof.
  intros H.
  destruct (create_doc_info_every_module w mh doc
              (fun m => Forall ranged (ModuleInfo.dependencies m)) ranged) with (doc1 := doc1)
    as (doc_info & Hinfo & Hmods); try assumption.
  - intros name deps syms subs subs' _ Hq. exact Hq.
  - intros dep m Hd Hq. simpl. apply Forall_app. split; [exact Hq|].
    now apply Forall_singleton.
  - intros declares symbol verbalization pos len m Hq. exact Hq.
  - intros name. constructor.
  - intros m local Hq. exact Hq.
  - intros dp pos len nodeargd from_subdir parent_range dep. apply produce_ranged.
  - intros pos len nodeargd name dep. apply signature_dependency_ranged.
  - exists doc_info. split; [exact Hinfo|]. split; [|exact Hmods].
    apply create_doc_info_reach in H as (mtime & st & _ & Hreach & ->).
    simpl in Hinfo. injection Hinfo as <-.
    apply (reach_doc_dependencies_ranged _ _ _ _ _ Hreach); [exact I|constructor].
Qed.

Lemma analysed_dependencies_are_ranged_witness :
  exists doc1,
    create_doc_info Demo.world Sample.hub_a Demo.doc = Ok doc1
    /\ exists doc_info,
        STeXDocument._doc_info doc1 = Some doc_info
        /\ Forall ranged (DocInfo.dependencies doc_info)
        /\ Forall (fun m => Forall ranged (ModuleInfo.dependencies m))
             (DocInfo.iter_modules doc_info).
Proof.
  eexists. split; [vm_compute; reflexivity|].
  apply (analysed_dependencies_are_ranged Demo.world Sample.hub_a Demo.doc). reflexivity.
Defined.

Lemma reach_last_modified (w : World) (mh : MathHub.t) (self : STeXDocument.t)
    (mtime : Z) (st st' : walk_state) :
  reach w mh self st st' -> ref_valid st ->
  DocInfo.last_modified (snd st) = mtime -> DocInfo.last_modified (snd st') = mtime.
Proof.
  apply (reach_preserves w mh self (fun d => DocInfo.last_modified d = mtime)).
  - intros [r|] doc_info dp pos len nodeargd from_subdir parent_range dep _ _ H; exact H.
  - intros r doc_info declares symbol verbalization pos len _ H. exact H.
  - intros [r|] doc_info local _ H; exact H.
  - intros r doc_info pos len nodeargd dep _ _ H. exact H.
Qed.

(** X6. The DocInfo of an analysis that returns is stamped with the
    modification time of the file.  Hence, in the same world, the staleness
    check that follows an analysis keeps the cache, and [get_doc_info]
    returns the DocInfo just computed. *)
Theorem analysis_is_fresh (w : World) (mh : MathHub.t) (doc doc1 : STeXDocument.t) :
  create_doc_info w mh doc = Ok doc1 ->
  exists doc_info,
    STeXDocument._doc_info doc1 = Some doc_info
    /\ st_mtime w (STeXDocument.path doc) = Some (DocInfo.last_modified doc_info)
    /\ STeXDocument.delete_doc_info_if_outdated w doc1 = Ok doc1
    /\ get_doc_info w mh doc1 = Ok (doc_info, doc1).
Proof.
  intros H. apply create_doc_info_reach in H as (mtime & st & Hmtime & Hreach & ->).
  pose proof (reach_last_modified w mh doc mtime _ _ Hreach I eq_refl) as Hstamp.
  exists (snd st). split; [reflexivity|]. split; [now rewrite Hstamp|]. split.
  - rewrite (delete_doc_info_if_outdated_cached w
               (STeXDocument.set_doc_info (Some (snd st)) doc) (snd st) mtime eq_refl Hmtime).
    rewrite Hstamp. now rewrite Z.ltb_irrefl.
  - reflexivity.
Qed.

Lemma analysis_is_fresh_witness :
  exists doc1,
    create_doc_info Demo.world Sample.hub_a Demo.doc = Ok doc1
    /\ exists doc_info,
        STeXDocument._doc_info doc1 = Some doc_info
        /\ st_mtime Demo.world (STeXDocument.path Demo.doc)
           = Some (DocInfo.last_modified doc_info)
        /\ STeXDocument.delete_doc_info_if_outdated Demo.world doc1 = Ok doc1
        /\ get_doc_info Demo.world Sample.hub_a doc1 = Ok (doc_info, doc1).
Proof.
  eexists. split; [vm_compute; reflexivity|].
  apply (analysis_is_fresh Demo.world Sample.hub_a Demo.doc). reflexivity.
Defined.

(* ------------------------------------------------------------------------- *)
(** * Nodes without effect                                                    *)
(* ------------------------------------------------------------------------- *)

Section Inert.
Variables (w : World) (mh : MathHub.t) (self : STeXDocument.t).

Lemma for_nodes_inert (nodes : list LatexNode) :
  Forall (fun node =>
            inert node = true ->
            forall parent_range st, process_node w mh self node parent_range st = Ok st)
    nodes ->
  forallb inert nodes = true ->
  forall parent_range st,
    for_nodes (process_node w mh self) nodes parent_range st = Ok st.
Proof.
  induction 1 as [|node nodes Hnode _ IH]; intros Hinert parent_range st; [reflexivity|].
  simpl in Hinert. apply andb_true_iff in Hinert as [H1 H2].
  rewrite for_nodes_cons, (Hnode H1). simpl. now apply IH.
Qed.

Lemma process_node_inert (node : LatexNode) :
  inert node = true ->
  forall parent_range st, process_node w mh self node parent_range st = Ok st.
Proof.
  induction node as [| | | |pos len nodelist IH|pos len name nodeargd nodelist IH
                     |pos len macroname nodeargd|]
    using LatexNode_nested_ind; intros Hinert parent_range [module_info doc_info];
    try reflexivity; try discriminate; simpl in Hinert; simpl.
  - unfold call_process. now rewrite (for_nodes_inert nodelist IH Hinert).
  - apply andb_true_iff in Hinert as [Hname Hinert]. apply negb_true_iff in Hname.
    rewrite Hname. unfold call_process. now rewrite (for_nodes_inert nodelist IH Hinert).
Qed.

End Inert.

(** X7. Text, comments, math and specials, and groups and environments
    other than [smodule] that hold nothing else, have no effect on the
    analysis: the walk leaves its state as it is on such a node, and a node
    list is processed as the list without the node; they never raise. *)
Theorem inert_nodes_are_passed_over (w : World) (mh : MathHub.t)
    (doc : STeXDocument.t) (node : LatexNode) :
  inert node = true ->
  (forall parent_range st, process_node w mh doc node parent_range st = Ok st)
  /\ (forall before after parent_range st,
        process w mh doc (before ++ node :: after) parent_range st
        = process w mh doc (before ++ after) parent_range st).
Proof.
  intros Hinert.
  assert (H : forall parent_range st, process_node w mh doc node parent_range st = Ok st)
    by now apply process_node_inert.
  split; [exact H|]. now apply process_skip.
Qed.

Lemma inert_nodes_are_passed_over_witness :
  let node :=
    LatexEnvironmentNode 0 40 "itemize" (ParsedArgs.mk [] None None None)
      [LatexCharsNode 15 4; LatexGroupNode 19 9 [LatexMathNode 20 7]; LatexCommentNode 28 3] in
  (forall parent_range st,
      process_node Demo.world Sample.hub_a Demo.doc node parent_range st = Ok st)
  /\ (forall before after parent_range st,
        process Demo.world Sample.hub_a Demo.doc (before ++ node :: after) parent_range st
        = process Demo.world Sample.hub_a Demo.doc (before ++ after) parent_range st).
Proof.
  intros node.
  apply (inert_nodes_are_passed_over Demo.world Sample.hub_a Demo.doc node). reflexivity.
Defined.

(** X8. A document without any [smodule] environment has no modules after
    an analysis that returns, whatever symbol macros it holds (their hits are
    dropped), and [get_module] finds nothing in it. *)
Theorem document_without_modules (w : World) (mh : MathHub.t)
    (doc doc1 : STeXDocument.t) (nodes : list LatexNode) (text_len : Z) :
  get_latex_nodes w (STeXDocument.path doc) = Some (nodes, text_len) ->
  forallb module_free nodes = true ->
  create_doc_info w mh doc = Ok doc1 ->
  exists doc_info,
    STeXDocument._doc_info doc1 = Some doc_info
    /\ DocInfo.modules doc_info = []
    /\ forall name, DocInfo.get_module doc_info name = None.
Proof.
  intros Hnodes Hfree H. unfold create_doc_info in H. rewrite Hnodes in H. simpl in H.
  destruct (st_mtime w _) as [mtime|]; [|discriminate]. simpl in H.
  destruct (process _ _ _ _ _ _) as [st|] eqn:Hwalk; [|discriminate].
  simpl in H. injection H as <-.
  unfold process, call_process in Hwalk.
  destruct (for_nodes _ _ _ _) as [st1|] eqn:Hloop; [|discriminate].
  injection Hwalk as <-.
  destruct (module_free_run w mh doc nodes Hfree _ _ _ Hloop) as [_ Hkeep].
  simpl in Hkeep. apply skeletons_nil in Hkeep.
  exists (snd st1). split; [reflexivity|]. split; [exact Hkeep|].
  intros name. unfold DocInfo.get_module, DocInfo.iter_modules. now rewrite Hkeep.
Qed.

Lemma document_without_modules_witness :
  let doc := Sample.document "plain.tex" in
  let nodes := [Sample.macro1 0 "symdecl" "x"; LatexCharsNode 11 5;
                Sample.macro1 16 "mhgraphics" "pic"] in
  let w := Sample.with_document Sample.bare (STeXDocument.path doc) 3 nodes 40 in
  exists doc1,
    create_doc_info w Sample.hub_a doc = Ok doc1
    /\ exists doc_info,
        STeXDocument._doc_info doc1 = Some doc_info
        /\ DocInfo.modules doc_info = []
        /\ forall name, DocInfo.get_module doc_info name = None.
Proof.
  intros doc nodes w. eexists. split; [vm_compute; reflexivity|].
  apply (document_without_modules w Sample.hub_a doc _ nodes 40); reflexivity.
Defined.

(* ------------------------------------------------------------------------- *)
(** * Looking modules up                                                      *)
(* ------------------------------------------------------------------------- *)

Lemma module_in_iter_modules (p : list nat) :
  forall m x : ModuleInfo.t,
    module_in p m = Some x -> In x (ModuleInfo.iter_modules m).
Proof.
  induction p as [|i p IH]; intros m x H.
  - injection H as <-. rewrite iter_modules_unfold. now left.
  - simpl in H. apply bind_Some in H as (c & Hc & Hx).
    rewrite iter_modules_unfold. right. apply in_flat_map. exists c. split.
    + apply list_elem_of_In. now apply list_elem_of_lookup_2 in Hc.
    + now apply IH.
Qed.

(** X9. [get_module] searches the modules of every depth: for a module at
    the end of any chain of submodules, [get_module] on its name returns a
    module with that name.  What [get_module] returns has the name asked for
    and is one of the modules of [iter_modules]; it returns [None] exactly
    when no module of any depth has the name. *)
Theorem get_module_searches_every_depth (d : DocInfo.t) (p : list nat)
    (m : ModuleInfo.t) :
  module_at p (DocInfo.modules d) = Some m ->
  (exists m', DocInfo.get_module d (ModuleInfo.name m) = Some m'
              /\ ModuleInfo.name m' = ModuleInfo.name m)
  /\ (forall name found,
        DocInfo.get_module d name = Some found ->
        ModuleInfo.name found = name /\ In found (DocInfo.iter_modules d))
  /\ (forall name,
        DocInfo.get_module d name = None <->
        Forall (fun x => ModuleInfo.name x <> name) (DocInfo.iter_modules d)).
Proof.
  intros Hm. split; [|split].
  - assert (Hin : In m (DocInfo.iter_modules d)).
    { destruct p as [|i p]; [discriminate|]. simpl in Hm.
      apply bind_Some in Hm as (c & Hc & Hx).
      apply in_flat_map. exists c. split.
      - apply list_elem_of_In. now apply list_elem_of_lookup_2 in Hc.
      - now apply (module_in_iter_modules p). }
    unfold DocInfo.get_module.
    destruct (List.find _ _) as [m'|] eqn:Hfind.
    + exists m'. split; [reflexivity|].
      apply find_some in Hfind as [_ Hname]. now apply String.eqb_eq in Hname.
    + apply (find_none _ _ Hfind) in Hin. now rewrite String.eqb_refl in Hin.
  - intros name found Hfind. unfold DocInfo.get_module in Hfind.
    apply find_some in Hfind as [Hin Hname]. split; [now apply String.eqb_eq|exact Hin].
  - intros name. unfold DocInfo.get_module. split.
    + intros Hnone. apply Forall_forall. intros x Hx.
      apply list_elem_of_In in Hx. apply (find_none _ _ Hnone) in Hx.
      now apply String.eqb_neq.
    + intros Hall. destruct (List.find _ _) as [found|] eqn:Hfind; [|reflexivity].
      apply find_some in Hfind as [Hin Hname]. apply String.eqb_eq in Hname.
      rewrite Forall_forall in Hall. apply list_elem_of_In in Hin.
      now apply Hall in Hin.
Qed.

Lemma get_module_searches_every_depth_witness :
  let leaf := ModuleInfo.mk "A/B/C" [] [] [] in
  let d := DocInfo.mk 0 []
             [ModuleInfo.mk "Z" [] [] [];
              ModuleInfo.mk "A" [] [] [ModuleInfo.mk "A/B" [] [] [leaf]]] in
  (exists m', DocInfo.get_module d (ModuleInfo.name leaf) = Some m'
              /\ ModuleInfo.name m' = ModuleInfo.name leaf)
  /\ (forall name found,
        DocInfo.get_module d name = Some found ->
        ModuleInfo.name found = name /\ In found (DocInfo.iter_modules d))
  /\ (forall name,
        DocInfo.get_module d name = None <->
        Forall (fun x => ModuleInfo.name x <> name) (DocInfo.iter_modules d)).
Proof.
  intros leaf d.
  apply (get_module_searches_every_depth d [1%nat; 0%nat; 0%nat] leaf). reflexivity.
Defined.

(* ------------------------------------------------------------------------- *)
(** * Dictionaries                                                            *)
(* ------------------------------------------------------------------------- *)

Lemma dict_get_set {V : Type} (k k' : string) (v : V) (d : Dict.t V) :
  Dict.get k' (Dict.set k v d) = if String.eqb k k' then Some v else Dict.get k' d.
Proof.
  unfold Dict.get. induction d as [|[k0 v0] d IH]; simpl.
  - now destruct (String.eqb k k').
  - destruct (String.eqb_spec k0 k) as [->|Hne]; simpl.
    + now destruct (String.eqb k k').
    + destruct (String.eqb_spec k0 k') as [->|Hne'].
      * apply String.eqb_neq in Hne. rewrite String.eqb_sym in Hne. now rewrite Hne.
      * exact IH.
Qed.

Lemma dict_get_del {V : Type} (k k' : string) (d : Dict.t V) :
  Dict.get k' (Dict.del k d) = if String.eqb k k' then None else Dict.get k' d.
Proof.
  unfold Dict.get, Dict.del. induction d as [|[k0 v0] d IH]; simpl.
  - now destruct (String.eqb k k').
  - destruct (String.eqb_spec k0 k) as [->|Hne]; simpl.
    + rewrite IH. now destruct (String.eqb k k').
    + destruct (String.eqb_spec k0 k') as [->|Hne'].
      * apply String.eqb_neq in Hne. rewrite String.eqb_sym in Hne. now rewrite Hne.
      * exact IH.
Qed.

Lemma dict_get_keys {V : Type} (k : string) (d : Dict.t V) :
  is_Some (Dict.get k d) <-> In k (Dict.keys d).
Proof.
  unfold Dict.get, Dict.keys. induction d as [|[k0 v0] d IH]; simpl.
  - split; [intros [x Hx]; discriminate|easy].
  - destruct (String.eqb_spec k0 k) as [->|Hne]; simpl.
    + split; [now left|now eexists].
    + rewrite IH. split; [now right|]. intros [H|H]; [contradiction|exact H].
Qed.

Lemma dict_get_In {V : Type} (k : string) (v : V) (d : Dict.t V) :
  Dict.get k d = Some v -> In (k, v) d.
Proof.
  unfold Dict.get. intros H. apply fmap_Some in H as ([k0 v0] & Hfind & ->).
  apply find_some in Hfind as [Hin Hk]. simpl in Hk. now apply String.eqb_eq in Hk as ->.
Qed.

Lemma dict_set_Forall {V : Type} (P : string * V -> Prop) (k : string) (v : V)
    (d : Dict.t V) :
  Forall P d -> P (k, v) -> Forall P (Dict.set k v d).
Proof.
  intros Hall Hnew. induction Hall as [|[k0 v0] d H0 Hd IH]; simpl.
  - now constructor.
  - destruct (String.eqb k0 k); now constructor.
Qed.

Lemma dict_set_In {V : Type} (k : string) (v : V) (d : Dict.t V) (kv : string * V) :
  In kv (Dict.set k v d) -> kv = (k, v) \/ In kv d.
Proof.
  induction d as [|[k0 v0] d IH]; simpl.
  - intros [H|[]]. now left.
  - destruct (String.eqb k0 k); simpl.
    + intros [H|H]; [now left|right; now right].
    + intros [H|H]; [right; now left|]. destruct (IH H); [now left|right; now right].
Qed.

(* ------------------------------------------------------------------------- *)
(** * The documents of an archive                                             *)
(* ------------------------------------------------------------------------- *)

Lemma delete_doc_info_if_outdated_twice (w : World) (doc doc' : STeXDocument.t) :
  STeXDocument.delete_doc_info_if_outdated w doc = Ok doc' ->
  STeXDocument.delete_doc_info_if_outdated w doc' = Ok doc'.
Proof.
  unfold STeXDocument.delete_doc_info_if_outdated at 1.
  destruct (STeXDocument._doc_info doc) as [doc_info|] eqn:Hcache.
  - destruct (st_mtime w (STeXDocument.path doc)) as [mtime|] eqn:Hmtime; [|discriminate].
    simpl. destruct (DocInfo.last_modified doc_info <? mtime) eqn:Hlt;
      intros H; injection H as <-.
    + reflexivity.
    + rewrite (delete_doc_info_if_outdated_cached w doc doc_info mtime Hcache Hmtime).
      now rewrite Hlt.
  - intros H. injection H as <-. now apply delete_doc_info_if_outdated_empty.
Qed.

Lemma refreshed_twice (w : World) (self : Repository.t) (files : list Path.t)
    (key : string) (before : option STeXDocument.t) (mid after : STeXDocument.t) :
  refreshed w self files key before mid ->
  STeXDocument.delete_doc_info_if_outdated w mid = Ok after ->
  mid = after.
Proof.
  destruct before as [doc|]; simpl.
  - intros H1 H2. apply delete_doc_info_if_outdated_twice in H1. congruence.
  - intros (file & _ & _ & ->) H2.
    rewrite delete_doc_info_if_outdated_empty in H2 by reflexivity. congruence.
Qed.

Lemma rel_paths_cons (base : Path.t) (file : Path.t) (files : list Path.t) (key : string) :
  Path.relative_to file base = Ok key ->
  rel_paths base (file :: files) = key :: rel_paths base files.
Proof. intros H. unfold rel_paths. simpl. now rewrite H. Qed.

(** the first loop of [Repository.update]: the keys it collects, and the
    documents it leaves *)
Lemma update_scan_spec (w : World) (self : Repository.t) (files : list Path.t) :
  forall still_needed docs still_needed' docs',
    Repository.update_scan w self files still_needed docs = Ok (still_needed', docs') ->
    (forall key, In key still_needed' <->
                 In key still_needed \/ In key (rel_paths (Repository.path self) files))
    /\ (forall key,
          if bool_decide (In key (rel_paths (Repository.path self) files))
          then exists after, Dict.get key docs' = Some after
                             /\ refreshed w self files key (Dict.get key docs) after
          else Dict.get key docs' = Dict.get key docs).
Proof.
  induction files as [|file files IH]; intros still_needed docs still_needed' docs' Hrun.
  - injection Hrun as <- <-. split; [intros key; simpl; tauto|]. intros key.
    now rewrite bool_decide_eq_false_2.
  - simpl in Hrun.
    destruct (Path.relative_to file (Repository.path self)) as [rel_path|] eqn:Hrel;
      [|discriminate].
    simpl in Hrun. rewrite (rel_paths_cons _ _ _ _ Hrel).
    assert (Hstep : exists doc1,
               Repository.update_scan w self files (rel_path :: still_needed)
                 (Dict.set rel_path doc1 docs) = Ok (still_needed', docs')
               /\ refreshed w self (file :: files) rel_path (Dict.get rel_path docs) doc1).
    { destruct (Dict.get rel_path docs) as [doc|] eqn:Hget.
      - destruct (STeXDocument.delete_doc_info_if_outdated w doc) as [doc1|] eqn:Hdel;
          [|discriminate].
        exists doc1. now split.
      - eexists. split; [exact Hrun|]. exists file. split; [now left|]. now split. }
    clear Hrun. destruct Hstep as (doc1 & Hrun & Hdoc1).
    apply IH in Hrun as [Hkeys Hdocs]. split.
    + intros key. rewrite Hkeys. simpl. tauto.
    + intros key. specialize (Hdocs key). rewrite dict_get_set in Hdocs.
      destruct (String.eqb_spec rel_path key) as [->|Hne].
      * rewrite bool_decide_eq_true_2 by now left.
        destruct (bool_decide (In key (rel_paths (Repository.path self) files))).
        -- destruct Hdocs as (after & Hafter & Hrefreshed). simpl in Hrefreshed.
           exists after. split; [exact Hafter|].
           now rewrite <- (refreshed_twice _ _ _ _ _ _ _ Hdoc1 Hrefreshed).
        -- now exists doc1.
      * destruct (bool_decide_reflect (In key (rel_paths (Repository.path self) files)))
          as [Hin|Hout].
        -- rewrite bool_decide_eq_true_2 by now right.
           destruct Hdocs as (after & Hafter & Hrefreshed).
           exists after. split; [exact Hafter|].
           destruct (Dict.get key docs); [exact Hrefreshed|].
           destruct Hrefreshed as (f & Hf & Hfrel & ->). exists f.
           split; [now right|now split].
        -- rewrite bool_decide_eq_false_2; [exact Hdocs|].
           intros [H|H]; [now apply Hne|now apply Hout].
Qed.

(** the second loop of [Repository.update] *)
Lemma update_prune_spec (still_needed : list string) (snapshot : list string) :
  forall (docs : Dict.t STeXDocument.t) (key : string),
    Dict.get key (Repository.update_prune snapshot still_needed docs)
    = if bool_decide (key ∈ still_needed) then Dict.get key docs
      else if bool_decide (In key snapshot) then None
      else Dict.get key docs.
Proof.
  induction snapshot as [|k snapshot IH]; intros docs key; simpl.
  - destruct (bool_decide (key ∈ still_needed)); [reflexivity|].
    now destruct (bool_decide_reflect (In key [])) as [[]|_].
  - destruct (bool_decide_reflect (k ∈ still_needed)) as [Hk|Hk]; rewrite IH.
    + destruct (bool_decide_reflect (key ∈ still_needed)) as [Hkey|Hkey]; [reflexivity|].
      assert (Hne : k <> key) by (intros ->; contradiction).
      destruct (bool_decide_reflect (In key snapshot)) as [Hin|Hout].
      * now rewrite bool_decide_eq_true_2 by now right.
      * rewrite bool_decide_eq_false_2; [reflexivity|]. intros [H|H]; contradiction.
    + rewrite dict_get_del.
      destruct (bool_decide_reflect (key ∈ still_needed)) as [Hkey|Hkey].
      * destruct (String.eqb_spec k key) as [->|Hne]; [contradiction|reflexivity].
      * destruct (String.eqb_spec k key) as [->|Hne].
        -- rewrite (bool_decide_eq_true_2 (In key (key :: snapshot))) by now left.
           now destruct (bool_decide _).
        -- destruct (bool_decide_reflect (In key snapshot)) as [Hin|Hout].
           ++ now rewrite bool_decide_eq_true_2 by now right.
           ++ rewrite bool_decide_eq_false_2; [reflexivity|].
              intros [H|H]; contradiction.
Qed.

(** what [Repository.update] leaves under each key *)
Lemma update_documents (w : World) (self self' : Repository.t)
    (docs : Dict.t STeXDocument.t) :
  Repository._stex_documents self = Some docs ->
  Repository.update w self = Ok self' ->
  exists docs',
    self' = Repository.mk (Repository.path self) (Repository.get_archive_name self)
              None (Some docs')
    /\ forall key,
        if bool_decide
             (In key (rel_paths (Repository.path self)
                        (Repository._relevant_file_iterate w self)))
        then exists after,
            Dict.get key docs' = Some after
            /\ refreshed w self (Repository._relevant_file_iterate w self) key
                 (Dict.get key docs) after
        else Dict.get key docs' = None.
Proof.
  intros Hdocs Hrun. unfold Repository.update in Hrun. simpl in Hrun.
  rewrite Hdocs in Hrun.
  destruct (Repository.update_scan _ _ _ _ _) as [[still_needed docs1]|] eqn:Hscan;
    [|discriminate].
  simpl in Hrun. injection Hrun as <-.
  eexists. split; [reflexivity|]. intros key.
  apply update_scan_spec in Hscan as [Hkeys Hvalues]. simpl in Hkeys, Hvalues.
  change (Repository._relevant_file_iterate w
            (Repository.mk (Repository.path self) (Repository.get_archive_name self)
               None (Some docs)))
    with (Repository._relevant_file_iterate w self) in *.
  specialize (Hvalues key). rewrite update_prune_spec.
  destruct (bool_decide_reflect
              (In key (rel_paths (Repository.path self)
                         (Repository._relevant_file_iterate w self)))) as [Hin|Hout].
  - rewrite bool_decide_eq_true_2.
    + exact Hvalues.
    + apply list_elem_of_In, Hkeys. now right.
  - rewrite bool_decide_eq_false_2.
    + destruct (bool_decide_reflect (In key (Dict.keys docs1))) as [Hk|Hk]; [reflexivity|].
      destruct (Dict.get key docs1) as [d|] eqn:Hget; [|reflexivity].
      exfalso. apply Hk, dict_get_keys. rewrite Hget. now eexists.
    + intros H. apply list_elem_of_In, Hkeys in H as [[]|H]. contradiction.
Qed.

(** X10. After [Repository.update] on an archive whose documents are
    loaded, the archive has its root and its name, no manifest in memory, and
    a document under a key exactly when the key is the path, relative to the
    root, of a [.tex] file found under [source] or [lib]: documents of files
    that are gone are dropped, files that are new have a document. *)
Theorem update_documents_follow_files (w : World) (self self' : Repository.t)
    (docs : Dict.t STeXDocument.t) :
  Repository._stex_documents self = Some docs ->
  Repository.update w self = Ok self' ->
  Repository.path self' = Repository.path self
  /\ Repository.get_archive_name self' = Repository.get_archive_name self
  /\ Repository._manifest self' = None
  /\ exists docs',
      Repository._stex_documents self' = Some docs'
      /\ forall key,
          is_Some (Dict.get key docs')
          <-> In key (rel_paths (Repository.path self)
                        (Repository._relevant_file_iterate w self)).
Proof.
  intros Hdocs Hrun.
  destruct (update_documents w self self' docs Hdocs Hrun) as (docs' & -> & Hkeys).
  repeat (split; [reflexivity|]). exists docs'. split; [reflexivity|].
  intros key. specialize (Hkeys key).
  destruct (bool_decide_reflect
              (In key (rel_paths (Repository.path self)
                         (Repository._relevant_file_iterate w self)))) as [Hin|Hout].
  - destruct Hkeys as (after & Hafter & _). rewrite Hafter. split; [easy|now eexists].
  - rewrite Hkeys. split; [intros [x Hx]; discriminate|contradiction].
Qed.

Lemma update_documents_follow_files_witness :
  let old := STeXDocument.mk (ArchiveRef.mk ["mh"; "a"] "a")
               ["mh"; "a"; "source"; "old.tex"] None in
  let a := Repository.mk ["mh"; "a"] "a" (Some [("id", "a")])
             (Some [("source/old.tex", old)]) in
  exists self',
    Repository.update Sample.hub_with_a a = Ok self'
    /\ Repository.path self' = Repository.path a
    /\ Repository.get_archive_name self' = Repository.get_archive_name a
    /\ Repository._manifest self' = None
    /\ exists docs',
        Repository._stex_documents self' = Some docs'
        /\ forall key,
            is_Some (Dict.get key docs')
            <-> In key (rel_paths (Repository.path a)
                          (Repository._relevant_file_iterate Sample.hub_with_a a)).
Proof.
  intros old a. eexists. split; [vm_compute; reflexivity|].
  apply (update_documents_follow_files Sample.hub_with_a a _ [("source/old.tex", old)]);
    reflexivity.
Defined.

(** X11. After [Repository.update], a document that was known before and
    is kept is the old document after the staleness check (same archive and
    path; its DocInfo kept unless the file is newer), and a document under a
    key that was not known is a new document of a file with that relative
    path, without DocInfo. *)
Theorem update_refreshes_documents (w : World) (self self' : Repository.t)
    (docs docs' : Dict.t STeXDocument.t) (key : string) (after : STeXDocument.t) :
  Repository._stex_documents self = Some docs ->
  Repository.update w self = Ok self' ->
  Repository._stex_documents self' = Some docs' ->
  Dict.get key docs' = Some after ->
  match Dict.get key docs with
  | Some doc =>
      STeXDocument.delete_doc_info_if_outdated w doc = Ok after
      /\ STeXDocument.archive after = STeXDocument.archive doc
      /\ STeXDocument.path after = STeXDocument.path doc
      /\ (STeXDocument._doc_info after = STeXDocument._doc_info doc
          \/ STeXDocument._doc_info after = None)
  | None =>
      STeXDocument._doc_info after = None
      /\ exists file,
          In file (Repository._relevant_file_iterate w self)
          /\ Path.relative_to file (Repository.path self) = Ok key
          /\ after = STeXDocument.init w (Repository.ref self) file
  end.
Proof.
  intros Hdocs Hrun Hdocs' Hafter.
  destruct (update_documents w self self' docs Hdocs Hrun) as (docs1 & -> & Hkeys).
  simpl in Hdocs'. injection Hdocs' as <-. specialize (Hkeys key).
  destruct (bool_decide _); [|congruence].
  destruct Hkeys as (after' & Hafter' & Hrefreshed).
  rewrite Hafter in Hafter'. injection Hafter' as <-.
  destruct (Dict.get key docs) as [doc|]; simpl in Hrefreshed.
  - split; [exact Hrefreshed|].
    unfold STeXDocument.delete_doc_info_if_outdated in Hrefreshed.
    destruct (STeXDocument._doc_info doc) as [doc_info|] eqn:Hcache.
    + destruct (st_mtime w _) as [mtime|]; [|discriminate]. simpl in Hrefreshed.
      destruct (_ <? _); injection Hrefreshed as <-; simpl; rewrite ?Hcache; auto.
    + injection Hrefreshed as <-. rewrite Hcache. auto.
  - destruct Hrefreshed as (file & Hin & Hrel & ->). split; [reflexivity|]. now exists file.
Qed.

Lemma update_refreshes_documents_witness :
  let cached := DocInfo.mk 5 [] [] in
  let x := STeXDocument.mk (ArchiveRef.mk ["mh"; "a"] "a")
             ["mh"; "a"; "source"; "x.tex"] (Some cached) in
  let a := Repository.mk ["mh"; "a"] "a" None (Some [("source/x.tex", x)]) in
  match Dict.get "source/x.tex" [("source/x.tex", x)] with
  | Some doc =>
      STeXDocument.delete_doc_info_if_outdated Sample.hub_with_a doc = Ok x
      /\ STeXDocument.archive x = STeXDocument.archive doc
      /\ STeXDocument.path x = STeXDocument.path doc
      /\ (STeXDocument._doc_info x = STeXDocument._doc_info doc
          \/ STeXDocument._doc_info x = None)
  | None =>
      STeXDocument._doc_info x = None
      /\ exists file,
          In file (Repository._relevant_file_iterate Sample.hub_with_a a)
          /\ Path.relative_to file (Repository.path a) = Ok "source/x.tex"
          /\ x = STeXDocument.init Sample.hub_with_a (Repository.ref a) file
  end.
Proof.
  intros cached x a.
  apply (update_refreshes_documents Sample.hub_with_a a a
           [("source/x.tex", x)] [("source/x.tex", x)] "source/x.tex" x);
    reflexivity.
Defined.

(** the loop of [_ensure_stex_docs_loaded] *)
Lemma load_documents_spec (w : World) (self : Repository.t) (all : list Path.t)
    (files : list Path.t) :
  let fresh (kd : string * STeXDocument.t) :=
    STeXDocument.get_rel_path (snd kd) = Ok (fst kd)
    /\ exists file, In file all /\ snd kd = STeXDocument.init w (Repository.ref self) file in
  (forall file, In file files -> In file all) ->
  forall docs docs',
    Repository.load_documents w self files docs = Ok docs' ->
    (Forall fresh docs -> Forall fresh docs')
    /\ (forall key,
          is_Some (Dict.get key docs')
          <-> is_Some (Dict.get key docs)
              \/ exists file,
                  In file files
                  /\ STeXDocument.get_rel_path
                       (STeXDocument.init w (Repository.ref self) file) = Ok key).
Proof.
  intros fresh. induction files as [|file files IH]; intros Hall docs docs' Hrun.
  - injection Hrun as <-. split; [easy|]. intros key. split; [now left|].
    intros [H|(f & [] & _)]. exact H.
  - simpl in Hrun.
    destruct (STeXDocument.get_rel_path _) as [rel_path|] eqn:Hrel; [|discriminate].
    simpl in Hrun. apply IH in Hrun as [Hfresh Hkeys]; [|intros f Hf; apply Hall; now right].
    split.
    + intros Hdocs. apply Hfresh. apply dict_set_Forall; [exact Hdocs|].
      split; [exact Hrel|]. exists file. split; [apply Hall; now left|reflexivity].
    + intros key. rewrite Hkeys, dict_get_set.
      destruct (String.eqb_spec rel_path key) as [->|Hne].
      * split; [|intros _; left; now eexists].
        intros _. right. exists file. split; [now left|exact Hrel].
      * split.
        -- intros [H|(f & Hf & Hfrel)]; [now left|]. right. exists f. split; [now right|exact Hfrel].
        -- intros [H|(f & [<-|Hf] & Hfrel)]; [now left| |].
           ++ rewrite Hrel in Hfrel. injection Hfrel as ->. contradiction.
           ++ right. now exists f.
Qed.

(** X12. [get_stex_doc] on an archive whose documents are not loaded (or
    whose document dictionary is empty) scans the files of the archive: a
    document it returns is the new document of a file found, its path
    relative to the archive is the key asked for, and it has no DocInfo;
    it returns no document exactly when no file has that relative path.  The
    archive keeps its root, name and manifest. *)
Theorem get_stex_doc_loads (w : World) (self self' : Repository.t) (rel_path : string)
    (found : option STeXDocument.t) :
  Repository._stex_documents self = None \/ Repository._stex_documents self = Some [] ->
  Repository.get_stex_doc w self rel_path = Ok (found, self') ->
  Repository.path self' = Repository.path self
  /\ Repository.get_archive_name self' = Repository.get_archive_name self
  /\ Repository._manifest self' = Repository._manifest self
  /\ (forall doc,
        found = Some doc ->
        STeXDocument.get_rel_path doc = Ok rel_path
        /\ STeXDocument._doc_info doc = None
        /\ exists file,
            In file (Repository._relevant_file_iterate w self)
            /\ doc = STeXDocument.init w (Repository.ref self) file)
  /\ (is_Some found <->
      exists file,
        In file (Repository._relevant_file_iterate w self)
        /\ STeXDocument.get_rel_path (STeXDocument.init w (Repository.ref self) file)
           = Ok rel_path).
Proof.
  intros Hempty Hrun. unfold Repository.get_stex_doc, Repository._ensure_stex_docs_loaded in Hrun.
  assert (Hload : exists docs,
             Repository.load_documents w self (Repository._relevant_file_iterate w self) []
             = Ok docs
             /\ found = Dict.get rel_path docs
             /\ self' = Repository.mk (Repository.path self) (Repository.get_archive_name self)
                          (Repository._manifest self) (Some docs)).
  { destruct Hempty as [Hnone|Hnil]; rewrite ?Hnone, ?Hnil in Hrun;
      destruct (Repository.load_documents _ _ _ _) as [docs|]; try discriminate;
      simpl in Hrun; injection Hrun as <- <-; now exists docs. }
  clear Hrun. destruct Hload as (docs & Hload & -> & ->).
  apply (load_documents_spec w self (Repository._relevant_file_iterate w self)) in Hload
    as [Hfresh Hkeys]; [|easy].
  repeat (split; [reflexivity|]). split.
  - intros doc Hdoc. apply dict_get_In in Hdoc.
    specialize (Hfresh (Forall_nil_2 _)). rewrite Forall_forall in Hfresh.
    apply list_elem_of_In, Hfresh in Hdoc as [Hrel (file & Hin & Hinit)]. simpl in *.
    split; [exact Hrel|]. split; [now rewrite Hinit|now exists file].
  - rewrite Hkeys. split; [|now right].
    intros [[x Hx]|H]; [discriminate|exact H].
Qed.

Lemma get_stex_doc_loads_witness :
  let a := Repository.mk ["mh"; "a"] "a" None None in
  exists found self',
    Repository.get_stex_doc Sample.hub_with_a a "source/x.tex" = Ok (found, self')
    /\ Repository.path self' = Repository.path a
    /\ Repository.get_archive_name self' = Repository.get_archive_name a
    /\ Repository._manifest self' = Repository._manifest a
    /\ (forall doc,
          found = Some doc ->
          STeXDocument.get_rel_path doc = Ok "source/x.tex"
          /\ STeXDocument._doc_info doc = None
          /\ exists file,
              In file (Repository._relevant_file_iterate Sample.hub_with_a a)
              /\ doc = STeXDocument.init Sample.hub_with_a (Repository.ref a) file)
    /\ (is_Some found <->
        exists file,
          In file (Repository._relevant_file_iterate Sample.hub_with_a a)
          /\ STeXDocument.get_rel_path
               (STeXDocument.init Sample.hub_with_a (Repository.ref a) file)
             = Ok "source/x.tex").
Proof.
  intros a. eexists _, _. split; [vm_compute; reflexivity|].
  apply (get_stex_doc_loads Sample.hub_with_a a _ "source/x.tex").
  - now left.
  - reflexivity.
Defined.

(** X13. Once the documents of an archive are loaded and there is at least
    one, access no longer looks at the file system: in every later world
    [_ensure_stex_docs_loaded] leaves the archive as it is, and [get_stex_doc]
    and [number_of_documents] answer from the dictionary in memory. *)
Theorem loaded_documents_are_not_rescanned (w w' : World) (self self1 : Repository.t) :
  Repository._ensure_stex_docs_loaded w self = Ok self1 ->
  exists docs,
    Repository._stex_documents self1 = Some docs
    /\ (docs <> [] ->
        Repository._ensure_stex_docs_loaded w' self1 = Ok self1
        /\ (forall rel_path,
              Repository.get_stex_doc w' self1 rel_path
              = Ok (Dict.get rel_path docs, self1))
        /\ Repository.number_of_documents w' self1 = Ok (length docs, self1)).
Proof.
  intros Hrun. unfold Repository._ensure_stex_docs_loaded in Hrun.
  assert (Hdocs : exists docs, Repository._stex_documents self1 = Some docs).
  { destruct (Repository._stex_documents self) as [[|e es]|] eqn:Hself.
    - destruct (Repository.load_documents _ _ _ _) as [docs|]; [|discriminate].
      injection Hrun as <-. now eexists.
    - injection Hrun as <-. eexists. exact Hself.
    - destruct (Repository.load_documents _ _ _ _) as [docs|]; [|discriminate].
      injection Hrun as <-. now eexists. }
  destruct Hdocs as [docs Hdocs]. exists docs. split; [exact Hdocs|].
  intros Hne. destruct docs as [|e es]; [contradiction|].
  assert (Hensure : Repository._ensure_stex_docs_loaded w' self1 = Ok self1).
  { unfold Repository._ensure_stex_docs_loaded. now rewrite Hdocs. }
  split; [exact Hensure|]. split.
  - intros rel_path. unfold Repository.get_stex_doc. rewrite Hensure. simpl.
    now rewrite Hdocs.
  - unfold Repository.number_of_documents. rewrite Hensure. simpl. now rewrite Hdocs.
Qed.

Lemma loaded_documents_are_not_rescanned_witness :
  let a := Repository.mk ["mh"; "a"] "a" None None in
  exists self1,
    Repository._ensure_stex_docs_loaded Sample.hub_with_a a = Ok self1
    /\ exists docs,
        Repository._stex_documents self1 = Some docs
        /\ (docs <> [] ->
            Repository._ensure_stex_docs_loaded Sample.bare self1 = Ok self1
            /\ (forall rel_path,
                  Repository.get_stex_doc Sample.bare self1 rel_path
                  = Ok (Dict.get rel_path docs, self1))
            /\ Repository.number_of_documents Sample.bare self1 = Ok (length docs, self1)).
Proof.
  intros a. eexists. split; [vm_compute; reflexivity|].
  apply (loaded_documents_are_not_rescanned Sample.hub_with_a Sample.bare a).
  reflexivity.
Defined.

(* ------------------------------------------------------------------------- *)
(** * The manifest of an archive                                              *)
(* ------------------------------------------------------------------------- *)

Lemma update_preserves_identity (w : World) (self self' : Repository.t) :
  Repository.update w self = Ok self' ->
  Repository.path self' = Repository.path self
  /\ Repository.get_archive_name self' = Repository.get_archive_name self
  /\ Repository._manifest self' = None
  /\ (Repository._stex_documents self = None -> Repository._stex_documents self' = None).
Proof.
  unfold Repository.update. simpl.
  destruct (Repository._stex_documents self) as [docs|].
  - destruct (Repository.update_scan _ _ _ _ _) as [[still_needed docs1]|]; [|discriminate].
    simpl. intros H. injection H as <-. now repeat split.
  - intros H. injection H as <-. now repeat split.
Qed.

(** X14. A manifest held in memory is returned without reading the disk.
    [Repository.update] forgets it: after an update, [get_manifest] returns
    the manifest that is on disk at that moment and keeps it, or raises
    [FileNotFoundError] when there is none, in which case [try_get_manifest]
    returns [None] and leaves the archive as it is. *)
Theorem update_forgets_manifest (w w' : World) (self self' : Repository.t) :
  Repository.update w self = Ok self' ->
  (forall mf, Repository._manifest self = Some mf ->
              Repository.get_manifest w' self = Ok (mf, self))
  /\ match read_manifest w' (Repository.path self) with
     | Some mf =>
         exists after,
           Repository.get_manifest w' self' = Ok (mf, after)
           /\ Repository._manifest after = Some mf
           /\ Repository.get_manifest w after = Ok (mf, after)
           /\ Repository.try_get_manifest w' self' = Ok (Some mf, after)
     | None =>
         Repository.get_manifest w' self' = Raise FileNotFoundError
         /\ Repository.try_get_manifest w' self' = Ok (None, self')
     end.
Proof.
  intros Hrun. apply update_preserves_identity in Hrun as (Hpath & _ & Hmanifest & _).
  split.
  - intros mf Hmf. unfold Repository.get_manifest. now rewrite Hmf.
  - unfold Repository.try_get_manifest, Repository.get_manifest.
    rewrite Hmanifest, Hpath.
    destruct (read_manifest w' (Repository.path self)) as [mf|]; simpl.
    + eexists. repeat split.
    + now split.
Qed.

Lemma update_forgets_manifest_witness :
  let a := Repository.mk ["mh"; "a"] "a" (Some [("id", "a"); ("format", "stex")]) None in
  exists self',
    Repository.update Sample.bare a = Ok self'
    /\ (forall mf, Repository._manifest a = Some mf ->
                   Repository.get_manifest Sample.bare a = Ok (mf, a))
    /\ match read_manifest Sample.bare (Repository.path a) with
       | Some mf =>
           exists after,
             Repository.get_manifest Sample.bare self' = Ok (mf, after)
             /\ Repository._manifest after = Some mf
             /\ Repository.get_manifest Sample.bare after = Ok (mf, after)
             /\ Repository.try_get_manifest Sample.bare self' = Ok (Some mf, after)
       | None =>
           Repository.get_manifest Sample.bare self' = Raise FileNotFoundError
           /\ Repository.try_get_manifest Sample.bare self' = Ok (None, self')
       end.
Proof.
  intros a. eexists. split; [vm_compute; reflexivity|].
  apply (update_forgets_manifest Sample.bare Sample.bare a). reflexivity.
Defined.

(* ------------------------------------------------------------------------- *)
(** * The registry of archives                                                *)
(* ------------------------------------------------------------------------- *)

Lemma dict_mem_In {V : Type} (k : string) (d : Dict.t V) :
  Dict.mem k d = true <-> In k (Dict.keys d).
Proof.
  rewrite dict_mem_keys, existsb_exists. split.
  - intros (k' & Hin & Heq). now apply String.eqb_eq in Heq as <-.
  - intros Hin. exists k. split; [exact Hin|apply String.eqb_refl].
Qed.

Lemma discover_spec (w : World) (root : Path.t) (repo : Repository.t) :
  Repository.discover w root = Ok repo ->
  Repository.path repo = root /\ Repository._stex_documents repo = None.
Proof.
  unfold Repository.discover.
  destruct (Path.relative_to root (get_mathhub_path w)) as [name_guess|]; [|discriminate].
  simpl. destruct (read_manifest w root); intros H; injection H as <-; now split.
Qed.

Lemma discover_returns (w : World) (root : Path.t) (rel : string) :
  Path.relative_to root (get_mathhub_path w) = Ok rel ->
  exists repo, Repository.discover w root = Ok repo.
Proof.
  intros H. unfold Repository.discover. rewrite H. simpl.
  destruct (read_manifest w root); now eexists.
Qed.

(** the first loop of [MathHub.update] *)
Lemma update_discover_spec (w : World) (R : string * Repository.t -> Prop)
    (roots : list Path.t) :
  (forall root repo, Repository.discover w root = Ok repo ->
                     R (Repository.get_archive_name repo, repo)) ->
  forall still_needed lookup still_needed' lookup',
    MathHub.update_discover w roots still_needed lookup = Ok (still_needed', lookup') ->
    (Forall R lookup -> Forall R lookup')
    /\ (forall name,
          In name still_needed' <->
          In name still_needed
          \/ exists root repo, In root roots /\ Repository.discover w root = Ok repo
                               /\ Repository.get_archive_name repo = name)
    /\ (forall name,
          In name (Dict.keys lookup') <->
          In name (Dict.keys lookup)
          \/ exists root repo, In root roots /\ Repository.discover w root = Ok repo
                               /\ Repository.get_archive_name repo = name).
Proof.
  intros HR. induction roots as [|root roots IH];
    intros still_needed lookup still_needed' lookup' Hrun; simpl in Hrun.
  - injection Hrun as <- <-. split; [easy|].
    split; intros name; (split; [now left|]); intros [H|(r & _ & [] & _)]; exact H.
  - destruct (Repository.discover w root) as [repo|] eqn:Hrepo; [|discriminate].
    simpl in Hrun. apply IH in Hrun as (Hall & Hstill & Hkeys).
    assert (Hadd : forall name,
               In name (Dict.keys
                          (if Dict.mem (Repository.get_archive_name repo) lookup
                           then lookup
                           else Dict.set (Repository.get_archive_name repo) repo lookup))
               <-> In name (Dict.keys lookup) \/ Repository.get_archive_name repo = name).
    { intros name. destruct (Dict.mem _ lookup) eqn:Hmem.
      - apply dict_mem_In in Hmem. split; [now left|]. now intros [H|<-].
      - rewrite (dict_set_fresh _ _ _ Hmem). unfold Dict.keys. rewrite map_app, in_app_iff.
        simpl. tauto. }
    split; [|split].
    + intros Hlookup. apply Hall. destruct (Dict.mem _ lookup); [exact Hlookup|].
      apply dict_set_Forall; [exact Hlookup|now apply HR in Hrepo].
    + intros name. rewrite Hstill. simpl. split.
      * intros [[<-|H]|(r & rp & Hin & Hd & Hn)].
        -- right. exists root, repo. split; [now left|now split].
        -- now left.
        -- right. exists r, rp. split; [now right|now split].
      * intros [H|(r & rp & [<-|Hin] & Hd & Hn)].
        -- left. now right.
        -- rewrite Hrepo in Hd. injection Hd as <-. left. now left.
        -- right. now exists r, rp.
    + intros name. rewrite Hkeys, Hadd. split.
      * intros [[H|H]|(r & rp & Hin & Hd & Hn)].
        -- now left.
        -- right. exists root, repo. split; [now left|now split].
        -- right. exists r, rp. split; [now right|now split].
      * intros [H|(r & rp & [<-|Hin] & Hd & Hn)].
        -- left. now left.
        -- rewrite Hrepo in Hd. injection Hd as <-. left. now right.
        -- right. now exists r, rp.
Qed.

(** the second loop of [MathHub.update] keeps a property of the entries
    that the update of an archive keeps *)
Lemma update_sweep_Forall (w : World) (R : string * Repository.t -> Prop) (used : nat)
    (still_needed : list string) (todo : list (string * Repository.t)) :
  forall lookup lookup',
    MathHub.update_sweep w used todo still_needed lookup = Ok lookup' ->
    Forall (fun kr => forall repo', Repository.update w (snd kr) = Ok repo' ->
                                    R (fst kr, repo')) todo ->
    Forall R lookup -> Forall R lookup'.
Proof.
  induction todo as [|[key repo] todo IH]; intros lookup lookup' Hrun Htodo Hlookup;
    simpl in Hrun.
  - destruct (negb _); [discriminate|]. now injection Hrun as <-.
  - destruct (negb (Nat.eqb (length lookup) used)) eqn:Hsize; [discriminate|].
    apply Forall_cons in Htodo as [Hhead Htodo].
    destruct (bool_decide _).
    + destruct (Repository.update w repo) as [repo'|] eqn:Hupdate; [|discriminate].
      simpl in Hrun. apply (IH _ _ Hrun Htodo).
      apply dict_set_Forall; [exact Hlookup|]. now apply Hhead.
    + destruct (Dict.mem _ lookup) eqn:Hmem; [|discriminate].
      rewrite update_sweep_size_changed in Hrun; [discriminate|].
      apply dict_del_shrinks in Hmem. apply negb_false_iff, Nat.eqb_eq in Hsize. lia.
Qed.

(** X15. [MathHub.update] keeps every archive under its own name: if each
    entry of the registry is an archive whose name is the key, the same holds
    after an update that returns, and [get_archive] then returns an archive of
    the name asked for. *)
Theorem update_keeps_archives_keyed_by_name (w : World) (self self' : MathHub.t) :
  keyed_by_name (MathHub.archive_lookup self) ->
  MathHub.update w self = Ok self' ->
  keyed_by_name (MathHub.archive_lookup self')
  /\ (forall name repo,
        MathHub.get_archive self' name = Some repo ->
        Repository.get_archive_name repo = name).
Proof.
  intros Hkeyed Hrun. unfold MathHub.update in Hrun.
  destruct (MathHub.update_discover _ _ _ _) as [[still_needed lookup]|] eqn:Hscan;
    [|discriminate].
  simpl in Hrun.
  destruct (MathHub.update_sweep _ _ _ _ _) as [lookup'|] eqn:Hsweep; [|discriminate].
  simpl in Hrun. injection Hrun as <-. simpl.
  apply (update_discover_spec w
           (fun kr => Repository.get_archive_name (snd kr) = fst kr)) in Hscan
    as (Hall & _ & _); [|reflexivity].
  specialize (Hall Hkeyed).
  assert (Hresult : keyed_by_name lookup').
  { apply (update_sweep_Forall w _ _ _ _ _ _ Hsweep); [|exact Hall].
    apply Forall_forall. intros [key repo] Hin repo' Hupdate. simpl.
    apply update_preserves_identity in Hupdate as (_ & -> & _).
    unfold keyed_by_name in Hall. rewrite Forall_forall in Hall. now apply (Hall _ Hin). }
  split; [exact Hresult|].
  intros name repo Hget. apply dict_get_In in Hget.
  unfold keyed_by_name in Hresult. rewrite Forall_forall in Hresult.
  apply list_elem_of_In in Hget. now apply Hresult in Hget.
Qed.

Lemma update_keeps_archives_keyed_by_name_witness :
  let a := Repository.mk ["mh"; "a"] "a" None None in
  exists self',
    MathHub.update Sample.hub_with_a (MathHub.mk [("a", a)]) = Ok self'
    /\ keyed_by_name (MathHub.archive_lookup self')
    /\ (forall name repo,
          MathHub.get_archive self' name = Some repo ->
          Repository.get_archive_name repo = name).
Proof.
  intros a. eexists. split; [vm_compute; reflexivity|].
  apply (update_keeps_archives_keyed_by_name Sample.hub_with_a (MathHub.mk [("a", a)])).
  - repeat constructor.
  - reflexivity.
Defined.

Lemma update_discover_returns (w : World) (roots : list Path.t) :
  (forall root, In root roots ->
                exists rel, Path.relative_to root (get_mathhub_path w) = Ok rel) ->
  forall still_needed lookup,
    exists result, MathHub.update_discover w roots still_needed lookup = Ok result.
Proof.
  induction roots as [|root roots IH]; intros Hroots still_needed lookup; simpl.
  - now eexists.
  - destruct (Hroots root (or_introl eq_refl)) as [rel Hrel].
    destruct (discover_returns w root rel Hrel) as [repo ->]. simpl.
    apply IH. intros r Hr. apply Hroots. now right.
Qed.

(** the names of the entries are among the names still needed *)
Lemma update_discover_still_needed (w : World) (roots : list Path.t) :
  forall still_needed lookup still_needed' lookup',
    MathHub.update_discover w roots still_needed lookup = Ok (still_needed', lookup') ->
    Forall (fun kr => In (Repository.get_archive_name (snd kr)) still_needed) lookup ->
    Forall (fun kr => In (Repository.get_archive_name (snd kr)) still_needed') lookup'.
Proof.
  induction roots as [|root roots IH];
    intros still_needed lookup still_needed' lookup' Hrun Hall; simpl in Hrun.
  - now injection Hrun as <- <-.
  - destruct (Repository.discover w root) as [repo|]; [|discriminate]. simpl in Hrun.
    apply (IH _ _ _ _ Hrun).
    assert (Hmore : Forall (fun kr => In (Repository.get_archive_name (snd kr))
                                        (Repository.get_archive_name repo :: still_needed))
                      lookup).
    { eapply Forall_impl; [exact Hall|]. intros kr H. now right. }
    destruct (Dict.mem _ lookup); [exact Hmore|].
    apply dict_set_Forall; [exact Hmore|]. now left.
Qed.

Lemma In_dict_keys {V : Type} (k : string) (v : V) (d : Dict.t V) :
  In (k, v) d -> In k (Dict.keys d).
Proof. intros H. unfold Dict.keys. apply in_map_iff. now exists (k, v). Qed.

(** X16. When every repository root found lies under the hub directory,
    creating a registry succeeds; the registry then holds an archive under a
    name exactly when a root found gives an archive of that name, every
    archive is kept under its own name, and no archive has its documents
    loaded. *)
Theorem init_registers_the_roots_found (w : World) :
  (forall root, In root (MathHub._get_mathhub_repos w) ->
                exists rel, Path.relative_to root (get_mathhub_path w) = Ok rel) ->
  exists self,
    MathHub.init w = Ok self
    /\ keyed_by_name (MathHub.archive_lookup self)
    /\ Forall (fun kr => Repository._stex_documents (snd kr) = None)
         (MathHub.archive_lookup self)
    /\ (forall name,
          is_Some (MathHub.get_archive self name) <->
          exists root repo,
            In root (MathHub._get_mathhub_repos w)
            /\ Repository.discover w root = Ok repo
            /\ Repository.get_archive_name repo = name).
Proof.
  intros Hroots. unfold MathHub.init, MathHub.update. simpl.
  destruct (update_discover_returns w _ Hroots [] []) as [[still_needed lookup] Hscan].
  rewrite Hscan. simpl.
  pose proof (update_discover_still_needed w _ _ _ _ _ Hscan (Forall_nil_2 _)) as Hstill.
  destruct (update_discover_spec w
              (fun kr => Repository.get_archive_name (snd kr) = fst kr
                         /\ Repository._stex_documents (snd kr) = None)
              _ (fun root repo H => conj eq_refl (proj2 (discover_spec w root repo H)))
              _ _ _ _ Hscan) as (Hfresh & _ & Hkeys).
  specialize (Hfresh (Forall_nil_2 _)).
  destruct (update_sweep_returns w still_needed lookup lookup) as (lookup' & Hsweep & Hsame).
  { rewrite Forall_forall in Hstill, Hfresh. apply Forall_forall.
    intros [key repo] Hin. simpl. split; [|split].
    - apply list_elem_of_In. now apply (Hstill _ Hin).
    - apply dict_mem_In. apply list_elem_of_In in Hin. now apply In_dict_keys in Hin.
    - destruct (Hfresh _ Hin) as [_ Hdocs]. simpl in Hdocs.
      unfold Repository.update. simpl. rewrite Hdocs. now eexists. }
  rewrite Hsweep. simpl. eexists. split; [reflexivity|]. simpl.
  assert (Hresult : Forall (fun kr => Repository.get_archive_name (snd kr) = fst kr
                                      /\ Repository._stex_documents (snd kr) = None) lookup').
  { apply (update_sweep_Forall w _ _ _ _ _ _ Hsweep); [|exact Hfresh].
    rewrite Forall_forall in Hfresh. apply Forall_forall.
    intros [key repo] Hin repo' Hupdate. simpl.
    destruct (Hfresh _ Hin) as [Hname Hdocs]. simpl in Hname, Hdocs.
    apply update_preserves_identity in Hupdate as (_ & -> & _ & Hnone).
    split; [exact Hname|now apply Hnone]. }
  split; [|split].
  - eapply Forall_impl; [exact Hresult|]. now intros kr [H _].
  - eapply Forall_impl; [exact Hresult|]. now intros kr [_ H].
  - intros name. unfold MathHub.get_archive. simpl.
    rewrite dict_get_keys, Hsame, Hkeys. simpl. split; [|now right].
    intros [[]|H]. exact H.
Qed.

Lemma init_registers_the_roots_found_witness :
  exists self,
    MathHub.init Sample.hub_with_a = Ok self
    /\ keyed_by_name (MathHub.archive_lookup self)
    /\ Forall (fun kr => Repository._stex_documents (snd kr) = None)
         (MathHub.archive_lookup self)
    /\ (forall name,
          is_Some (MathHub.get_archive self name) <->
          exists root repo,
            In root (MathHub._get_mathhub_repos Sample.hub_with_a)
            /\ Repository.discover Sample.hub_with_a root = Ok repo
            /\ Repository.get_archive_name repo = name).
Proof.
  apply (init_registers_the_roots_found Sample.hub_with_a).
  intros root [<-|[]]. now eexists.
Defined.

(* ------------------------------------------------------------------------- *)
(** * The archive of a path                                                   *)
(* ------------------------------------------------------------------------- *)

Lemma enclosing_root_unfold (is_dir : Path.t -> bool) (reversed : list string) :
  MathHub.enclosing_root is_dir reversed
  = if is_dir (rev reversed ++ [".git"]) then Ok (rev reversed)
    else match reversed with
         | [] | [_] => Raise FileNotFoundError
         | _ :: parent => MathHub.enclosing_root is_dir parent
         end.
Proof. destruct reversed as [|c [|c' parent]]; reflexivity. Qed.

(** the loop on the reversed path: the part passed over and the part kept *)
Lemma enclosing_root_reversed (is_dir : Path.t -> bool) (reversed : list string) :
  match MathHub.enclosing_root is_dir reversed with
  | Ok root =>
      exists passed kept,
        reversed = passed ++ kept /\ root = rev kept
        /\ is_dir (rev kept ++ [".git"]) = true
        /\ (forall p1 p2, passed = p1 ++ p2 -> p2 <> [] ->
                          is_dir (rev (p2 ++ kept) ++ [".git"]) = false)
        /\ (kept = [] -> passed = [])
  | Raise e =>
      e = FileNotFoundError
      /\ (forall p1 p2, reversed = p1 ++ p2 -> p2 <> [] ->
                        is_dir (rev p2 ++ [".git"]) = false)
      /\ (reversed = [] -> is_dir [".git"] = false)
  end.
Proof.
  induction reversed as [|c parent IH]; rewrite enclosing_root_unfold.
  - simpl. destruct (is_dir [".git"]) eqn:Hdir.
    + exists [], []. repeat split; try easy.
      intros p1 p2 H. now destruct p1, p2.
    + split; [reflexivity|]. split; [|easy].
      intros p1 p2 H. now destruct p1, p2.
  - destruct (is_dir (rev (c :: parent) ++ [".git"])) eqn:Hdir.
    + exists [], (c :: parent). repeat split; try easy.
      intros p1 p2 H. now destruct p1, p2.
    + destruct parent as [|c' parent'].
      * split; [reflexivity|]. split; [|discriminate].
        intros p1 p2 H Hne. destruct p1 as [|x p1]; simpl in H.
        -- now subst.
        -- injection H as -> H. destruct p1, p2; try discriminate. contradiction.
      * destruct (MathHub.enclosing_root is_dir (c' :: parent')) as [root|e].
        -- destruct IH as (passed & kept & Hsplit & -> & Hkept & Hpassed & Hroot).
           exists (c :: passed), kept. rewrite Hsplit. repeat split; try easy.
           ++ intros p1 p2 H Hne. destruct p1 as [|x p1]; simpl in H.
              ** subst p2. simpl. now rewrite <- Hsplit.
              ** injection H as -> H. now apply (Hpassed p1).
           ++ intros ->. specialize (Hroot eq_refl). subst passed. discriminate Hsplit.
        -- destruct IH as (-> & Hnone & _). split; [reflexivity|]. split; [|discriminate].
           intros p1 p2 H Hne. destruct p1 as [|x p1]; simpl in H.
           ++ now subst.
           ++ injection H as -> H. now apply (Hnone p1).
Qed.

(** X17. The loop of [get_archive_from_path] returns the nearest directory,
    from the path itself upwards, that holds a [.git] directory: the result is
    an initial part of the path, holds [.git], and no longer initial part
    does; the root of the file system is returned only for the root itself.
    Otherwise the loop raises [FileNotFoundError], and then no non-empty
    initial part of the path holds [.git]. *)
Theorem enclosing_root_is_nearest (is_dir : Path.t -> bool) (path : Path.t) :
  match MathHub.enclosing_root is_dir (rev path) with
  | Ok root =>
      (exists below,
          path = root ++ below
          /\ forall mid rest, below = mid ++ rest -> mid <> [] ->
                              is_dir ((root ++ mid) ++ [".git"]) = false)
      /\ is_dir (root ++ [".git"]) = true
      /\ (root = [] -> path = [])
  | Raise e =>
      e = FileNotFoundError
      /\ (forall above below, path = above ++ below -> above <> [] ->
                              is_dir (above ++ [".git"]) = false)
      /\ (path = [] -> is_dir [".git"] = false)
  end.
Proof.
  pose proof (enclosing_root_reversed is_dir (rev path)) as H.
  destruct (MathHub.enclosing_root is_dir (rev path)) as [root|e].
  - destruct H as (passed & kept & Hsplit & -> & Hdir & Hpassed & Hroot).
    apply (f_equal (@rev string)) in Hsplit. rewrite rev_involutive, rev_app_distr in Hsplit.
    split; [|split; [exact Hdir|]].
    + exists (rev passed). split; [exact Hsplit|].
      intros mid rest Hmid Hne.
      specialize (Hpassed (rev rest) (rev mid)).
      rewrite rev_app_distr, rev_involutive in Hpassed. apply Hpassed.
      * apply (f_equal (@rev string)) in Hmid.
        now rewrite rev_involutive, rev_app_distr in Hmid.
      * intros Hnil. apply Hne. apply (f_equal (@rev string)) in Hnil.
        now rewrite rev_involutive in Hnil.
    + intros Hnil. assert (kept = []) as ->.
      { apply (f_equal (@rev string)) in Hnil. now rewrite rev_involutive in Hnil. }
      rewrite (Hroot eq_refl) in Hsplit. exact Hsplit.
  - destruct H as (-> & Hnone & Hempty). split; [reflexivity|]. split.
    + intros above below Hpath Hne.
      specialize (Hnone (rev below) (rev above)). rewrite rev_involutive in Hnone.
      apply Hnone.
      * now rewrite Hpath, rev_app_distr.
      * intros Hnil. apply Hne. apply (f_equal (@rev string)) in Hnil.
        now rewrite rev_involutive in Hnil.
    + intros ->. now apply Hempty.
Qed.

(** X18. In a registry that keeps every archive under its own name,
    [get_archive_from_path] returns an archive only if the name of that
    archive is the path, relative to the hub directory, of the nearest
    directory with [.git] around the given path (the path is below that
    directory, which holds [.git], and no directory between the two does): an
    archive whose manifest gives it another name than its directory is not
    found this way, and neither is an archive around a nearer [.git]. *)
Theorem get_archive_from_path_finds_by_directory (w : World) (is_dir : Path.t -> bool)
    (self : MathHub.t) (path : Path.t) (repo : Repository.t) :
  keyed_by_name (MathHub.archive_lookup self) ->
  MathHub.get_archive_from_path w is_dir self path = Ok (Some repo) ->
  exists root below,
    path = root ++ below
    /\ is_dir (root ++ [".git"]) = true
    /\ (forall mid rest, below = mid ++ rest -> mid <> [] ->
                         is_dir ((root ++ mid) ++ [".git"]) = false)
    /\ Path.relative_to root (get_mathhub_path w) = Ok (Repository.get_archive_name repo)
    /\ MathHub.get_archive self (Repository.get_archive_name repo) = Some repo.
Proof.
  intros Hkeyed Hrun. unfold MathHub.get_archive_from_path in Hrun.
  pose proof (enclosing_root_reversed is_dir (rev path)) as Hroot.
  destruct (MathHub.enclosing_root is_dir (rev path)) as [root|]; [|discriminate].
  simpl in Hrun.
  destruct (Path.relative_to root (get_mathhub_path w)) as [archive_name|] eqn:Hrel;
    [|discriminate].
  simpl in Hrun. injection Hrun as Hget.
  destruct Hroot as (passed & kept & Hsplit & -> & Hdir & Hpassed & _).
  apply (f_equal (@rev string)) in Hsplit.
  rewrite rev_involutive, rev_app_distr in Hsplit.
  assert (Hnearest : forall mid rest, rev passed = mid ++ rest -> mid <> [] ->
                                      is_dir ((rev kept ++ mid) ++ [".git"]) = false).
  { intros mid rest Hmid Hne.
    specialize (Hpassed (rev rest) (rev mid)).
    rewrite rev_app_distr, rev_involutive in Hpassed. apply Hpassed.
    - apply (f_equal (@rev string)) in Hmid.
      now rewrite rev_involutive, rev_app_distr in Hmid.
    - intros Hnil. apply Hne. apply (f_equal (@rev string)) in Hnil.
      now rewrite rev_involutive in Hnil. }
  assert (Hname : Repository.get_archive_name repo = archive_name).
  { unfold MathHub.get_archive in Hget. apply dict_get_In, list_elem_of_In in Hget.
    unfold keyed_by_name in Hkeyed. rewrite Forall_forall in Hkeyed.
    now apply Hkeyed in Hget. }
  exists (rev kept), (rev passed). rewrite Hname. now repeat split.
Qed.

Lemma get_archive_from_path_finds_by_directory_witness :
  let is_dir (p : Path.t) :=
    bool_decide (p = ["mh"; "a"; ".git"]) || bool_decide (p = ["mh"; "a"; "sub"; ".git"]) in
  let a := Repository.mk ["mh"; "a"] "a" None None in
  let sub := Repository.mk ["mh"; "a"; "sub"] "a/sub" None None in
  let hub := MathHub.mk [("a", a); ("a/sub", sub)] in
  let path := ["mh"; "a"; "sub"; "source"; "x.tex"] in
  exists root below,
    path = root ++ below
    /\ is_dir (root ++ [".git"]) = true
    /\ (forall mid rest, below = mid ++ rest -> mid <> [] ->
                         is_dir ((root ++ mid) ++ [".git"]) = false)
    /\ Path.relative_to root (get_mathhub_path Sample.hub_with_a)
       = Ok (Repository.get_archive_name sub)
    /\ MathHub.get_archive hub (Repository.get_archive_name sub) = Some sub.
Proof.
  intros is_dir a sub hub path.
  apply (get_archive_from_path_finds_by_directory Sample.hub_with_a is_dir hub path sub).
  - repeat constructor.
  - reflexivity.
Defined.

(* ------------------------------------------------------------------------- *)
(** * Repeated calls                                                          *)
(* ------------------------------------------------------------------------- *)

Lemma refreshed_stable (w : World) (self : Repository.t) (files : list Path.t)
    (key : string) (before : option STeXDocument.t) (after : STeXDocument.t) :
  refreshed w self files key before after ->
  STeXDocument.delete_doc_info_if_outdated w after = Ok after.
Proof.
  destruct before as [doc|]; simpl.
  - apply delete_doc_info_if_outdated_twice.
  - intros (file & _ & _ & ->). now apply delete_doc_info_if_outdated_empty.
Qed.

Lemma update_scan_files (w : World) (self : Repository.t) (files : list Path.t) :
  forall still_needed docs result,
    Repository.update_scan w self files still_needed docs = Ok result ->
    Forall (fun file => exists key, Path.relative_to file (Repository.path self) = Ok key)
      files.
Proof.
  induction files as [|file files IH]; intros still_needed docs result Hrun; [constructor|].
  simpl in Hrun.
  destruct (Path.relative_to file (Repository.path self)) as [rel_path|] eqn:Hrel;
    [|discriminate].
  simpl in Hrun. constructor; [eexists; exact Hrel|].
  destruct (Dict.get rel_path docs) as [doc|].
  - destruct (STeXDocument.delete_doc_info_if_outdated w doc) as [doc'|]; [|discriminate].
    now apply IH in Hrun.
  - now apply IH in Hrun.
Qed.

Lemma update_scan_returns (w : World) (self : Repository.t) (files : list Path.t) :
  Forall (fun file => exists key, Path.relative_to file (Repository.path self) = Ok key)
    files ->
  forall still_needed docs,
    (forall key doc, Dict.get key docs = Some doc ->
                     STeXDocument.delete_doc_info_if_outdated w doc = Ok doc) ->
    exists result, Repository.update_scan w self files still_needed docs = Ok result.
Proof.
  induction 1 as [|file files [rel_path Hrel] _ IH]; intros still_needed docs Hdocs; simpl.
  - now eexists.
  - rewrite Hrel. simpl. destruct (Dict.get rel_path docs) as [doc|] eqn:Hget.
    + rewrite (Hdocs _ _ Hget). simpl. apply IH.
      intros key d. rewrite dict_get_set.
      destruct (String.eqb rel_path key); [|apply Hdocs].
      intros H. injection H as <-. now apply (Hdocs rel_path).
    + apply IH. intros key d. rewrite dict_get_set.
      destruct (String.eqb rel_path key); [|apply Hdocs].
      intros H. injection H as <-. now apply delete_doc_info_if_outdated_empty.
Qed.

(** X19. [Repository.update] run a second time in the same world returns,
    and changes nothing: the archive has the same root, name and (empty)
    manifest slot, and under every key the same document as after the first
    run. *)
Theorem update_twice (w : World) (self self1 : Repository.t)
    (docs : Dict.t STeXDocument.t) :
  Repository._stex_documents self = Some docs ->
  Repository.update w self = Ok self1 ->
  exists self2 docs1 docs2,
    Repository.update w self1 = Ok self2
    /\ Repository._stex_documents self1 = Some docs1
    /\ Repository._stex_documents self2 = Some docs2
    /\ Repository.path self2 = Repository.path self1
    /\ Repository.get_archive_name self2 = Repository.get_archive_name self1
    /\ Repository._manifest self2 = Repository._manifest self1
    /\ forall key, Dict.get key docs2 = Dict.get key docs1.
Proof.
  intros Hdocs Hrun.
  destruct (update_documents w self self1 docs Hdocs Hrun) as (docs1 & -> & Hfirst).
  assert (Hfiles : Forall (fun file => exists key,
                               Path.relative_to file (Repository.path self) = Ok key)
                     (Repository._relevant_file_iterate w self)).
  { unfold Repository.update in Hrun. simpl in Hrun. rewrite Hdocs in Hrun.
    destruct (Repository.update_scan _ _ _ _ _) as [result|] eqn:Hscan; [|discriminate].
    now apply update_scan_files in Hscan. }
  assert (Hstable : forall key doc, Dict.get key docs1 = Some doc ->
                                    STeXDocument.delete_doc_info_if_outdated w doc = Ok doc).
  { intros key doc Hget. specialize (Hfirst key). destruct (bool_decide _); [|congruence].
    destruct Hfirst as (after & Hafter & Hrefreshed).
    rewrite Hget in Hafter. injection Hafter as <-. now apply refreshed_stable in Hrefreshed. }
  pose (self1 := Repository.mk (Repository.path self) (Repository.get_archive_name self)
                   None (Some docs1)).
  assert (Hsecond : exists self2, Repository.update w self1 = Ok self2).
  { destruct (update_scan_returns w self1 (Repository._relevant_file_iterate w self1)
                Hfiles [] docs1 Hstable) as [[still_needed docs2] Hscan].
    subst self1. unfold Repository.update. simpl. simpl in Hscan.
    rewrite Hscan. simpl. now eexists. }
  destruct Hsecond as [self2 Hsecond].
  destruct (update_documents w self1 self2 docs1 eq_refl Hsecond) as (docs2 & Hself2 & Hnext).
  exists self2, docs1, docs2. subst self2 self1.
  repeat (split; [first [exact Hsecond|reflexivity]|]).
  intros key. specialize (Hfirst key). specialize (Hnext key).
  simpl in Hnext.
  change (Repository._relevant_file_iterate w
            (Repository.mk (Repository.path self) (Repository.get_archive_name self)
               None (Some docs1)))
    with (Repository._relevant_file_iterate w self) in Hnext.
  destruct (bool_decide _).
  - destruct Hfirst as (after1 & Hafter1 & _). destruct Hnext as (after2 & Hafter2 & Hr2).
    rewrite Hafter1 in Hr2. simpl in Hr2. rewrite (Hstable _ _ Hafter1) in Hr2.
    injection Hr2 as <-. congruence.
  - congruence.
Qed.

Lemma update_twice_witness :
  let x := STeXDocument.mk (ArchiveRef.mk ["mh"; "a"] "a")
             ["mh"; "a"; "source"; "x.tex"] (Some (DocInfo.mk 3 [] [])) in
  let old := STeXDocument.mk (ArchiveRef.mk ["mh"; "a"] "a")
               ["mh"; "a"; "source"; "old.tex"] None in
  let a := Repository.mk ["mh"; "a"] "a" (Some [("id", "a")])
             (Some [("source/old.tex", old); ("source/x.tex", x)]) in
  exists self1 self2 docs1 docs2,
    Repository.update Sample.hub_with_a a = Ok self1
    /\ Repository.update Sample.hub_with_a self1 = Ok self2
    /\ Repository._stex_documents self1 = Some docs1
    /\ Repository._stex_documents self2 = Some docs2
    /\ Repository.path self2 = Repository.path self1
    /\ Repository.get_archive_name self2 = Repository.get_archive_name self1
    /\ Repository._manifest self2 = Repository._manifest self1
    /\ forall key, Dict.get key docs2 = Dict.get key docs1.
Proof.
  intros x old a.
  destruct (update_twice Sample.hub_with_a a
              (Repository.mk ["mh"; "a"] "a" None
                 (Some [("source/x.tex", STeXDocument.set_doc_info None x)]))
              [("source/old.tex", old); ("source/x.tex", x)] eq_refl eq_refl)
    as (self2 & docs1 & docs2 & H).
  eexists _, self2, docs1, docs2. split; [reflexivity|exact H].
Defined.

(** X20. [get_doc_info] computes a DocInfo at most once: when it returns,
    the document it leaves holds the DocInfo returned and keeps its archive
    and path, and every later call, in whatever world and with whatever
    registry, returns that DocInfo and leaves the document as it is; on a
    document without DocInfo it returns what [create_doc_info] stores. *)
Theorem get_doc_info_computes_once (w : World) (mh : MathHub.t)
    (doc doc1 : STeXDocument.t) (doc_info : DocInfo.t) :
  get_doc_info w mh doc = Ok (doc_info, doc1) ->
  STeXDocument._doc_info doc1 = Some doc_info
  /\ STeXDocument.archive doc1 = STeXDocument.archive doc
  /\ STeXDocument.path doc1 = STeXDocument.path doc
  /\ (forall w' mh', get_doc_info w' mh' doc1 = Ok (doc_info, doc1))
  /\ (STeXDocument._doc_info doc = None -> create_doc_info w mh doc = Ok doc1).
Proof.
  intros Hrun. unfold get_doc_info in Hrun.
  assert (Hshape : STeXDocument._doc_info doc1 = Some doc_info
                   /\ STeXDocument.archive doc1 = STeXDocument.archive doc
                   /\ STeXDocument.path doc1 = STeXDocument.path doc
                   /\ (STeXDocument._doc_info doc = None -> create_doc_info w mh doc = Ok doc1)).
  { destruct (STeXDocument._doc_info doc) as [cached|] eqn:Hcache; simpl in Hrun.
    - rewrite Hcache in Hrun. simpl in Hrun. injection Hrun as <- <-.
      now repeat split.
    - destruct (create_doc_info w mh doc) as [doc'|] eqn:Hcreate; [|discriminate].
      simpl in Hrun.
      destruct (STeXDocument._doc_info doc') as [computed|] eqn:Hcomputed; [|discriminate].
      simpl in Hrun. injection Hrun as <- <-.
      apply create_doc_info_reach in Hcreate as (mtime & st & _ & _ & ->).
      now repeat split. }
  destruct Hshape as (Hinfo & Harchive & Hpath & Hcreate).
  repeat (split; [assumption|]). split; [|exact Hcreate].
  intros w' mh'. unfold get_doc_info. rewrite Hinfo. simpl. now rewrite Hinfo.
Qed.

Lemma get_doc_info_computes_once_witness :
  exists doc_info doc1,
    get_doc_info Demo.world Sample.hub_a Demo.doc = Ok (doc_info, doc1)
    /\ STeXDocument._doc_info doc1 = Some doc_info
    /\ STeXDocument.archive doc1 = STeXDocument.archive Demo.doc
    /\ STeXDocument.path doc1 = STeXDocument.path Demo.doc
    /\ (forall w' mh', get_doc_info w' mh' doc1 = Ok (doc_info, doc1))
    /\ (STeXDocument._doc_info Demo.doc = None ->
        create_doc_info Demo.world Sample.hub_a Demo.doc = Ok doc1).
Proof.
  eexists _, _. split; [vm_compute; reflexivity|].
  apply (get_doc_info_computes_once Demo.world Sample.hub_a Demo.doc). reflexivity.
Defined.

(* ------------------------------------------------------------------------- *)
(** * Analysis with the memo tables in the state                              *)
(* ------------------------------------------------------------------------- *)

Lemma extends_refl (s : Memo.Store) : extends s s.
Proof. intros address. auto. Qed.

Lemma extends_trans (s1 s2 s3 : Memo.Store) :
  extends s1 s2 -> extends s2 s3 -> extends s1 s3.
Proof.
  intros H12 H23 address.
  destruct (H12 address) as (Hp & Hm & Hn). destruct (H23 address) as (Hp' & Hm' & Hn').
  split; [congruence|]. split; auto.
Qed.

(** filling an empty slot of an object extends the store *)
Lemma set_object_extends (s : Memo.Store) (self : nat) (o : Memo.Object.t) :
  Memo.Object.path o = Memo.Object.path (Memo.objects s self) ->
  (forall mf, Memo.Object._manifest (Memo.objects s self) = Some mf ->
              Memo.Object._manifest o = Some mf) ->
  (forall name, Memo.Object.archive_name (Memo.objects s self) = Some name ->
                Memo.Object.archive_name o = Some name) ->
  extends s (Memo.set_object self o s).
Proof.
  intros Hp Hm Hn address. unfold Memo.set_object. simpl.
  destruct (Nat.eqb_spec address self) as [->|_]; auto.
Qed.

Lemma stable_ret {A} (a : A) : stable (mret a : Memo.M A).
Proof.
  intros s a' s' H. injection H as <- <-. split; [apply extends_refl|reflexivity].
Qed.

Lemma stable_lift {A} (r : result A) : stable (Memo.lift r).
Proof.
  intros s a s' H. unfold Memo.lift in *. destruct r as [x|]; [|discriminate].
  injection H as <- <-. split; [apply extends_refl|reflexivity].
Qed.

Lemma stable_bind {A B} (m : Memo.M A) (k : A -> Memo.M B) :
  stable m -> (forall a, stable (k a)) -> stable (m ≫= k).
Proof.
  intros Hm Hk s b s2 Hrun.
  change ((m ≫= k) s) with (Memo.bind m k s) in Hrun. unfold Memo.bind in Hrun.
  destruct (m s) as [[a s1]|] eqn:Hfirst; [|discriminate].
  destruct (Hm _ _ _ Hfirst) as [Hext1 Hagain1].
  destruct (Hk a _ _ _ Hrun) as [Hext2 Hagain2].
  split; [now apply extends_trans with s1|].
  intros s'' Hext.
  change ((m ≫= k) s'') with (Memo.bind m k s''). unfold Memo.bind.
  rewrite (Hagain1 s'' (extends_trans _ _ _ Hext2 Hext)).
  now apply Hagain2.
Qed.

Lemma get_manifest_extends (w : World) (self : nat) (s s' : Memo.Store)
    (mf : list (string * string)) :
  Memo.get_manifest w self s = Ok (mf, s') -> extends s s'.
Proof.
  unfold Memo.get_manifest.
  destruct (Memo.Object._manifest (Memo.objects s self)) as [known|] eqn:Hknown.
  - intros H. injection H as <- <-. apply extends_refl.
  - destruct (read_manifest w _) as [read|]; [|discriminate].
    intros H. injection H as <- <-.
    apply set_object_extends; simpl; [reflexivity|congruence|auto].
Qed.

Lemma get_manifest_name (w : World) (self : nat) (s s' : Memo.Store)
    (mf : list (string * string)) :
  Memo.get_manifest w self s = Ok (mf, s') ->
  Memo.Object.archive_name (Memo.objects s' self)
  = Memo.Object.archive_name (Memo.objects s self).
Proof.
  unfold Memo.get_manifest.
  destruct (Memo.Object._manifest (Memo.objects s self)) as [known|].
  - intros H. now injection H as <- <-.
  - destruct (read_manifest w _) as [read|]; [|discriminate].
    intros H. injection H as <- <-. simpl. now rewrite Nat.eqb_refl.
Qed.

(** the memoised name: once a call has returned, every later call returns
    the same name and changes nothing *)
Lemma stable_get_archive_name (w : World) (self : nat) :
  stable (Memo.get_archive_name w self).
Proof.
  assert (Hhit : forall s name,
             Memo.Object.archive_name (Memo.objects s self) = Some name ->
             forall s'', extends s s'' -> Memo.get_archive_name w self s'' = Ok (name, s'')).
  { intros s name Hname s'' Hext. unfold Memo.get_archive_name.
    destruct (Hext self) as (_ & _ & Hkeep). now rewrite (Hkeep _ Hname). }
  assert (Hremember : forall s s1 name,
             extends s s1 ->
             Memo.Object.archive_name (Memo.objects s1 self) = None ->
             let s' := Memo.set_object self
                         (Memo.Object.mk (Memo.Object.path (Memo.objects s1 self))
                            (Memo.Object._manifest (Memo.objects s1 self)) (Some name)) s1 in
             extends s s'
             /\ forall s'', extends s' s'' -> Memo.get_archive_name w self s'' = Ok (name, s'')).
  { intros s s1 name Hext Hnone s'. split.
    - apply (extends_trans _ _ _ Hext).
      apply set_object_extends; simpl; [reflexivity|auto|congruence].
    - apply Hhit. subst s'. simpl. now rewrite Nat.eqb_refl. }
  intros s name s' Hrun. unfold Memo.get_archive_name in Hrun.
  destruct (Memo.Object.archive_name (Memo.objects s self)) as [known|] eqn:Hknown.
  - injection Hrun as <- <-. split; [apply extends_refl|now apply Hhit].
  - destruct (Path.relative_to _ _) as [name_guess|]; [|discriminate].
    destruct (Memo.get_manifest w self s) as [[mf s1]|e] eqn:Hmf.
    + injection Hrun as <- <-.
      apply Hremember; [now apply get_manifest_extends in Hmf|].
      now rewrite (get_manifest_name _ _ _ _ _ Hmf).
    + destruct e; try discriminate. injection Hrun as <- <-.
      apply Hremember; [apply extends_refl|assumption].
Qed.

Lemma stable_get_rel_path (self : Memo.Document.t) : stable (Memo.get_rel_path self).
Proof.
  intros s rel s' Hrun. unfold Memo.get_rel_path, Memo.lift in *.
  destruct (Path.relative_to _ _) as [r|] eqn:Hrel; [|discriminate].
  injection Hrun as <- <-. split; [apply extends_refl|].
  intros s'' Hext. destruct (Hext (Memo.Document.archive self)) as (-> & _).
  now rewrite Hrel.
Qed.

(** a call with three arguments never returns *)
Lemma normalize_tex_file_ref_arity (w : World) (self : nat) (a b c : string)
    (s : Memo.Store) :
  Memo.normalize_tex_file_ref w self [a; b; c] s = Raise TypeError.
Proof. reflexivity. Qed.

Lemma stable_first_resolved (w : World) (archive : nat) (top_dir lang : string)
    (path_options : list string) :
  stable (Memo.first_resolved w archive top_dir lang path_options).
Proof.
  destruct path_options as [|path_option rest]; [apply stable_ret|].
  intros s file s' Hrun. discriminate Hrun.
Qed.

Lemma stable_produce (w : World) (dp : DependencyProducer.t) (pos len : Z)
    (nodeargd : ParsedArgs.t) (from_archive from_subdir : string) (mh : Memo.Registry)
    (valid_range : span) (lang : string) :
  stable (Memo.produce w dp pos len nodeargd from_archive from_subdir mh valid_range lang).
Proof.
  unfold Memo.produce.
  destruct (ParsedArgs.get_first_main_arg nodeargd) as [main_arg|]; [|apply stable_ret].
  destruct (Dict.get _ mh) as [archive|]; [|apply stable_ret].
  destruct (DependencyProducer.references_module dp).
  - destruct (if Py.contains "?" main_arg then _ else _) as [path module_name].
    apply stable_bind; [apply stable_first_resolved|intros file].
    apply stable_bind; [apply stable_get_archive_name|intros name]. apply stable_ret.
  - destruct (DependencyProducer.target_no_tex dp).
    + apply stable_bind; [apply stable_get_archive_name|intros name]. apply stable_ret.
    + apply stable_bind; [apply stable_first_resolved|intros file].
      apply stable_bind; [apply stable_get_archive_name|intros name]. apply stable_ret.
Qed.

Section MemoWalk.
Variables (w : World) (mh : Memo.Registry) (self : Memo.Document.t).

Lemma stable_signature_dependency (pos len : Z) (nodeargd : ParsedArgs.t) (name : string) :
  stable (Memo.signature_dependency w self pos len nodeargd name).
Proof.
  unfold Memo.signature_dependency.
  destruct (_ ≫= _) as [sig_val|]; [|apply stable_ret].
  destruct (negb (Py.truthy sig_val)); [apply stable_ret|].
  apply stable_bind; [apply stable_lift|intros file_field].
  apply stable_bind; [apply stable_get_archive_name|intros archive_name]. apply stable_ret.
Qed.

Lemma stable_for_nodes (step : LatexNode -> span -> walk_state -> Memo.M walk_state)
    (nodes : list LatexNode) :
  Forall (fun node => forall parent_range st, stable (step node parent_range st)) nodes ->
  forall parent_range st, stable (Memo.for_nodes step nodes parent_range st).
Proof.
  induction 1 as [|node rest Hnode _ IH]; intros parent_range st.
  - apply stable_ret.
  - change (stable (step node parent_range st
                    ≫= fun st' => Memo.for_nodes step rest parent_range st')).
    apply stable_bind; [apply Hnode|intros st'; apply IH].
Qed.

Lemma stable_call_process (step : LatexNode -> span -> walk_state -> Memo.M walk_state)
    (nodes : list LatexNode) :
  Forall (fun node => forall parent_range st, stable (step node parent_range st)) nodes ->
  forall parent_range st, stable (Memo.call_process step nodes parent_range st).
Proof.
  intros Hnodes parent_range st. unfold Memo.call_process.
  apply stable_bind; [now apply stable_for_nodes|intros st']. apply stable_ret.
Qed.

Lemma stable_process_node (node : LatexNode) :
  forall parent_range st, stable (Memo.process_node w mh self node parent_range st).
Proof.
  induction node as [| | | |pos len nodelist IH|pos len name nodeargd nodelist IH
                     |pos len macroname nodeargd|]
    using LatexNode_nested_ind; intros parent_range [module_info doc_info];
    cbn [Memo.process_node].
  - apply stable_ret.
  - apply stable_ret.
  - apply stable_ret.
  - apply stable_ret.
  - now apply stable_call_process.
  - destruct (String.eqb name "smodule"); [|now apply stable_call_process].
    apply stable_bind; [apply stable_lift|intros local].
    destruct (attach_module _ module_info doc_info) as [new_ref doc_info1].
    apply stable_bind; [apply stable_signature_dependency|intros sig_dep].
    now apply stable_call_process.
  - destruct (Dict.get macroname DEPENDENCY_PRODUCER_BY_MACRONAME) as [dp|].
    + apply stable_bind; [apply stable_get_archive_name|intros from_archive].
      apply stable_bind; [apply stable_get_rel_path|intros rel_path].
      apply stable_bind; [apply stable_produce|intros [dep|]]; apply stable_ret.
    + destruct (is_symbol_macro macroname); [|apply stable_ret].
      apply stable_bind; [apply stable_lift|intros [symbol verbalization]].
      destruct module_info; apply stable_ret.
  - apply stable_lift.
Qed.

Lemma stable_create_doc_info : stable (Memo.create_doc_info w mh self).
Proof.
  unfold Memo.create_doc_info.
  apply stable_bind; [apply stable_lift|intros [nodes text_len]].
  apply stable_bind; [apply stable_lift|intros mtime].
  apply stable_bind; [|intros st; apply stable_ret].
  apply stable_call_process. apply Forall_forall. intros node _.
  apply stable_process_node.
Qed.

(** the analysis reads the archive and the path of the document, not its
    [_doc_info] slot *)
Lemma memo_create_doc_info_ignores_slot (o : option DocInfo.t) (s : Memo.Store) :
  Memo.create_doc_info w mh (Memo.Document.set_doc_info o self) s
  = Memo.create_doc_info w mh self s.
Proof. reflexivity. Qed.

Lemma memo_create_doc_info_shape (s s1 : Memo.Store) (doc1 : Memo.Document.t) :
  Memo.create_doc_info w mh self s = Ok (doc1, s1) ->
  exists doc_info, doc1 = Memo.Document.set_doc_info (Some doc_info) self.
Proof.
  unfold Memo.create_doc_info. intros Hrun.
  change (Memo.bind (Memo.lift (expect FileNotFoundError
                                  (get_latex_nodes w (Memo.Document.path self))))
            (fun '(nodes, text_len) =>
               Memo.bind (Memo.lift (expect FileNotFoundError
                                       (st_mtime w (Memo.Document.path self))))
                 (fun mtime =>
                    Memo.bind (Memo.process w mh self nodes (0, text_len)
                                 (None, DocInfo.mk mtime [] []))
                      (fun st => Memo.ret (Memo.Document.set_doc_info (Some (snd st)) self))))
            s = Ok (doc1, s1)) in Hrun.
  unfold Memo.bind, Memo.lift, Memo.ret in Hrun.
  destruct (expect _ (get_latex_nodes w _)) as [[nodes text_len]|]; [|discriminate].
  destruct (expect _ (st_mtime w _)) as [mtime|]; [|discriminate].
  destruct (Memo.process _ _ _ _ _ _ _) as [[st s']|]; [|discriminate].
  injection Hrun as <- <-. now eexists.
Qed.

End MemoWalk.

(** ** The analysis without tables is the analysis on a store that knows the names

    When the name of the archive of the document and of every archive of the
    registry is memoised, the analysis with the tables in the state leaves
    the store as it is, and returns or raises what [create_doc_info] does on
    the objects of the store. *)

Lemma lift_bind {A B} (m : Memo.M A) (k : A -> Memo.M B) (r : result A)
    (k' : A -> result B) (s : Memo.Store) :
  m s = Memo.lift r s ->
  (forall a, k a s = Memo.lift (k' a) s) ->
  (m ≫= k) s = Memo.lift (r ≫= k') s.
Proof.
  intros Hm Hk. change ((m ≫= k) s) with (Memo.bind m k s). unfold Memo.bind.
  rewrite Hm. destruct r as [a|e]; [apply Hk|reflexivity].
Qed.

Lemma get_archive_name_known (w : World) (self : nat) (s : Memo.Store) :
  is_Some (Memo.Object.archive_name (Memo.objects s self)) ->
  Memo.get_archive_name w self s
  = Ok (Repository.get_archive_name (Memo.Object.as_repository (Memo.objects s self)), s).
Proof.
  intros [name Hname]. unfold Memo.get_archive_name. simpl. now rewrite Hname.
Qed.

Lemma view_hub_get (s : Memo.Store) (mh : Memo.Registry) (name : string) :
  MathHub.get_archive (view_hub s mh) name
  = (fun archive => Memo.Object.as_repository (Memo.objects s archive)) <$> Dict.get name mh.
Proof.
  unfold MathHub.get_archive, view_hub, Dict.get. simpl.
  induction mh as [|[key archive] mh IH]; [reflexivity|].
  simpl. destruct (String.eqb key name); [reflexivity|exact IH].
Qed.

Lemma first_resolved_view (w : World) (archive : nat) (top_dir lang : string)
    (path_options : list string) (s : Memo.Store) :
  Memo.first_resolved w archive top_dir lang path_options s
  = Memo.lift (DependencyProducer.first_resolved w
                 (Memo.Object.as_repository (Memo.objects s archive))
                 top_dir lang path_options) s.
Proof. now destruct path_options. Qed.

Lemma produce_view (w : World) (dp : DependencyProducer.t) (pos len : Z)
    (nodeargd : ParsedArgs.t) (from_archive from_subdir : string) (mh : Memo.Registry)
    (valid_range : span) (lang : string) (s : Memo.Store) :
  Forall (fun entry => is_Some (Memo.Object.archive_name (Memo.objects s (snd entry)))) mh ->
  Memo.produce w dp pos len nodeargd from_archive from_subdir mh valid_range lang s
  = Memo.lift (DependencyProducer.produce w dp pos len nodeargd from_archive from_subdir
                 (view_hub s mh) valid_range lang) s.
Proof.
  intros Hknown. unfold Memo.produce, DependencyProducer.produce.
  destruct (ParsedArgs.get_first_main_arg nodeargd) as [main_arg|]; [|reflexivity].
  rewrite view_hub_get.
  destruct (Dict.get _ mh) as [archive|] eqn:Hget; [|reflexivity]. simpl.
  assert (Hname : is_Some (Memo.Object.archive_name (Memo.objects s archive))).
  { unfold Dict.get in Hget. destruct (List.find _ mh) as [entry|] eqn:Hfind; [|discriminate].
    injection Hget as <-. apply find_some in Hfind as [Hin _].
    rewrite Forall_forall in Hknown. apply Hknown. now apply list_elem_of_In. }
  pose proof (get_archive_name_known w archive s Hname) as Hcall.
  destruct (DependencyProducer.references_module dp).
  - destruct (if Py.contains "?" main_arg then _ else _) as [path module_name].
    apply lift_bind; [apply first_resolved_view|intros file].
    change ((Memo.get_archive_name w archive ≫= _) s) with
      (Memo.bind (Memo.get_archive_name w archive)
         (fun name => mret (Some (Dependency.mk name file (Some module_name)
                                    (DependencyProducer.is_lib dp)
                                    (DependencyProducer.is_use dp)
                                    (DependencyProducer.target_no_tex dp)
                                    (Some valid_range) (Some (pos, pos + len))))) s).
    unfold Memo.bind. now rewrite Hcall.
  - destruct (DependencyProducer.target_no_tex dp).
    + change ((Memo.get_archive_name w archive ≫= _) s) with
        (Memo.bind (Memo.get_archive_name w archive)
           (fun name => mret (Some (Dependency.mk name None None
                                      (DependencyProducer.is_lib dp)
                                      (DependencyProducer.is_use dp) true
                                      (Some valid_range) (Some (pos, pos + len))))) s).
      unfold Memo.bind. now rewrite Hcall.
    + apply lift_bind; [apply first_resolved_view|intros file].
      change ((Memo.get_archive_name w archive ≫= _) s) with
        (Memo.bind (Memo.get_archive_name w archive)
           (fun name => mret (Some (Dependency.mk name file None
                                      (DependencyProducer.is_lib dp)
                                      (DependencyProducer.is_use dp) false
                                      (Some valid_range) (Some (pos, pos + len))))) s).
      unfold Memo.bind. now rewrite Hcall.
Qed.

Lemma memo_bind_unfold {A B} (m : Memo.M A) (k : A -> Memo.M B) (s : Memo.Store) :
  (m ≫= k) s
  = match m s with
    | Ok (a, s') => k a s'
    | Raise e => Raise e
    end.
Proof. reflexivity. Qed.

Section MemoView.
Variables (w : World) (mh : Memo.Registry) (self : Memo.Document.t) (s : Memo.Store).
Hypothesis Hknown : names_known s mh self.

Lemma signature_dependency_view (pos len : Z) (nodeargd : ParsedArgs.t) (name : string) :
  Memo.signature_dependency w self pos len nodeargd name s
  = Memo.lift (signature_dependency w (view_document s self) pos len nodeargd name) s.
Proof.
  unfold Memo.signature_dependency, signature_dependency.
  destruct (_ ≫= _) as [sig_val|]; [|reflexivity].
  destruct (negb (Py.truthy sig_val)); [reflexivity|].
  apply lift_bind; [reflexivity|intros file_field].
  rewrite memo_bind_unfold, (get_archive_name_known w _ s (proj1 Hknown)).
  reflexivity.
Qed.

Lemma for_nodes_view
    (step : LatexNode -> span -> walk_state -> Memo.M walk_state)
    (step' : LatexNode -> span -> walk_state -> result walk_state)
    (nodes : list LatexNode) :
  Forall (fun node => forall parent_range st,
              step node parent_range st s = Memo.lift (step' node parent_range st) s) nodes ->
  forall parent_range st,
    Memo.for_nodes step nodes parent_range st s
    = Memo.lift (for_nodes step' nodes parent_range st) s.
Proof.
  induction 1 as [|node rest Hnode _ IH]; intros parent_range st; [reflexivity|].
  change (Memo.for_nodes step (node :: rest) parent_range st)
    with (step node parent_range st ≫= fun st' => Memo.for_nodes step rest parent_range st').
  rewrite for_nodes_cons. apply lift_bind; [apply Hnode|intros st'; apply IH].
Qed.

Lemma call_process_view
    (step : LatexNode -> span -> walk_state -> Memo.M walk_state)
    (step' : LatexNode -> span -> walk_state -> result walk_state)
    (nodes : list LatexNode) :
  Forall (fun node => forall parent_range st,
              step node parent_range st s = Memo.lift (step' node parent_range st) s) nodes ->
  forall parent_range st,
    Memo.call_process step nodes parent_range st s
    = Memo.lift (call_process step' nodes parent_range st) s.
Proof.
  intros Hnodes parent_range st. unfold Memo.call_process, call_process.
  apply lift_bind; [now apply for_nodes_view|reflexivity].
Qed.

Lemma process_node_view (node : LatexNode) :
  forall parent_range st,
    Memo.process_node w mh self node parent_range st s
    = Memo.lift (process_node w (view_hub s mh) (view_document s self) node parent_range st) s.
Proof.
  induction node as [| | | |pos len nodelist IH|pos len name nodeargd nodelist IH
                     |pos len macroname nodeargd|]
    using LatexNode_nested_ind; intros parent_range [module_info doc_info];
    cbn [Memo.process_node process_node]; try reflexivity.
  - now apply call_process_view.
  - destruct (String.eqb name "smodule"); [|now apply call_process_view].
    apply lift_bind; [reflexivity|intros local].
    destruct (attach_module _ module_info doc_info) as [new_ref doc_info1].
    apply lift_bind; [apply signature_dependency_view|intros sig_dep].
    now apply call_process_view.
  - destruct (Dict.get macroname DEPENDENCY_PRODUCER_BY_MACRONAME) as [dp|].
    + rewrite memo_bind_unfold, (get_archive_name_known w _ s (proj1 Hknown)).
      apply lift_bind; [reflexivity|intros rel_path].
      apply lift_bind; [apply produce_view, Hknown|intros [dep|]]; reflexivity.
    + destruct (is_symbol_macro macroname); [|reflexivity].
      apply lift_bind; [reflexivity|intros [symbol verbalization]].
      now destruct module_info.
Qed.

(** on a store that knows the names, the analysis changes nothing in the
    store and is the analysis without tables *)
Lemma create_doc_info_view :
  Memo.create_doc_info w mh self s
  = match create_doc_info w (view_hub s mh) (view_document s self) with
    | Ok doc1 => Ok (Memo.Document.set_doc_info (STeXDocument._doc_info doc1) self, s)
    | Raise e => Raise e
    end.
Proof.
  unfold Memo.create_doc_info, create_doc_info.
  rewrite memo_bind_unfold. unfold Memo.lift at 1.
  change (STeXDocument.path (view_document s self)) with (Memo.Document.path self).
  destruct (expect _ (get_latex_nodes w _)) as [[nodes text_len]|]; [|reflexivity].
  rewrite memo_bind_unfold. unfold Memo.lift at 1.
  destruct (expect _ (st_mtime w _)) as [mtime|]; [|reflexivity].
  rewrite memo_bind_unfold. unfold Memo.process, process.
  rewrite (call_process_view _ (process_node w (view_hub s mh) (view_document s self))).
  - unfold Memo.lift. simpl.
    now destruct (call_process _ _ _ _) as [st|].
  - apply Forall_forall. intros node _. apply process_node_view.
Qed.

End MemoView.

(** C7. Analysis with the memo tables in the state, as a second run finds
    them: when [create_doc_info] returns, a second run on the document and
    the store the first run has left returns the same document, with a
    DocInfo equal in all fields, and leaves the store as it is.  The same
    holds from every store that has kept what the first run left (whatever
    else was memoised since), and whatever the [_doc_info] slot holds: the
    result is a function of the world, the registry and the store. *)
Theorem create_doc_info_twice (w : World) (mh : Memo.Registry)
    (doc doc1 : Memo.Document.t) (s s1 : Memo.Store) :
  Memo.create_doc_info w mh doc s = Ok (doc1, s1) ->
  Memo.create_doc_info w mh doc1 s1 = Ok (doc1, s1)
  /\ (exists doc_info, doc1 = Memo.Document.set_doc_info (Some doc_info) doc)
  /\ extends s s1
  /\ (forall s2 o,
        extends s1 s2 ->
        Memo.create_doc_info w mh (Memo.Document.set_doc_info o doc) s2 = Ok (doc1, s2)).
Proof.
  intros Hrun.
  destruct (stable_create_doc_info w mh doc _ _ _ Hrun) as [Hext Hagain].
  destruct (memo_create_doc_info_shape w mh doc _ _ _ Hrun) as [doc_info ->].
  split; [|split; [|split]].
  - rewrite memo_create_doc_info_ignores_slot. apply Hagain, extends_refl.
  - now exists doc_info.
  - exact Hext.
  - intros s2 o Hext2. rewrite memo_create_doc_info_ignores_slot. now apply Hagain.
Qed.

Lemma create_doc_info_twice_witness :
  exists doc1 s1,
    Memo.create_doc_info MemoDemo.world MemoDemo.hub MemoDemo.doc MemoDemo.cold
    = Ok (doc1, s1)
    /\ Memo.Object.archive_name (Memo.objects MemoDemo.cold 0) = None
    /\ Memo.Object.archive_name (Memo.objects s1 0) = Some "alpha"
    /\ Memo.create_doc_info MemoDemo.world MemoDemo.hub doc1 s1 = Ok (doc1, s1)
    /\ (exists doc_info, doc1 = Memo.Document.set_doc_info (Some doc_info) MemoDemo.doc)
    /\ extends MemoDemo.cold s1
    /\ (forall s2 o,
          extends s1 s2 ->
          Memo.create_doc_info MemoDemo.world MemoDemo.hub
            (Memo.Document.set_doc_info o MemoDemo.doc) s2 = Ok (doc1, s2)).
Proof.
  eexists _, _. split; [vm_compute; reflexivity|].
  split; [reflexivity|]. split; [reflexivity|].
  apply (create_doc_info_twice MemoDemo.world MemoDemo.hub MemoDemo.doc).
  reflexivity.
Defined.
